(** * nurbs/Surface.py: B-spline and NURBS surface evaluation

    A shallow embedding of the [Surface] class of [nurbs/Surface.py] and the
    properties its specification states about it.

    Conventions of the embedding.
    - Python floats are idealised as exact rationals ([Qc], the canonical
      rationals, whose equality is Leibniz equality).  Rounding is not
      modelled; every statement below is about exact arithmetic.
    - A numeric argument is a number of the model: a degree is an integer,
      and a coordinate, a weight, a knot or a delta is a real number that
      [float()] converts.  NaN, the infinities and integers beyond the range
      of a double are not inputs of the model.  (NaN fails every comparison,
      so the tests [value < 0] and [float(value) <= 0 or float(value) >= 1]
      of the setters let it pass; [float()] raises [OverflowError] on an
      integer beyond the range.)  A statement about every argument
      ranges over these numbers.
    - Python integers are [Z]; sequence indices follow Python: a negative
      index counts from the end, anything else out of range raises
      [IndexError].
    - A method is a function from the object's state to an outcome (a value
      or a raised exception) and the state it leaves behind: what a method
      has mutated before it raises stays mutated.
    - [self._mCtrlPts] and [self._mWeights] hold whatever the setters put
      there (a flat list of points, or the nested rows the [ctrlptsw] setter
      assigns), so their elements are dynamically typed values ([pyval]).
    - The module [nurbs.utilities] is not part of the sources at hand.  The
      class [Utilities] is its interface; the general theorems hold for every
      implementation of it, and [spec_utilities] is an implementation
      written from the specification's description of the helpers. *)

From Stdlib Require Import QArith Qcanon Qround Ascii.
From stdpp Require Import base numbers list strings.

Local Open Scope Z_scope.

(** ** Python values, exceptions and outcomes *)

(** Error kinds of [nurbs.utilities], as the specification names them. *)
Inductive uexn :=
| InvalidInput
| DivisionByZero
| DomainError
| DegenerateNormal.

(** Exceptions a method of [Surface] can end with.  [UtilitiesError e] is an
    exception that propagates out of a call into [nurbs.utilities]; the other
    constructors are raised by statements of [Surface.py] itself. *)
Inductive exn :=
| ValueError (msg : string)
| IndexError
| TypeError
| ZeroDivisionError
| UtilitiesError (e : uexn).

Inductive result (E A : Type) :=
| Ok (a : A)
| Err (e : E).
Arguments Ok {E A} a.
Arguments Err {E A} e.

Definition res := result exn.
Definition ures := result uexn.

#[export] Instance res_ret : MRet res := λ A a, Ok a.
#[export] Instance res_bind : MBind res := λ A B f m,
  match m with
  | Ok a => f a
  | Err e => Err e
  end.
#[export] Instance ures_ret : MRet ures := λ A a, Ok a.
#[export] Instance ures_bind : MBind ures := λ A B f m,
  match m with
  | Ok a => f a
  | Err e => Err e
  end.

(** A call into [nurbs.utilities] from [Surface.py]. *)
Definition call {A} (r : ures A) : res A :=
  match r with
  | Ok a => Ok a
  | Err e => Err (UtilitiesError e)
  end.

(** A float or a (nested) list: what an element of a Python list can be. *)
#[warnings="-register-all"]
Inductive pyval :=
| PFloat (x : Qc)
| PList (xs : list pyval).

(** [seq[i]] on a Python list. *)
Definition py_index {A} (l : list A) (i : Z) : res A :=
  let n := Z.of_nat (length l) in
  let j := if decide (i < 0) then n + i else i in
  if decide (j < 0) then Err IndexError
  else match l !! Z.to_nat j with
       | Some x => Ok x
       | None => Err IndexError
       end.

(** [v[i]] on a value: a float is not subscriptable. *)
Definition py_getitem (v : pyval) (i : Z) : res pyval :=
  match v with
  | PList xs => py_index xs i
  | PFloat _ => Err TypeError
  end.

(** [a * b] where only float operands occur in well-typed states: a list
    operand (times a float or a list) is a [TypeError]. *)
Definition py_mul (a b : pyval) : res Qc :=
  match a, b with
  | PFloat x, PFloat y => Ok (x * y)%Qc
  | _, _ => Err TypeError
  end.

(** [a / b] on floats. *)
Definition py_div (a b : Qc) : res Qc :=
  if decide (b = 0%Qc) then Err ZeroDivisionError else Ok (a / b)%Qc.

(** [range(a, b)]. *)
Definition range (a b : Z) : list Z := seqZ a (b - a).

(** [for x in xs: st = body(x, st)], leaving at the first exception. *)
Fixpoint for_loop {E A S} (xs : list A) (body : A → S → result E S) (st : S)
    : result E S :=
  match xs with
  | [] => Ok st
  | x :: xs' =>
      match body x st with
      | Ok st' => for_loop xs' body st'
      | Err e => Err e
      end
  end.

(** A 3D point or vector computed by the class: a list the code builds with
    exactly three float entries. *)
Definition vec3 : Type := Qc * Qc * Qc.

Definition zero3 : vec3 := (0%Qc, 0%Qc, 0%Qc).

(** A stored control point made of float coordinates. *)
Definition point_val (coord : list Qc) : pyval := PList (PFloat <$> coord).

(** ** The interface of [nurbs.utilities] *)

Class Utilities := {
  (** [normalize_knotvector(knotvector)] *)
  normalize_knotvector : list Qc → ures (list Qc);
  (** [frange(x, y, step)]: the values the generator yields. *)
  frange : Qc → Qc → Qc → list Qc;
  (** [find_span(degree, knot_vector, num_ctrlpts, knot)] *)
  find_span : Z → list Qc → Z → Qc → ures Z;
  (** [basis_functions(degree, knot_vector, span, knot)] *)
  basis_functions : Z → list Qc → Z → Qc → ures (list Qc);
  (** [basis_functions_ders(degree, knot_vector, span, knot, order)] *)
  basis_functions_ders : Z → list Qc → Z → Qc → Z → ures (list (list Qc));
  (** [check_uv(u, v, test_normal, delta)]; [delta] is [None] where the
      caller leaves the helper's default. *)
  check_uv : Qc → Qc → bool → option Qc → ures unit;
  (** [cross_vector(vect1, vect2)] *)
  cross_vector : vec3 → vec3 → ures vec3;
  (** [normalize_vector(vect)] *)
  normalize_vector : vec3 → ures vec3;
}.

(** ** The state of a [Surface] object *)

Record Surface := mkSurface {
  _mDegreeU : Z;
  _mDegreeV : Z;
  _mKnotVectorU : list Qc;
  _mKnotVectorV : list Qc;
  _mCtrlPts : list pyval;
  _mCtrlPts2D : list (list pyval);
  _mCtrlPts_sizeU : Z;
  _mCtrlPts_sizeV : Z;
  _mWeights : list pyval;
  _mDelta : Qc;
  _mSurfPts : list vec3;
}.

(** [Surface.__init__] *)
Definition init : Surface := {|
  _mDegreeU := 0;
  _mDegreeV := 0;
  _mKnotVectorU := [];
  _mKnotVectorV := [];
  _mCtrlPts := [];
  _mCtrlPts2D := [];
  _mCtrlPts_sizeU := 0;
  _mCtrlPts_sizeV := 0;
  _mWeights := [];
  _mDelta := Q2Qc (1 # 100);
  _mSurfPts := [];
|}.

(** [self.<field> = x], one definition per field. *)
Definition with_DegreeU (x : Z) (s : Surface) : Surface :=
  mkSurface x (_mDegreeV s) (_mKnotVectorU s) (_mKnotVectorV s) (_mCtrlPts s)
    (_mCtrlPts2D s) (_mCtrlPts_sizeU s) (_mCtrlPts_sizeV s) (_mWeights s)
    (_mDelta s) (_mSurfPts s).
Definition with_DegreeV (x : Z) (s : Surface) : Surface :=
  mkSurface (_mDegreeU s) x (_mKnotVectorU s) (_mKnotVectorV s) (_mCtrlPts s)
    (_mCtrlPts2D s) (_mCtrlPts_sizeU s) (_mCtrlPts_sizeV s) (_mWeights s)
    (_mDelta s) (_mSurfPts s).
Definition with_KnotVectorU (x : list Qc) (s : Surface) : Surface :=
  mkSurface (_mDegreeU s) (_mDegreeV s) x (_mKnotVectorV s) (_mCtrlPts s)
    (_mCtrlPts2D s) (_mCtrlPts_sizeU s) (_mCtrlPts_sizeV s) (_mWeights s)
    (_mDelta s) (_mSurfPts s).
Definition with_KnotVectorV (x : list Qc) (s : Surface) : Surface :=
  mkSurface (_mDegreeU s) (_mDegreeV s) (_mKnotVectorU s) x (_mCtrlPts s)
    (_mCtrlPts2D s) (_mCtrlPts_sizeU s) (_mCtrlPts_sizeV s) (_mWeights s)
    (_mDelta s) (_mSurfPts s).
Definition with_CtrlPts (x : list pyval) (s : Surface) : Surface :=
  mkSurface (_mDegreeU s) (_mDegreeV s) (_mKnotVectorU s) (_mKnotVectorV s) x
    (_mCtrlPts2D s) (_mCtrlPts_sizeU s) (_mCtrlPts_sizeV s) (_mWeights s)
    (_mDelta s) (_mSurfPts s).
Definition with_CtrlPts2D (x : list (list pyval)) (s : Surface) : Surface :=
  mkSurface (_mDegreeU s) (_mDegreeV s) (_mKnotVectorU s) (_mKnotVectorV s)
    (_mCtrlPts s) x (_mCtrlPts_sizeU s) (_mCtrlPts_sizeV s) (_mWeights s)
    (_mDelta s) (_mSurfPts s).
Definition with_sizeU (x : Z) (s : Surface) : Surface :=
  mkSurface (_mDegreeU s) (_mDegreeV s) (_mKnotVectorU s) (_mKnotVectorV s)
    (_mCtrlPts s) (_mCtrlPts2D s) x (_mCtrlPts_sizeV s) (_mWeights s)
    (_mDelta s) (_mSurfPts s).
Definition with_sizeV (x : Z) (s : Surface) : Surface :=
  mkSurface (_mDegreeU s) (_mDegreeV s) (_mKnotVectorU s) (_mKnotVectorV s)
    (_mCtrlPts s) (_mCtrlPts2D s) (_mCtrlPts_sizeU s) x (_mWeights s)
    (_mDelta s) (_mSurfPts s).
Definition with_Weights (x : list pyval) (s : Surface) : Surface :=
  mkSurface (_mDegreeU s) (_mDegreeV s) (_mKnotVectorU s) (_mKnotVectorV s)
    (_mCtrlPts s) (_mCtrlPts2D s) (_mCtrlPts_sizeU s) (_mCtrlPts_sizeV s) x
    (_mDelta s) (_mSurfPts s).
Definition with_Delta (x : Qc) (s : Surface) : Surface :=
  mkSurface (_mDegreeU s) (_mDegreeV s) (_mKnotVectorU s) (_mKnotVectorV s)
    (_mCtrlPts s) (_mCtrlPts2D s) (_mCtrlPts_sizeU s) (_mCtrlPts_sizeV s)
    (_mWeights s) x (_mSurfPts s).
Definition with_SurfPts (x : list vec3) (s : Surface) : Surface :=
  mkSurface (_mDegreeU s) (_mDegreeV s) (_mKnotVectorU s) (_mKnotVectorV s)
    (_mCtrlPts s) (_mCtrlPts2D s) (_mCtrlPts_sizeU s) (_mCtrlPts_sizeV s)
    (_mWeights s) (_mDelta s) x.

(** A method body: it runs on the object's state, ends with a value or an
    exception, and leaves a state behind. *)
Definition M (A : Type) : Type := Surface → res A * Surface.

#[export] Instance M_ret : MRet M := λ A a s, (Ok a, s).
#[export] Instance M_bind : MBind M := λ A B f m s,
  match m s with
  | (Ok a, s') => f a s'
  | (Err e, s') => (Err e, s')
  end.

(** [raise e] *)
Definition raise {A} (e : exn) : M A := λ s, (Err e, s).
(** Read [self]. *)
Definition get : M Surface := λ s, (Ok s, s).
(** Assign fields of [self]. *)
Definition modify (f : Surface → Surface) : M unit := λ s, (Ok tt, f s).
(** A computation that does not touch [self]. *)
Definition lift {A} (r : res A) : M A := λ s, (r, s).

(** [for x in xs: body(x)] in a method. *)
Fixpoint for_each {A} (xs : list A) (body : A → M unit) : M unit :=
  match xs with
  | [] => mret tt
  | x :: xs' => body x ;; for_each xs' body
  end.

(** A method that only reads [self]. *)
Definition reads {A} (f : Surface → res A) : M A := λ s, (f s, s).

(** [for x in xs: acc = body(x, acc)] in a method, [acc] a local variable. *)
Fixpoint for_fold {A S} (xs : list A) (body : A → S → M S) (acc : S) : M S :=
  match xs with
  | [] => mret acc
  | x :: xs' => acc' ← body x acc; for_fold xs' body acc'
  end.

(** [len(l)] *)
Definition len {A} (l : list A) : Z := Z.of_nat (length l).

(** [l * n] on a list: [n] copies of [l], none when [n] is not positive. *)
Definition py_repeat {A} (l : list A) (n : Z) : list A :=
  concat (replicate (Z.to_nat n) l).

(** [l[i] = x] on a Python list. *)
Definition py_setitem {A} (l : list A) (i : Z) (x : A) : res (list A) :=
  let n := len l in
  let j := if decide (i < 0) then n + i else i in
  if decide (0 ≤ j < n) then Ok (<[Z.to_nat j := x]> l) else Err IndexError.

(** [itertools.product(xs, ys)]: every pair, the first component varying
    slowest. *)
Definition itertools_product {A B} (xs : list A) (ys : list B) : list (A * B) :=
  x ← xs; y ← ys; [(x, y)].

(** ** The methods of [Surface] *)

Definition msg_degree : string := "Degree cannot be less than zero.".
Definition msg_ctrlpts_v : string :=
  "Number of control points in v-direction should be at least degree + 1.".
Definition msg_ctrlpts_u : string :=
  "Number of control points in u-direction should be at least degree + 1.".
Definition msg_3d : string := "Please input 3D coordinates".
Definition msg_weights : string :=
  "Size of the weight vector should be equal to size of control points.".
Definition msg_delta : string :=
  "Surface calculation delta should be between 0.0 and 1.0.".
Definition msg_not_set : string :=
  "Some required parameters for calculations are not set.".

(** The exception of [_check_variables]: the specification's
    [PreconditionNotMet]. *)
Definition PreconditionNotMet : exn := ValueError msg_not_set.

Section surface.
Context {U : Utilities}.

(** [_reset_surface]: [del self._mSurfPts[:]] when the list is not empty. *)
Definition _reset_surface : M unit :=
  s ← get;
  match _mSurfPts s with
  | [] => mret tt
  | _ :: _ => modify (with_SurfPts [])
  end.

(** [_reset_ctrlpts] *)
Definition _reset_ctrlpts : M unit :=
  s ← get;
  match _mCtrlPts s with
  | [] => mret tt
  | _ :: _ =>
      modify (with_CtrlPts []);;
      modify (with_CtrlPts2D []);;
      modify (with_Weights []);;
      modify (with_sizeU 0);;
      modify (with_sizeV 0)
  end.

(** [_check_variables] *)
Definition _check_variables (s : Surface) : res unit :=
  let works := true in
  let works :=
    if decide (_mDegreeU s = 0 ∨ _mDegreeV s = 0) then false else works in
  let works := match _mCtrlPts s with [] => false | _ :: _ => works end in
  let works :=
    match _mKnotVectorU s, _mKnotVectorV s with
    | _ :: _, _ :: _ => works
    | _, _ => false
    end in
  if works then Ok tt else Err PreconditionNotMet.

(** The getters. *)
Definition degree_u (s : Surface) : Z := _mDegreeU s.
Definition degree_v (s : Surface) : Z := _mDegreeV s.
Definition ctrlpts (s : Surface) : list pyval := _mCtrlPts s.
Definition ctrlpts2d (s : Surface) : list (list pyval) := _mCtrlPts2D s.
Definition weights (s : Surface) : list pyval := _mWeights s.
Definition knotvector_u (s : Surface) : list Qc := _mKnotVectorU s.
Definition knotvector_v (s : Surface) : list Qc := _mKnotVectorV s.
Definition delta (s : Surface) : Qc := _mDelta s.
Definition surfpts (s : Surface) : list vec3 := _mSurfPts s.

(** [degree_u.setter] *)
Definition degree_u_setter (value : Z) : M unit :=
  if decide (value < 0) then raise (ValueError msg_degree)
  else
    _reset_surface;;
    modify (with_DegreeU value).

(** [degree_v.setter] *)
Definition degree_v_setter (value : Z) : M unit :=
  if decide (value < 0) then raise (ValueError msg_degree)
  else
    _reset_surface;;
    modify (with_DegreeV value).

(** Lines 93 to 99 of the [ctrlpts] setter: the coordinates of one row are
    checked and appended to [_mCtrlPts] one after the other.  The entries of
    a coordinate are real numbers, on which [float(c)] returns. *)
Definition append_coords (u_coords : list (list Qc)) : M unit :=
  for_each u_coords (λ coord,
    if decide (len coord < 0 ∨ len coord > 3)
    then raise (ValueError msg_3d)
    else
      let coord_float := point_val coord in
      modify (λ s, with_CtrlPts (_mCtrlPts s ++ [coord_float]) s)).

(** Lines 89 to 99 of the [ctrlpts] setter: the loop over the rows, with the
    local counter [u_cnt], which it returns. *)
Definition append_rows (value : list (list (list Qc))) (u_cnt : Z) : M Z :=
  for_fold value (λ u_coords u_cnt,
    s ← get;
    if decide (len u_coords < _mDegreeU s + 1)
    then raise (ValueError msg_ctrlpts_u)
    else
      let u_cnt := u_cnt + 1 in
      append_coords u_coords;;
      mret u_cnt) u_cnt.

(** Line 107 of the [ctrlpts] setter: one round of the loop over [j]. *)
Definition build_row_step (i : Z) (j : Z) (ctrlpts_v : list pyval)
    : M (list pyval) :=
  s ← get;
  p ← lift (py_index (_mCtrlPts s) (j + i * _mCtrlPts_sizeV s));
  mret (ctrlpts_v ++ [p]).

(** Lines 105 to 108 of the [ctrlpts] setter: one round of the loop over
    [i]. *)
Definition build_rows_step (i : Z) : M unit :=
  s ← get;
  ctrlpts_v ← for_fold (range 0 (_mCtrlPts_sizeV s)) (build_row_step i) [];
  modify (λ s, with_CtrlPts2D (_mCtrlPts2D s ++ [ctrlpts_v]) s).

(** Lines 104 to 108 of the [ctrlpts] setter: the 2D list is cut from the
    flat list by the stored sizes. *)
Definition build_ctrlpts2d : M unit :=
  s ← get;
  for_each (range 0 (_mCtrlPts_sizeU s)) build_rows_step.

(** [ctrlpts.setter]; [value] is a list of rows, a row a list of
    coordinates, a coordinate a list of numbers. *)
Definition ctrlpts_setter (value : list (list (list Qc))) : M unit :=
  _reset_surface;;
  _reset_ctrlpts;;
  s ← get;
  if decide (len value < _mDegreeV s + 1) then raise (ValueError msg_ctrlpts_v)
  else
    u_cnt ← append_rows value 0;
    modify (with_sizeU u_cnt);;
    modify (with_sizeV (len value));;
    build_ctrlpts2d;;
    modify (λ s, with_Weights
      (py_repeat (py_repeat [PFloat 1%Qc] (_mCtrlPts_sizeU s))
         (_mCtrlPts_sizeV s)) s).

(** [weights.setter] *)
Definition weights_setter (value : list Qc) : M unit :=
  s ← get;
  if decide (len value ≠ _mCtrlPts_sizeU s * _mCtrlPts_sizeV s)
  then raise (ValueError msg_weights)
  else
    _reset_surface;;
    let value_float := PFloat <$> value in
    modify (with_Weights value_float).

(** [knotvector_u.setter] *)
Definition knotvector_u_setter (value : list Qc) : M unit :=
  _reset_surface;;
  kv ← lift (call (normalize_knotvector value));
  modify (with_KnotVectorU kv).

(** [knotvector_v.setter] *)
Definition knotvector_v_setter (value : list Qc) : M unit :=
  _reset_surface;;
  kv ← lift (call (normalize_knotvector value));
  modify (with_KnotVectorV kv).

(** [delta.setter].  [value] is a real number: for it the two comparisons
    of line 190 are the negation of [0 < value < 1]. *)
Definition delta_setter (value : Qc) : M unit :=
  if decide (value ≤ 0 ∨ 1 ≤ value)%Qc then raise (ValueError msg_delta)
  else
    _reset_surface;;
    modify (with_Delta value).

(** The [ctrlptsw] getter: one entry per pair of [itertools.product]. *)
Definition ctrlptsw (s : Surface) : res (list (Qc * Qc * Qc * pyval)) :=
  for_loop (itertools_product (_mCtrlPts s) (_mWeights s)) (λ '(c, w) ret_list,
    c0 ← py_getitem c 0; x ← py_mul c0 w;
    c1 ← py_getitem c 1; y ← py_mul c1 w;
    c2 ← py_getitem c 2; z ← py_mul c2 w;
    mret (ret_list ++ [(x, y, z, w)])) [].

(** [ctrlptsw.setter]; [value] is a list of rows of homogeneous
    coordinates.  The rows are assigned to [_mCtrlPts] and [_mWeights] as
    they are, nested. *)
Definition ctrlptsw_setter (value : list (list (list Qc))) : M unit :=
  '(ctrlpts_uv, weights_uv) ← lift (for_loop value (λ udir '(ctrlpts_uv, weights_uv),
    '(ctrlpts_u, weights_u) ← for_loop udir (λ c '(ctrlpts_u, weights_u),
      c0 ← py_index c 0; c3 ← py_index c 3; x ← py_div c0 c3;
      c1 ← py_index c 1; c3 ← py_index c 3; y ← py_div c1 c3;
      c2 ← py_index c 2; c3 ← py_index c 3; z ← py_div c2 c3;
      let temp_list := point_val [x; y; z] in
      c3 ← py_index c 3;
      mret (ctrlpts_u ++ [temp_list], weights_u ++ [PFloat c3]))
      (([], []) : list pyval * list pyval);
    mret (ctrlpts_uv ++ [PList ctrlpts_u], weights_uv ++ [PList weights_u]))
    (([], []) : list pyval * list pyval));
  modify (with_CtrlPts ctrlpts_uv);;
  modify (with_Weights weights_uv).

(** [temp[c] += x] on a three-entry list, [c] one of 0, 1, 2. *)
Definition iadd3 (c : nat) (t : vec3) (x : Qc) : vec3 :=
  let '(t0, t1, t2) := t in
  match c with
  | 0%nat => ((t0 + x)%Qc, t1, t2)
  | 1%nat => (t0, (t1 + x)%Qc, t2)
  | _ => (t0, t1, (t2 + x)%Qc)
  end.

(** [t[c]] on a three-entry list, [c] one of 0, 1, 2. *)
Definition get3 (c : nat) (t : vec3) : Qc :=
  let '(t0, t1, t2) := t in
  match c with
  | 0%nat => t0
  | 1%nat => t1
  | _ => t2
  end.

(** [b * self._mCtrlPts2D[i][j][c]] *)
Definition ctrl_term (ctrl2d : list (list pyval)) (b : Qc) (i j : Z) (c : nat)
    : res Qc :=
  row ← py_index ctrl2d i;
  e ← py_index row j;
  x ← py_getitem e (Z.of_nat c);
  py_mul (PFloat b) x.

(** Lines 362 to 364 of [evaluate]: one round of the loop over [k]. *)
Definition temp_step (ctrl2d : list (list pyval)) (basis_u : list Qc)
    (idx_u idx_v : Z) (k : Z) (temp : vec3) : res vec3 :=
  b ← py_index basis_u k; x ← ctrl_term ctrl2d b (idx_u + k) idx_v 0;
  let temp := iadd3 0 temp x in
  b ← py_index basis_u k; x ← ctrl_term ctrl2d b (idx_u + k) idx_v 1;
  let temp := iadd3 1 temp x in
  b ← py_index basis_u k; x ← ctrl_term ctrl2d b (idx_u + k) idx_v 2;
  let temp := iadd3 2 temp x in
  mret temp.

(** Lines 359 and 361 to 364 of [evaluate]: the loop over [k]. *)
Definition temp_sum (ctrl2d : list (list pyval)) (degU : Z)
    (basis_u : list Qc) (idx_u idx_v : Z) : res vec3 :=
  for_loop (range 0 (degU + 1)) (temp_step ctrl2d basis_u idx_u idx_v) zero3.

(** Lines 359 to 367 of [evaluate]: one round of the loop over [l]. *)
Definition surfpt_step (ctrl2d : list (list pyval)) (degU degV : Z)
    (basis_u basis_v : list Qc) (span_u span_v : Z) (l : Z) (surfpt : vec3)
    : res vec3 :=
  let idx_u := span_u - degU in
  let idx_v := span_v - degV + l in
  temp ← temp_sum ctrl2d degU basis_u idx_u idx_v;
  b ← py_index basis_v l;
  let surfpt := iadd3 0 surfpt (b * get3 0 temp)%Qc in
  b ← py_index basis_v l;
  let surfpt := iadd3 1 surfpt (b * get3 1 temp)%Qc in
  b ← py_index basis_v l;
  let surfpt := iadd3 2 surfpt (b * get3 2 temp)%Qc in
  mret surfpt.

(** Lines 356 to 367 of [evaluate]: the sum over the control-point window of
    one sample. *)
Definition surface_point_sum (ctrl2d : list (list pyval)) (degU degV : Z)
    (basis_u basis_v : list Qc) (span_u span_v : Z) : res vec3 :=
  for_loop (range 0 (degV + 1))
    (surfpt_step ctrl2d degU degV basis_u basis_v span_u span_v) zero3.

(** [self._mSurfPts.append(surfpt)] *)
Definition append_surfpt (surfpt : vec3) : M unit :=
  modify (λ s, with_SurfPts (_mSurfPts s ++ [surfpt]) s).

(** [evaluate] *)
Definition evaluate : M unit :=
  reads _check_variables;;
  _reset_surface;;
  s ← get;
  for_each (frange 0%Qc 1%Qc (_mDelta s)) (λ v,
    s ← get;
    span_v ← lift (call (find_span (_mDegreeV s) (_mKnotVectorV s)
                           (_mCtrlPts_sizeV s) v));
    basis_v ← lift (call (basis_functions (_mDegreeV s) (_mKnotVectorV s)
                            span_v v));
    for_each (frange 0%Qc 1%Qc (_mDelta s)) (λ u,
      s ← get;
      span_u ← lift (call (find_span (_mDegreeU s) (_mKnotVectorU s)
                             (_mCtrlPts_sizeU s) u));
      basis_u ← lift (call (basis_functions (_mDegreeU s) (_mKnotVectorU s)
                              span_u u));
      surfpt ← lift (surface_point_sum (_mCtrlPts2D s) (_mDegreeU s)
                       (_mDegreeV s) basis_u basis_v span_u span_v);
      append_surfpt surfpt)).

(** The point [evaluate] computes for the sample [(u, v)]: lines 351 to 367
    at one pair of parameters. *)
Definition surface_point (s : Surface) (u v : Qc) : res vec3 :=
  span_v ← call (find_span (_mDegreeV s) (_mKnotVectorV s)
                   (_mCtrlPts_sizeV s) v);
  basis_v ← call (basis_functions (_mDegreeV s) (_mKnotVectorV s) span_v v);
  span_u ← call (find_span (_mDegreeU s) (_mKnotVectorU s)
                   (_mCtrlPts_sizeU s) u);
  basis_u ← call (basis_functions (_mDegreeU s) (_mKnotVectorU s) span_u u);
  surface_point_sum (_mCtrlPts2D s) (_mDegreeU s) (_mDegreeV s)
    basis_u basis_v span_u span_v.

(** An entry of the local [ctrlptsw] of [evaluate_rational]: three products
    and the weight as stored. *)
Definition hpoint : Type := Qc * Qc * Qc * pyval.

(** Lines 385 to 388 of [evaluate_rational]: the weighted control point
    number [cnt]. *)
Definition weighted_point (s : Surface) (cnt : Z) : res hpoint :=
  p ← py_index (_mCtrlPts s) cnt; p0 ← py_getitem p 0;
  w ← py_index (_mWeights s) cnt; x ← py_mul p0 w;
  p ← py_index (_mCtrlPts s) cnt; p1 ← py_getitem p 1;
  w ← py_index (_mWeights s) cnt; y ← py_mul p1 w;
  p ← py_index (_mCtrlPts s) cnt; p2 ← py_getitem p 2;
  w ← py_index (_mWeights s) cnt; z ← py_mul p2 w;
  w ← py_index (_mWeights s) cnt;
  mret (x, y, z, w).

(** Lines 385 to 391: one round of the loop over [c_v], on the locals
    [ctrlptsw_v] and [cnt]. *)
Definition weighted_row_step (s : Surface) (c_v : Z)
    (st : list hpoint * Z) : res (list hpoint * Z) :=
  let '(ctrlptsw_v, cnt) := st in
  temp ← weighted_point s cnt;
  mret (ctrlptsw_v ++ [temp], cnt + 1).

(** Lines 382 to 393: one round of the loop over [c_u], on the locals
    [ctrlptsw] and [cnt]. *)
Definition weighted_rows_step (s : Surface) (c_u : Z)
    (st : list (list hpoint) * Z) : res (list (list hpoint) * Z) :=
  let '(ctrlptsw, cnt) := st in
  '(ctrlptsw_v, cnt) ← for_loop (range 0 (_mCtrlPts_sizeV s))
                          (weighted_row_step s) ([], cnt);
  mret (ctrlptsw ++ [ctrlptsw_v], cnt).

(** Lines 378 to 393 of [evaluate_rational].  The two [while] loops count
    [c_u] and [c_v] up from 0 by 1, so they run over [range(0, size)]. *)
Definition weighted_ctrlpts (s : Surface) : res (list (list hpoint)) :=
  '(ctrlptsw, cnt) ← for_loop (range 0 (_mCtrlPts_sizeU s))
                        (weighted_rows_step s) ([], 0);
  mret ctrlptsw.

(** [b * ctrlptsw[i][j][c]], [c] one of 0, 1, 2, 3. *)
Definition ctrlw_term (ctrlptsw : list (list hpoint)) (b : Qc) (i j : Z)
    (c : nat) : res Qc :=
  row ← py_index ctrlptsw i;
  '(x, y, z, w) ← py_index row j;
  match c with
  | 0%nat => Ok (b * x)%Qc
  | 1%nat => Ok (b * y)%Qc
  | 2%nat => Ok (b * z)%Qc
  | _ => py_mul (PFloat b) w
  end.

(** The four accumulators of [evaluate_rational]. *)
Definition vec4 : Type := Qc * Qc * Qc * Qc.
Definition zero4 : vec4 := (0%Qc, 0%Qc, 0%Qc, 0%Qc).

Definition iadd4 (c : nat) (t : vec4) (x : Qc) : vec4 :=
  let '(t0, t1, t2, t3) := t in
  match c with
  | 0%nat => ((t0 + x)%Qc, t1, t2, t3)
  | 1%nat => (t0, (t1 + x)%Qc, t2, t3)
  | 2%nat => (t0, t1, (t2 + x)%Qc, t3)
  | _ => (t0, t1, t2, (t3 + x)%Qc)
  end.

Definition get4 (c : nat) (t : vec4) : Qc :=
  let '(t0, t1, t2, t3) := t in
  match c with
  | 0%nat => t0
  | 1%nat => t1
  | 2%nat => t2
  | _ => t3
  end.

(** Lines 408 to 411 of [evaluate_rational]: one round of the loop over
    [k]. *)
Definition tempw_step (ctrlptsw : list (list hpoint)) (basis_u : list Qc)
    (idx_u idx_v : Z) (k : Z) (temp : vec4) : res vec4 :=
  b ← py_index basis_u k; x ← ctrlw_term ctrlptsw b (idx_u + k) idx_v 0;
  let temp := iadd4 0 temp x in
  b ← py_index basis_u k; x ← ctrlw_term ctrlptsw b (idx_u + k) idx_v 1;
  let temp := iadd4 1 temp x in
  b ← py_index basis_u k; x ← ctrlw_term ctrlptsw b (idx_u + k) idx_v 2;
  let temp := iadd4 2 temp x in
  b ← py_index basis_u k; x ← ctrlw_term ctrlptsw b (idx_u + k) idx_v 3;
  let temp := iadd4 3 temp x in
  mret temp.

(** Lines 405 and 407 to 411 of [evaluate_rational]: the loop over [k]. *)
Definition tempw_sum (ctrlptsw : list (list hpoint)) (degU : Z)
    (basis_u : list Qc) (idx_u idx_v : Z) : res vec4 :=
  for_loop (range 0 (degU + 1)) (tempw_step ctrlptsw basis_u idx_u idx_v)
    zero4.

(** Lines 405 to 415 of [evaluate_rational]: one round of the loop over
    [l]. *)
Definition surfptw_step (ctrlptsw : list (list hpoint)) (degU degV : Z)
    (basis_u basis_v : list Qc) (span_u span_v : Z) (l : Z) (surfptw : vec4)
    : res vec4 :=
  let idx_u := span_u - degU in
  let idx_v := span_v - degV + l in
  temp ← tempw_sum ctrlptsw degU basis_u idx_u idx_v;
  b ← py_index basis_v l;
  let surfptw := iadd4 0 surfptw (b * get4 0 temp)%Qc in
  b ← py_index basis_v l;
  let surfptw := iadd4 1 surfptw (b * get4 1 temp)%Qc in
  b ← py_index basis_v l;
  let surfptw := iadd4 2 surfptw (b * get4 2 temp)%Qc in
  b ← py_index basis_v l;
  let surfptw := iadd4 3 surfptw (b * get4 3 temp)%Qc in
  mret surfptw.

(** Lines 402 to 415 of [evaluate_rational]. *)
Definition surface_pointw_sum (ctrlptsw : list (list hpoint)) (degU degV : Z)
    (basis_u basis_v : list Qc) (span_u span_v : Z) : res vec4 :=
  for_loop (range 0 (degV + 1))
    (surfptw_step ctrlptsw degU degV basis_u basis_v span_u span_v) zero4.

(** Line 417 of [evaluate_rational]: the perspective division. *)
Definition project (surfptw : vec4) : res vec3 :=
  x ← py_div (get4 0 surfptw) (get4 3 surfptw);
  y ← py_div (get4 1 surfptw) (get4 3 surfptw);
  z ← py_div (get4 2 surfptw) (get4 3 surfptw);
  mret (x, y, z).

(** [evaluate_rational] *)
Definition evaluate_rational : M unit :=
  reads _check_variables;;
  _reset_surface;;
  ctrlptsw ← reads weighted_ctrlpts;
  s ← get;
  for_each (frange 0%Qc 1%Qc (_mDelta s)) (λ v,
    s ← get;
    span_v ← lift (call (find_span (_mDegreeV s) (_mKnotVectorV s)
                           (_mCtrlPts_sizeV s) v));
    basis_v ← lift (call (basis_functions (_mDegreeV s) (_mKnotVectorV s)
                            span_v v));
    for_each (frange 0%Qc 1%Qc (_mDelta s)) (λ u,
      s ← get;
      span_u ← lift (call (find_span (_mDegreeU s) (_mKnotVectorU s)
                             (_mCtrlPts_sizeU s) u));
      basis_u ← lift (call (basis_functions (_mDegreeU s) (_mKnotVectorU s)
                              span_u u));
      surfptw ← lift (surface_pointw_sum ctrlptsw (_mDegreeU s) (_mDegreeV s)
                        basis_u basis_v span_u span_v);
      surfpt ← lift (project surfptw);
      append_surfpt surfpt)).

(** [SKL[k][l] = x] *)
Definition setitem2 {A} (t : list (list A)) (k l : Z) (x : A)
    : res (list (list A)) :=
  row ← py_index t k;
  row' ← py_setitem row l x;
  py_setitem t k row'.

(** [temp[s][c] += bfunsders_u[k][r] * self._mCtrlPts2D[cu][cv][c]] *)
Definition ders_u_step (ctrl2d : list (list pyval))
    (bfunsders_u : list (list Qc)) (k r s_ cu cv : Z) (c : nat)
    (temp : list vec3) : res (list vec3) :=
  t ← py_index temp s_;
  bk ← py_index bfunsders_u k;
  b ← py_index bk r;
  x ← ctrl_term ctrl2d b cu cv c;
  py_setitem temp s_ (iadd3 c t x).

(** [SKL[k][l][c] += bfunsders_v[l][s] * temp[s][c]] *)
Definition ders_v_step (bfunsders_v : list (list Qc)) (temp : list vec3)
    (k l s_ : Z) (c : nat) (SKL : list (list vec3)) : res (list (list vec3)) :=
  row ← py_index SKL k;
  e ← py_index row l;
  bl ← py_index bfunsders_v l;
  b ← py_index bl s_;
  t ← py_index temp s_;
  setitem2 SKL k l (iadd3 c e (b * get3 c t)%Qc).

(** Lines 443 to 447 of [derivatives]: one round of the loop over [r]. *)
Definition ders_temp_step (ctrl2d : list (list pyval))
    (bfunsders_u : list (list Qc)) (degU degV span_u span_v : Z) (k s_ : Z)
    (r : Z) (temp : list vec3) : res (list vec3) :=
  let cu := span_u - degU + r in
  let cv := span_v - degV + s_ in
  temp ← ders_u_step ctrl2d bfunsders_u k r s_ cu cv 0 temp;
  temp ← ders_u_step ctrl2d bfunsders_u k r s_ cu cv 1 temp;
  ders_u_step ctrl2d bfunsders_u k r s_ cu cv 2 temp.

(** Lines 441 to 447 of [derivatives]: one round of the first loop over
    [s]. *)
Definition ders_temp_row (ctrl2d : list (list pyval))
    (bfunsders_u : list (list Qc)) (degU degV span_u span_v : Z) (k : Z)
    (s_ : Z) (temp : list vec3) : res (list vec3) :=
  temp ← py_setitem temp s_ zero3;
  for_loop (range 0 (degU + 1))
    (ders_temp_step ctrl2d bfunsders_u degU degV span_u span_v k s_) temp.

(** Lines 451 to 453 of [derivatives]: one round of the second loop over
    [s]. *)
Definition ders_skl_step (bfunsders_v : list (list Qc)) (temp : list vec3)
    (k l : Z) (s_ : Z) (SKL : list (list vec3)) : res (list (list vec3)) :=
  SKL ← ders_v_step bfunsders_v temp k l s_ 0 SKL;
  SKL ← ders_v_step bfunsders_v temp k l s_ 1 SKL;
  ders_v_step bfunsders_v temp k l s_ 2 SKL.

(** Lines 439 to 453 of [derivatives]: one round of the loop over [k].  The
    local [temp] starts as a list of [degree_v + 1] empty lists, each of
    which is assigned [[0.0, 0.0, 0.0]] before it is read; the model starts
    it with those entries. *)
Definition ders_k_step (ctrl2d : list (list pyval))
    (bfunsders_u bfunsders_v : list (list Qc))
    (degU degV span_u span_v order dv : Z) (k : Z) (SKL : list (list vec3))
    : res (list (list vec3)) :=
  let temp := replicate (Z.to_nat (degV + 1)) zero3 in
  temp ← for_loop (range 0 (degV + 1))
            (ders_temp_row ctrl2d bfunsders_u degU degV span_u span_v k) temp;
  let dd := Z.min (order - k) dv in
  for_loop (range 0 (dd + 1)) (λ l SKL,
    for_loop (range 0 (degV + 1)) (ders_skl_step bfunsders_v temp k l) SKL)
    SKL.

(** [derivatives(u, v, order)] *)
Definition derivatives (s : Surface) (u v : Qc) (order : Z)
    : res (list (list vec3)) :=
  _check_variables s;;
  call (check_uv u v false None);;
  let du := Z.min (_mDegreeU s) order in
  let dv := Z.min (_mDegreeV s) order in
  let SKL := replicate (Z.to_nat (du + 1)) (replicate (Z.to_nat (dv + 1)) zero3) in
  span_u ← call (find_span (_mDegreeU s) (_mKnotVectorU s)
                   (_mCtrlPts_sizeU s) u);
  bfunsders_u ← call (basis_functions_ders (_mDegreeU s) (_mKnotVectorU s)
                        span_u u du);
  span_v ← call (find_span (_mDegreeV s) (_mKnotVectorV s)
                   (_mCtrlPts_sizeV s) v);
  bfunsders_v ← call (basis_functions_ders (_mDegreeV s) (_mKnotVectorV s)
                        span_v v dv);
  for_loop (range 0 (du + 1))
    (ders_k_step (_mCtrlPts2D s) bfunsders_u bfunsders_v (_mDegreeU s)
       (_mDegreeV s) span_u span_v order dv) SKL.

(** [tangent(u, v)] *)
Definition tangent (s : Surface) (u v : Qc) : res (vec3 * vec3 * vec3) :=
  skl ← derivatives s u v 1;
  skl0 ← py_index skl 0; point ← py_index skl0 0;
  skl1 ← py_index skl 1; der_u ← py_index skl1 0;
  skl0 ← py_index skl 0; der_v ← py_index skl0 1;
  mret (point, der_u, der_v).

(** [normal(u, v, normalized)] *)
Definition normal (s : Surface) (u v : Qc) (normalized : bool) : res vec3 :=
  call (check_uv u v true (Some (_mDelta s)));;
  skl ← derivatives s u v 1;
  skl0 ← py_index skl 0; point ← py_index skl0 0;
  skl1 ← py_index skl 1; der_u ← py_index skl1 0;
  skl0 ← py_index skl 0; der_v ← py_index skl0 1;
  let vect1 := ((get3 0 der_u - get3 0 point)%Qc,
                (get3 1 der_u - get3 1 point)%Qc,
                (get3 2 der_u - get3 2 point)%Qc) in
  let vect2 := ((get3 0 der_v - get3 0 point)%Qc,
                (get3 1 der_v - get3 1 point)%Qc,
                (get3 2 der_v - get3 2 point)%Qc) in
  normal ← call (cross_vector vect1 vect2);
  if normalized then call (normalize_vector normal) else mret normal.

End surface.

(** ** The helpers of [nurbs.utilities], from the specification

    The definitions of this part follow the specification (component
    KnotMath and the helpers [normal] relies on); the source of the module is
    not available.  An out-of-range access inside a helper is reported as
    [InvalidInput]. *)

(** [l[i]] inside a helper. *)
Definition u_index {A} (l : list A) (i : Z) : ures A :=
  match py_index l i with
  | Ok x => Ok x
  | Err _ => Err InvalidInput
  end.

(** [l[i] = x] inside a helper. *)
Definition u_setitem {A} (l : list A) (i : Z) (x : A) : ures (list A) :=
  match py_setitem l i x with
  | Ok l' => Ok l'
  | Err _ => Err InvalidInput
  end.

(** [a / b] inside a helper. *)
Definition u_div (a b : Qc) : ures Qc :=
  if decide (b = 0%Qc) then Err DivisionByZero else Ok (a / b)%Qc.

(** [t[i][j]] and [t[i][j] = x] on a table inside a helper. *)
Definition u_index2 {A} (t : list (list A)) (i j : Z) : ures A :=
  row ← u_index t i; u_index row j.

Definition u_setitem2 {A} (t : list (list A)) (i j : Z) (x : A)
    : ures (list (list A)) :=
  row ← u_index t i;
  row' ← u_setitem row j x;
  u_setitem t i row'.

(** The entries of a knot vector never decrease. *)
Fixpoint nondecreasing (l : list Qc) : bool :=
  match l with
  | [] => true
  | x :: l' =>
      match l' with
      | [] => true
      | y :: _ => bool_decide (x ≤ y)%Qc && nondecreasing l'
      end
  end.

(** [max(x, y)] *)
Definition Qc_max (x y : Qc) : Qc := if decide (x ≤ y)%Qc then y else x.

(** Modelled from the spec: [normalize(knots)] of KnotMath, the helper
    [normalize_knotvector] of the absent module [nurbs.utilities].  It
    divides every entry by the largest one and fails with [InvalidInput] on
    an empty or decreasing vector; a largest entry of 0 is a division by
    zero. *)
Definition spec_normalize_knotvector (knots : list Qc) : ures (list Qc) :=
  match knots with
  | [] => Err InvalidInput
  | k0 :: rest =>
      if nondecreasing knots then
        let m := foldr Qc_max k0 rest in
        for_loop knots (λ kv out, q ← u_div kv m; mret (out ++ [q])) []
      else Err InvalidInput
  end.

(** Modelled from the spec: the regular grid of the sampling loops, the
    helper [frange] of the absent module [nurbs.utilities]: [x], [x + step],
    ... as long as the value does not exceed [y].  The steps are counted
    beforehand; a step that is not positive (which the [delta] setter
    refuses) would never leave the loop and yields no sample here. *)
Definition spec_frange (x y step : Qc) : list Qc :=
  if decide (0 < step)%Qc then
    let n := Qfloor ((y - x) / step)%Qc in
    (λ i : Z, (x + Qc_of_Z i * step)%Qc) <$> seqZ 0 (n + 1)
  else [].

(** Modelled from the spec: the binary search of [find_span] in the absent
    module [nurbs.utilities]; [width] bounds the number of halvings.  A
    search that cannot narrow further holds no span and fails. *)
Fixpoint find_span_search (width : nat) (knots : list Qc) (u : Qc)
    (low high : Z) : ures Z :=
  match width with
  | O => Err InvalidInput
  | S width' =>
      let mid := (low + high) `div` 2 in
      k_mid ← u_index knots mid;
      k_next ← u_index knots (mid + 1);
      if decide (u < k_mid)%Qc then find_span_search width' knots u low mid
      else if decide (k_next ≤ u)%Qc then find_span_search width' knots u mid high
      else Ok mid
  end.

(** Modelled from the spec: [find_span(degree, knots, num_ctrlpts, u)] of
    KnotMath, a helper of the absent module [nurbs.utilities]: the index [i]
    with [knots[i] ≤ u < knots[i+1]], found by binary search over the spans
    [degree .. num_ctrlpts - 1]; [u = 1] maps to the last span
    [num_ctrlpts - 1]; [u] outside [0, 1] is [InvalidInput]. *)
Definition spec_find_span (degree : Z) (knots : list Qc) (num_ctrlpts : Z)
    (u : Qc) : ures Z :=
  if decide (u < 0 ∨ 1 < u)%Qc then Err InvalidInput
  else if decide (u = 1%Qc) then Ok (num_ctrlpts - 1)
  else find_span_search (S (Z.to_nat (num_ctrlpts - degree))) knots u
         degree num_ctrlpts.

(** Modelled from the spec: [basis_functions(degree, knots, span, u)] of
    KnotMath, a helper of the absent module [nurbs.utilities]: the
    [degree + 1] nonzero basis functions by the triangular Cox-de Boor
    recursion, seeded with 1 and built degree by degree from the left and
    right knot differences. *)
Definition spec_basis_functions (degree : Z) (knots : list Qc) (span : Z)
    (u : Qc) : ures (list Qc) :=
  if decide (degree < 0) then Err InvalidInput
  else
    let zeros := replicate (Z.to_nat (degree + 1)) 0%Qc in
    N ← u_setitem zeros 0 1%Qc;
    '(N, _, _) ← for_loop (range 1 (degree + 1)) (λ j '(N, left_, right_),
      kl ← u_index knots (span + 1 - j);
      left_ ← u_setitem left_ j (u - kl)%Qc;
      kr ← u_index knots (span + j);
      right_ ← u_setitem right_ j (kr - u)%Qc;
      '(N, saved) ← for_loop (range 0 j) (λ r '(N, saved),
        rr ← u_index right_ (r + 1);
        ll ← u_index left_ (j - r);
        nr ← u_index N r;
        temp ← u_div nr (rr + ll)%Qc;
        N ← u_setitem N r (saved + rr * temp)%Qc;
        mret (N, (ll * temp)%Qc)) (N, 0%Qc);
      N ← u_setitem N j saved;
      mret (N, left_, right_)) (N, zeros, zeros);
    mret N.

(** Modelled from the spec: [basis_functions_ders(degree, knots, span, u,
    order)] of KnotMath, a helper of the absent module [nurbs.utilities]:
    the table [ders[k][j]] of the [k]-th derivative of the [j]-th nonzero
    basis function.  It first fills the triangular table [ndu] of basis
    values (upper part) and knot differences (lower part), then
    back-substitutes with the two alternating rows [a], and last multiplies
    row [k] by [degree! / (degree - k)!]. *)
Definition spec_basis_functions_ders (degree : Z) (knots : list Qc) (span : Z)
    (u : Qc) (order : Z) : ures (list (list Qc)) :=
  if decide ((u < 0 ∨ 1 < u)%Qc ∨ degree < 0) then Err InvalidInput
  else
    let p := degree in
    let zeros := replicate (Z.to_nat (p + 1)) 0%Qc in
    ndu ← u_setitem2 (replicate (Z.to_nat (p + 1)) zeros) 0 0 1%Qc;
    '(ndu, _, _) ← for_loop (range 1 (p + 1)) (λ j '(ndu, left_, right_),
      kl ← u_index knots (span + 1 - j);
      left_ ← u_setitem left_ j (u - kl)%Qc;
      kr ← u_index knots (span + j);
      right_ ← u_setitem right_ j (kr - u)%Qc;
      '(ndu, saved) ← for_loop (range 0 j) (λ r '(ndu, saved),
        rr ← u_index right_ (r + 1);
        ll ← u_index left_ (j - r);
        ndu ← u_setitem2 ndu j r (rr + ll)%Qc;
        x ← u_index2 ndu r (j - 1);
        y ← u_index2 ndu j r;
        temp ← u_div x y;
        ndu ← u_setitem2 ndu r j (saved + rr * temp)%Qc;
        mret (ndu, (ll * temp)%Qc)) (ndu, 0%Qc);
      ndu ← u_setitem2 ndu j j saved;
      mret (ndu, left_, right_)) (ndu, zeros, zeros);
    ders ← for_loop (range 0 (p + 1)) (λ j ders,
      x ← u_index2 ndu j p;
      u_setitem2 ders 0 j x) (replicate (Z.to_nat (order + 1)) zeros);
    ders ← for_loop (range 0 (p + 1)) (λ r ders,
      a ← u_setitem2 (replicate 2 zeros) 0 0 1%Qc;
      '(ders, _, _, _) ← for_loop (range 1 (order + 1)) (λ k '(ders, a, s1, s2),
        let rk := r - k in
        let pk := p - k in
        '(a, d) ←
          (if decide (k ≤ r) then
             x ← u_index2 a s1 0;
             y ← u_index2 ndu (pk + 1) rk;
             q ← u_div x y;
             a ← u_setitem2 a s2 0 q;
             z ← u_index2 ndu rk pk;
             mret (a, (q * z)%Qc)
           else mret (a, 0%Qc));
        let j1 := if decide (-1 ≤ rk) then 1 else - rk in
        let j2 := if decide (r - 1 ≤ pk) then k - 1 else p - r in
        '(a, d) ← for_loop (range j1 (j2 + 1)) (λ j '(a, d),
          x ← u_index2 a s1 j;
          x' ← u_index2 a s1 (j - 1);
          y ← u_index2 ndu (pk + 1) (rk + j);
          q ← u_div (x - x')%Qc y;
          a ← u_setitem2 a s2 j q;
          z ← u_index2 ndu (rk + j) pk;
          mret (a, (d + q * z)%Qc)) (a, d);
        '(a, d) ←
          (if decide (r ≤ pk) then
             x ← u_index2 a s1 (k - 1);
             y ← u_index2 ndu (pk + 1) r;
             q ← u_div (- x)%Qc y;
             a ← u_setitem2 a s2 k q;
             z ← u_index2 ndu r pk;
             mret (a, (d + q * z)%Qc)
           else mret (a, d));
        ders ← u_setitem2 ders k r d;
        mret (ders, a, s2, s1)) (ders, a, 0, 1);
      mret ders) ders;
    '(ders, _) ← for_loop (range 1 (order + 1)) (λ k '(ders, r),
      ders ← for_loop (range 0 (p + 1)) (λ j ders,
        x ← u_index2 ders k j;
        u_setitem2 ders k j (x * Qc_of_Z r)%Qc) ders;
      mret (ders, r * (p - k))) (ders, p);
    mret ders.

(** Modelled from the spec: the parameter check [check_uv] of the absent
    module [nurbs.utilities].  A parameter outside [0, 1] is [InvalidInput].
    For a normal ([test_normal]) both parameters must in addition lie
    strictly inside (0, 1) shrunk by one sampling step [delta] at either
    end, [DomainError] otherwise. *)
Definition spec_check_uv (u v : Qc) (test_normal : bool) (delta : option Qc)
    : ures unit :=
  if decide ((u < 0 ∨ 1 < u) ∨ (v < 0 ∨ 1 < v))%Qc then Err InvalidInput
  else if test_normal then
    let d := default 0%Qc delta in
    if decide ((d < u ∧ u < 1 - d) ∧ (d < v ∧ v < 1 - d))%Qc then Ok tt
    else Err DomainError
  else Ok tt.

(** Modelled from the spec: the cross product [cross_vector] of the absent
    module [nurbs.utilities]. *)
Definition spec_cross_vector (a b : vec3) : ures vec3 :=
  let '(a0, a1, a2) := a in
  let '(b0, b1, b2) := b in
  Ok ((a1 * b2 - a2 * b1)%Qc, (a2 * b0 - a0 * b2)%Qc, (a0 * b1 - a1 * b0)%Qc).

(** Modelled from the spec: the square root that the absent helper
    [normalize_vector] takes of the squared length, on rationals: exact
    where the root is rational, the roots of numerator and denominator
    truncated otherwise (a float square root rounds instead). *)
Definition Qc_sqrt (q : Qc) : Qc :=
  Q2Qc (Z.sqrt (Qnum q) # Pos.sqrt (Qden q)).

(** Modelled from the spec: scaling to unit length, the helper
    [normalize_vector] of the absent module [nurbs.utilities];
    [DegenerateNormal] on the zero vector. *)
Definition spec_normalize_vector (a : vec3) : ures vec3 :=
  let '(a0, a1, a2) := a in
  let magnitude := Qc_sqrt (a0 * a0 + a1 * a1 + a2 * a2)%Qc in
  if decide (magnitude = 0%Qc) then Err DegenerateNormal
  else Ok ((a0 / magnitude)%Qc, (a1 / magnitude)%Qc, (a2 / magnitude)%Qc).

(** Modelled from the spec: the module [nurbs.utilities], absent from the
    sources, assembled from the helpers above. *)
Definition spec_utilities : Utilities := {|
  normalize_knotvector := spec_normalize_knotvector;
  frange := spec_frange;
  find_span := spec_find_span;
  basis_functions := spec_basis_functions;
  basis_functions_ders := spec_basis_functions_ders;
  check_uv := spec_check_uv;
  cross_vector := spec_cross_vector;
  normalize_vector := spec_normalize_vector;
|}.

(** ** Running a sequence of calls *)

(** The state a method leaves, whether it returned or raised. *)
Definition exec {A} (m : M A) (s : Surface) : Surface := (m s).2.

(** The outcome of a method. *)
Definition outcome {A} (m : M A) (s : Surface) : res A := (m s).1.

(** The flat bilinear patch of the specification's scenario: degree (1, 1),
    the 2 x 2 control grid, knot vectors [0, 0, 1, 1]. *)
Definition bilinear_grid : list (list (list Qc)) :=
  [ [ [0; 0; 0]; [1; 0; 0] ];
    [ [0; 1; 0]; [1; 1; 0] ] ]%Qc.

Definition bilinear_patch `{Utilities} : Surface :=
  exec (knotvector_v_setter [0; 0; 1; 1]%Qc)
    (exec (knotvector_u_setter [0; 0; 1; 1]%Qc)
       (exec (ctrlpts_setter bilinear_grid)
          (exec (degree_v_setter 1)
             (exec (degree_u_setter 1) init)))).

(** The parameters 0.5, 0.25 and 0.75. *)
Definition half : Qc := Q2Qc (1 # 2).
Definition q14 : Qc := Q2Qc (1 # 4).
Definition q34 : Qc := Q2Qc (3 # 4).

(** ** Deciding equality of values, outcomes and states *)

#[export] Instance uexn_eq_dec : EqDecision uexn.
Proof. solve_decision. Defined.

#[export] Instance exn_eq_dec : EqDecision exn.
Proof. solve_decision. Defined.

#[export] Instance result_eq_dec {E A} `{EqDecision E, EqDecision A} :
  EqDecision (result E A).
Proof. solve_decision. Defined.

#[export] Instance pyval_eq_dec : EqDecision pyval.
Proof.
  refine (fix go (a b : pyval) {struct a} : Decision (a = b) :=
    let _ : EqDecision pyval := @go in
    match a, b with
    | PFloat x, PFloat y => cast_if (decide (x = y))
    | PList xs, PList ys => cast_if (decide (xs = ys))
    | _, _ => right _
    end); congruence.
Defined.

#[export] Instance Surface_eq_dec : EqDecision Surface.
Proof. solve_decision. Defined.

(** The patch sampled with step 1/2 by the helpers of the specification:
    [evaluate] has cached nine points. *)
Definition sampled_patch : Surface :=
  exec (@evaluate spec_utilities)
    (exec (delta_setter half) (@bilinear_patch spec_utilities)).

(** One row holding one homogeneous control point, (1, 0, 0) of weight 2. *)
Definition one_weighted_point : list (list (list Qc)) := [ [ [2; 0; 0; 2] ] ]%Qc.

(** The bilinear patch with the weights 1, 2, 3, 4 assigned through the
    [weights] setter. *)
Definition weighted_patch : Surface :=
  exec (weights_setter [1; 2; Qc_of_Z 3; Qc_of_Z 4]%Qc) (@bilinear_patch spec_utilities).

(** A grid of 2 rows of 3 coordinates each, and a surface of degree (2, 1):
    the grid passes both checks of the [ctrlpts] setter. *)
Definition wide_grid : list (list (list Qc)) :=
  [ [ [0; 0; 0]; [1; 0; 0]; [2; 0; 0] ];
    [ [0; 1; 0]; [1; 1; 0]; [2; 1; 0] ] ]%Qc.

Definition degree21 : Surface :=
  exec (degree_v_setter 1) (exec (degree_u_setter 2) init).

(** A grid of 3 rows of 2 coordinates each, and a surface of degree (1, 2). *)
Definition tall_grid : list (list (list Qc)) :=
  [ [ [0; 0; 0]; [1; 0; 0] ];
    [ [0; 1; 0]; [1; 1; 0] ];
    [ [0; 2; 0]; [1; 2; 0] ] ]%Qc.

Definition degree12 : Surface :=
  exec (degree_v_setter 2) (exec (degree_u_setter 1) init).

(** The bilinear patch, sampled with step 1/2, after the [weights] setter
    was given four zero weights. *)
Definition zero_weight_patch : Surface :=
  exec (weights_setter [0; 0; 0; 0]%Qc)
    (exec (delta_setter half) (@bilinear_patch spec_utilities)).

(** The condition [_check_variables] tests: a degree is 0, no control point
    is stored, or a knot vector is empty. *)
Definition not_configured (s : Surface) : Prop :=
  _mDegreeU s = 0 ∨ _mDegreeV s = 0 ∨ _mCtrlPts s = [] ∨
  _mKnotVectorU s = [] ∨ _mKnotVectorV s = [].

(** An outcome other than a [ValueError]: a value, or an exception of the
    indexing, the arithmetic or the helpers. *)
Definition not_ValueError {A} (r : res A) : Prop :=
  match r with
  | Err (ValueError _) => False
  | _ => True
  end.

(** ** The samples of a run of the evaluation loops

    The next definitions describe, without the object, what the two nested
    loops of an evaluation do: the points they append, in order, up to the
    first exception, and the way the run ends. *)

(** An inner loop: one point per parameter. *)
Fixpoint collect {A} (xs : list A) (f : A → res vec3) : res unit * list vec3 :=
  match xs with
  | [] => (Ok tt, [])
  | x :: xs' =>
      match f x with
      | Ok p => let '(r, ps) := collect xs' f in (r, p :: ps)
      | Err e => (Err e, [])
      end
  end.

(** An outer loop: one run of the inner loop per parameter. *)
Fixpoint collect_rows {A} (vs : list A) (row : A → res unit * list vec3)
    : res unit * list vec3 :=
  match vs with
  | [] => (Ok tt, [])
  | v :: vs' =>
      match row v with
      | (Ok _, ps) => let '(r, ps') := collect_rows vs' row in (r, ps ++ ps')
      | (Err e, ps) => (Err e, ps)
      end
  end.

Section samples.
Context {U : Utilities}.

(** The samples of [evaluate], lines 350 to 368. *)
Definition evaluate_samples (s : Surface) : res unit * list vec3 :=
  collect_rows (frange 0%Qc 1%Qc (_mDelta s)) (λ v,
    match call (find_span (_mDegreeV s) (_mKnotVectorV s)
                  (_mCtrlPts_sizeV s) v) with
    | Err e => (Err e, [])
    | Ok span_v =>
        match call (basis_functions (_mDegreeV s) (_mKnotVectorV s)
                      span_v v) with
        | Err e => (Err e, [])
        | Ok basis_v =>
            collect (frange 0%Qc 1%Qc (_mDelta s)) (λ u,
              span_u ← call (find_span (_mDegreeU s) (_mKnotVectorU s)
                               (_mCtrlPts_sizeU s) u);
              basis_u ← call (basis_functions (_mDegreeU s) (_mKnotVectorU s)
                                span_u u);
              surface_point_sum (_mCtrlPts2D s) (_mDegreeU s) (_mDegreeV s)
                basis_u basis_v span_u span_v)
        end
    end).

(** The samples of [evaluate_rational], lines 396 to 418, for the weighted
    control points [ctrlptsw] of lines 378 to 393. *)
Definition rational_samples (s : Surface) (ctrlptsw : list (list hpoint))
    : res unit * list vec3 :=
  collect_rows (frange 0%Qc 1%Qc (_mDelta s)) (λ v,
    match call (find_span (_mDegreeV s) (_mKnotVectorV s)
                  (_mCtrlPts_sizeV s) v) with
    | Err e => (Err e, [])
    | Ok span_v =>
        match call (basis_functions (_mDegreeV s) (_mKnotVectorV s)
                      span_v v) with
        | Err e => (Err e, [])
        | Ok basis_v =>
            collect (frange 0%Qc 1%Qc (_mDelta s)) (λ u,
              span_u ← call (find_span (_mDegreeU s) (_mKnotVectorU s)
                               (_mCtrlPts_sizeU s) u);
              basis_u ← call (basis_functions (_mDegreeU s) (_mKnotVectorU s)
                                span_u u);
              surfptw ← surface_pointw_sum ctrlptsw (_mDegreeU s)
                          (_mDegreeV s) basis_u basis_v span_u span_v;
              project surfptw)
        end
    end).

End samples.

(** The state [_reset_ctrlpts] leaves: when control points are stored, the
    flat list, the 2D list and the weights are emptied and the sizes set to
    0; when the flat list is empty, nothing is touched. *)
Definition cleared_ctrlpts (s : Surface) : Surface :=
  match _mCtrlPts s with
  | [] => s
  | _ :: _ =>
      with_sizeV 0 (with_sizeU 0 (with_Weights []
        (with_CtrlPts2D [] (with_CtrlPts [] s))))
  end.


(** [t[0][0]] of a table, when it exists. *)
Definition get00 {A} (t : list (list A)) : option A :=
  t !! 0%nat ≫= λ row, row !! 0%nat.

Section contracts.
Context {U : Utilities}.

(** The contract of [basis_functions_ders] that relates it to
    [basis_functions]: at the span found for the parameter [t], row 0 of
    the table of derivatives (the derivatives of order 0) is the list of
    basis functions. *)
Definition ders_row0_is_basis (degree : Z) (knots : list Qc) (num_ctrlpts : Z)
    (t : Qc) (order : Z) : Prop :=
  ∀ span ders,
    find_span degree knots num_ctrlpts t = Ok span →
    basis_functions_ders degree knots span t order = Ok ders →
    ∃ basis, basis_functions degree knots span t = Ok basis ∧
             py_index ders 0 = Ok basis.

End contracts.

(** The table [derivatives(1/4, 3/4, 1)] returns on the bilinear patch with
    the helpers of the specification. *)
Definition bilinear_skl : list (list vec3) :=
  [ [ (q34, q14, 0); (1, 0, 0) ];
    [ (0, 1, 0); (0, 0, 0) ] ]%Qc.

(** ** Configurations of an ordinary B-spline surface *)

(** A stored control point with three float coordinates. *)
Definition point3 (p : vec3) : pyval :=
  point_val [get3 0 p; get3 1 p; get3 2 p].

(** The flat list [pts] cut into [sizeU] rows of [sizeV] points. *)
Definition chunks (pts : list vec3) (sizeU sizeV : Z) : list (list vec3) :=
  (λ i, take (Z.to_nat sizeV) (drop (Z.to_nat (i * sizeV)) pts))
    <$> seqZ 0 sizeU.

(** A configuration in which every weight equals 1.0: the flat list holds 3D
    points, at least [sizeU * sizeV] of them, the 2D list is the flat list
    cut into [sizeU] rows of [sizeV] points, and there is one weight 1.0 for
    each of these points.  This is how the [ctrlpts] setter leaves the
    control points, unless rows of an earlier assignment were left in the 2D
    list (lemma [ctrlpts_setter_unit_weight_config]). *)
Definition unit_weight_config (s : Surface) : Prop :=
  ∃ pts : list vec3,
    _mCtrlPts s = point3 <$> pts ∧
    0 ≤ _mCtrlPts_sizeU s ∧ 0 ≤ _mCtrlPts_sizeV s ∧
    _mCtrlPts_sizeU s * _mCtrlPts_sizeV s ≤ len pts ∧
    _mCtrlPts2D s
      = fmap (M:=list) point3 <$> chunks pts (_mCtrlPts_sizeU s) (_mCtrlPts_sizeV s) ∧
    _mWeights s
      = replicate (Z.to_nat (_mCtrlPts_sizeU s * _mCtrlPts_sizeV s))
          (PFloat 1%Qc).

(** The sum of a list of floats. *)
Definition sum_list (l : list Qc) : Qc := foldr Qcplus 0%Qc l.

(** The sum of the entries of [b] at the indices [ks]. *)
Definition idx_sum (b : list Qc) (ks : list Z) : Qc :=
  foldr (λ k acc, (default 0%Qc (b !! Z.to_nat k) + acc)%Qc) 0%Qc ks.

Section unity.
Context {U : Utilities}.

(** The contract of [basis_functions] (partition of unity) at the parameter
    [t]: at the span found for [t], the [degree + 1] basis functions sum to
    1. *)
Definition basis_sums_to_one (degree : Z) (knots : list Qc) (num_ctrlpts : Z)
    (t : Qc) : Prop :=
  ∀ span basis,
    find_span degree knots num_ctrlpts t = Ok span →
    basis_functions degree knots span t = Ok basis →
    length basis = Z.to_nat (degree + 1) ∧ sum_list basis = 1%Qc.

(** The contract holds at every parameter the evaluation loops visit, in
    both directions. *)
Definition unity_at_samples (s : Surface) : Prop :=
  ∀ t, t ∈ frange 0%Qc 1%Qc (_mDelta s) →
    basis_sums_to_one (_mDegreeU s) (_mKnotVectorU s) (_mCtrlPts_sizeU s) t ∧
    basis_sums_to_one (_mDegreeV s) (_mKnotVectorV s) (_mCtrlPts_sizeV s) t.

End unity.


(** The cell [i][j] of a 2D list. *)
Definition cell {A} (t : list (list A)) (i j : Z) : res A :=
  row ← py_index t i; py_index row j.

(** The bilinear patch with sampling step 1/2. *)
Definition coarse_patch : Surface :=
  exec (delta_setter half) (@bilinear_patch spec_utilities).

(** ** Properties of method bodies used in the proofs *)

(** A state property that every step of a method keeps is kept by the
    method, whether it returns or raises. *)
Definition keeps {A} (I : Surface → Prop) (m : M A) : Prop :=
  ∀ s, I s → I (m s).2.

(** A method body that ends with a value or with an exception other than a
    [ValueError]. *)
Definition M_not_ValueError {A} (m : M A) : Prop :=
  ∀ s, not_ValueError (m s).1.

(** The coordinate list of a 3D point, as a caller passes it to the
    [ctrlpts] setter. *)
Definition coords3 (p : vec3) : list Qc := [get3 0 p; get3 1 p; get3 2 p].

(** The same patch with the four control points listed column by column. *)
Definition transposed_patch : Surface :=
  exec (@knotvector_v_setter spec_utilities [0; 0; 1; 1]%Qc)
    (exec (@knotvector_u_setter spec_utilities [0; 0; 1; 1]%Qc)
       (exec (ctrlpts_setter [ [ [0; 0; 0]; [0; 1; 0] ];
                               [ [1; 0; 0]; [1; 1; 0] ] ]%Qc)
          (exec (degree_v_setter 1)
             (exec (degree_u_setter 1) init)))).

(** ** Reading control points from a text file

    [read_ctrlpts] and [read_ctrlptsw] use builtins of Python whose behaviour
    is no part of [Surface.py]: [open] with the iteration over the lines of
    the file, and [float] on a string.  The class [Builtins] is their
    interface.  Strings are sequences of ASCII characters. *)

Class Builtins := {
  (** [open(filename, 'r')] and the lines the iteration over the file
      yields, each with its line end; [None] where [open] raises
      [IOError]. *)
  py_open : string → option (list string);
  (** [float(s)] on a string: the number, or the message of the
      [ValueError]. *)
  py_float : string → result string Qc;
}.

(** The characters [s.strip()] removes: the ASCII whitespace of Python 3,
    the codes 9 to 13, 28 to 31 and 32. *)
Definition is_space (c : ascii) : bool :=
  let n := nat_of_ascii c in
  ((9 <=? n) && (n <=? 13) || (28 <=? n) && (n <=? 31) || (n =? 32))%nat.

(** [s.lstrip()] *)
Fixpoint lstrip (s : string) : string :=
  match s with
  | EmptyString => EmptyString
  | String c s' => if is_space c then lstrip s' else s
  end.

(** [s.strip()] *)
Definition py_strip (s : string) : string :=
  String.rev (lstrip (String.rev (lstrip s))).

(** [s.split(sep)] for a separator of one character: the pieces between the
    occurrences of [sep], one piece more than there are occurrences. *)
Fixpoint py_split (sep : ascii) (s : string) : list string :=
  match s with
  | EmptyString => [EmptyString]
  | String c s' =>
      if decide (c = sep) then EmptyString :: py_split sep s'
      else match py_split sep s' with
           | w :: ws => String c w :: ws
           | [] => [String c EmptyString]
           end
  end.

(** The ways a call of [read_ctrlpts] or [read_ctrlptsw] ends abnormally: an
    exception nothing catches, or [sys.exit(code)] after [print(printed)]. *)
Inductive fexn :=
| Uncaught (e : exn)
| SystemExit (printed : string) (code : Z).

(** A method body that may also leave through [sys.exit]. *)
Definition MF (A : Type) : Type := Surface → result fexn A * Surface.

#[export] Instance MF_ret : MRet MF := λ A a s, (Ok a, s).
#[export] Instance MF_bind : MBind MF := λ A B f m s,
  match m s with
  | (Ok a, s') => f a s'
  | (Err e, s') => (Err e, s')
  end.

(** A method body run where nothing catches its exceptions. *)
Definition from_M {A} (m : M A) : MF A := λ s,
  match m s with
  | (Ok a, s') => (Ok a, s')
  | (Err e, s') => (Err (Uncaught e), s')
  end.

Definition msg_cannot_open : string := "ERROR: Cannot open file ".

Section reading.
Context {B : Builtins}.

(** [float(s)] in a method. *)
Definition float (s : string) : res Qc :=
  match py_float s with
  | Ok x => Ok x
  | Err msg => Err (ValueError msg)
  end.

(** [try: with open(filename, 'r') as fp: body(fp) except IOError:
    print('ERROR: Cannot open file ' + filename); sys.exit(1)].  Of the
    statements of the two bodies only [open] raises [IOError]. *)
Definition with_open_file {A} (filename : string) (body : list string → M A)
    : MF A :=
  match py_open filename with
  | Some fp => from_M (body fp)
  | None => λ s, (Err (SystemExit (msg_cannot_open +:+ filename) 1), s)
  end.

(** Lines 288 and 290 of [read_ctrlpts]: the three floats of one point. *)
Definition read_point (cpr : string) : res (list Qc) :=
  let control_point := py_split ","%char cpr in
  c0 ← py_index control_point 0; x ← float c0;
  c1 ← py_index control_point 1; y ← float c1;
  c2 ← py_index control_point 2; z ← float c2;
  mret [x; y; z].

(** Lines 287 to 293 of [read_ctrlpts]: the loop over the points of a
    line. *)
Definition read_row (control_point_row : list string) : M unit :=
  for_each control_point_row (λ cpr,
    pt ← lift (read_point cpr);
    modify (λ s, with_CtrlPts (_mCtrlPts s ++ [point_val pt]) s);;
    modify (λ s, with_sizeV (_mCtrlPts_sizeV s + 1) s)).

(** Lines 281 to 294 of [read_ctrlpts]: the loop over the lines. *)
Definition read_rows (fp : list string) : M unit :=
  for_each fp (λ line,
    let line := py_strip line in
    let control_point_row := py_split ";"%char line in
    modify (with_sizeV 0);;
    read_row control_point_row;;
    modify (λ s, with_sizeU (_mCtrlPts_sizeU s + 1) s)).

(** [read_ctrlpts(filename)].  The 2D list is generated by the same
    statements as in the [ctrlpts] setter. *)
Definition read_ctrlpts (filename : string) : MF unit :=
  from_M _reset_ctrlpts;;
  from_M _reset_surface;;
  with_open_file filename (λ fp,
    read_rows fp;;
    build_ctrlpts2d;;
    modify (λ s, with_Weights
      (py_repeat (py_repeat [PFloat 1%Qc] (_mCtrlPts_sizeU s))
         (_mCtrlPts_sizeV s)) s)).

(** Lines 324 to 327 of [read_ctrlptsw]: the point and the weight of one
    entry, whose fourth field divides the first three. *)
Definition read_pointw (cpr : string) : res (list Qc * Qc) :=
  let cpt := py_split ","%char cpr in
  c0 ← py_index cpt 0; a ← float c0; c3 ← py_index cpt 3; w ← float c3;
  x ← py_div a w;
  c1 ← py_index cpt 1; a ← float c1; c3 ← py_index cpt 3; w ← float c3;
  y ← py_div a w;
  c2 ← py_index cpt 2; a ← float c2; c3 ← py_index cpt 3; w ← float c3;
  z ← py_div a w;
  c3 ← py_index cpt 3; w ← float c3;
  mret ([x; y; z], w).

(** Lines 323 to 330 of [read_ctrlptsw]: the loop over the entries of a
    line. *)
Definition read_roww (control_point_row : list string) : M unit :=
  for_each control_point_row (λ cpr,
    '(pt, w) ← lift (read_pointw cpr);
    modify (λ s, with_Weights (_mWeights s ++ [PFloat w]) s);;
    modify (λ s, with_CtrlPts (_mCtrlPts s ++ [point_val pt]) s);;
    modify (λ s, with_sizeV (_mCtrlPts_sizeV s + 1) s)).

(** Lines 317 to 331 of [read_ctrlptsw]: the loop over the lines. *)
Definition read_rowsw (fp : list string) : M unit :=
  for_each fp (λ line,
    let line := py_strip line in
    let control_point_row := py_split ";"%char line in
    modify (with_sizeV 0);;
    read_roww control_point_row;;
    modify (λ s, with_sizeU (_mCtrlPts_sizeU s + 1) s)).

(** [read_ctrlptsw(filename)] *)
Definition read_ctrlptsw (filename : string) : MF unit :=
  from_M _reset_ctrlpts;;
  from_M _reset_surface;;
  with_open_file filename (λ fp,
    read_rowsw fp;;
    build_ctrlpts2d).

End reading.

(** A row the loop over the rows accepts, for the degree [d] in the
    u-direction. *)
Definition accepted_row (d : Z) (u_coords : list (list Qc)) : Prop :=
  d + 1 ≤ len u_coords ∧ Forall (λ c, len c ≤ 3) u_coords.

#[local] Instance accepted_row_dec d u_coords : Decision (accepted_row d u_coords).
Proof. unfold accepted_row. apply _. Defined.


(** The four control points of the bilinear patch as 3D points. *)
Definition bilinear_points : list (list vec3) :=
  [ [ (0, 0, 0); (1, 0, 0) ];
    [ (0, 1, 0); (1, 1, 0) ] ]%Qc.

(** ** The pieces of the [ctrlptsw] setter and getter *)

(** Lines 221 to 223 of the [ctrlptsw] setter: one round of the loop over
    the entries of a row. *)
Definition split_entry_step (c : list Qc) (st : list pyval * list pyval)
    : res (list pyval * list pyval) :=
  let '(ctrlpts_u, weights_u) := st in
  c0 ← py_index c 0; c3 ← py_index c 3; x ← py_div c0 c3;
  c1 ← py_index c 1; c3 ← py_index c 3; y ← py_div c1 c3;
  c2 ← py_index c 2; c3 ← py_index c 3; z ← py_div c2 c3;
  let temp_list := point_val [x; y; z] in
  c3 ← py_index c 3;
  mret (ctrlpts_u ++ [temp_list], weights_u ++ [PFloat c3]).

(** Lines 218 to 225 of the [ctrlptsw] setter: one round of the loop over
    the rows. *)
Definition split_row_step (udir : list (list Qc)) (st : list pyval * list pyval)
    : res (list pyval * list pyval) :=
  let '(ctrlpts_uv, weights_uv) := st in
  '(ctrlpts_u, weights_u) ← for_loop udir split_entry_step
                              (([], []) : list pyval * list pyval);
  mret (ctrlpts_uv ++ [PList ctrlpts_u], weights_uv ++ [PList weights_u]).

(** Field [i] of an entry given to the [ctrlptsw] setter. *)
Definition hfield (c : list Qc) (i : nat) : Qc := default 0%Qc (c !! i).

(** An entry the [ctrlptsw] setter can split: it has a fourth field, which
    is not 0. *)
Definition splittable (c : list Qc) : Prop :=
  (4 ≤ length c)%nat ∧ hfield c 3 ≠ 0%Qc.

#[local] Instance splittable_dec c : Decision (splittable c).
Proof. unfold splittable. apply _. Defined.

(** The point and the weight the setter makes of an entry. *)
Definition split_point (c : list Qc) : pyval :=
  point_val [(hfield c 0 / hfield c 3)%Qc; (hfield c 1 / hfield c 3)%Qc;
             (hfield c 2 / hfield c 3)%Qc].
Definition split_weight (c : list Qc) : pyval := PFloat (hfield c 3).

(** The state the [ctrlptsw] setter leaves when it returns: one list per
    row in [_mCtrlPts] and in [_mWeights], nothing else assigned. *)
Definition with_split_rows (value : list (list (list Qc))) (s : Surface)
    : Surface :=
  with_Weights ((λ udir, PList (split_weight <$> udir)) <$> value)
    (with_CtrlPts ((λ udir, PList (split_point <$> udir)) <$> value) s).

(** Line 204 of the [ctrlptsw] getter for a 3D point and a float weight. *)
Definition weighted_entry (pw : vec3 * Qc) : Qc * Qc * Qc * pyval :=
  ((get3 0 pw.1 * pw.2)%Qc, (get3 1 pw.1 * pw.2)%Qc, (get3 2 pw.1 * pw.2)%Qc,
   PFloat pw.2).

(** A table of [n] rows of [m] entries each. *)
Definition table_shape {A} (n m : nat) (t : list (list A)) : Prop :=
  length t = n ∧ Forall (λ row, length row = m) t.

(** The entry [t[i][j]] of a table, for indices counted from 0. *)
Definition entry {A} (t : list (list A)) (i j : nat) : option A :=
  t !! i ≫= λ row, row !! j.

(** The entries [t[i][j]] with [i + j] above [order] are [[0.0, 0.0, 0.0]]. *)
Definition zero_above (order : Z) (t : list (list vec3)) : Prop :=
  ∀ (i j : nat) (x : vec3),
    order < Z.of_nat i + Z.of_nat j → entry t i j = Some x → x = zero3.

(** ** What a run of the reading loops does

    The next definitions describe the loops of [read_ctrlpts] without the
    object: the points they append up to the first exception, the number of
    lines they complete and the last value of [_mCtrlPts_sizeV]. *)

(** The state after the flat list and the two sizes were assigned. *)
Definition read_state (l : list pyval) (sizeU sizeV : Z) (s : Surface)
    : Surface :=
  with_sizeV sizeV (with_sizeU sizeU (with_CtrlPts l s)).

Section read_runs.
Context {B : Builtins}.

(** The loop over the entries of a line: the points read before the first
    entry that raises. *)
Fixpoint read_points (control_point_row : list string)
    : res unit * list (list Qc) :=
  match control_point_row with
  | [] => (Ok tt, [])
  | cpr :: rest =>
      match read_point cpr with
      | Ok pt => let '(r, pts) := read_points rest in (r, pt :: pts)
      | Err e => (Err e, [])
      end
  end.

(** The entries of a line of the file. *)
Definition line_entries (line : string) : list string :=
  py_split ";"%char (py_strip line).

(** The loop over the lines: the way it ends, the points read, the number
    of lines completed, and the number of points read on the last line that
    was begun ([sizeV] when no line was). *)
Fixpoint read_file (fp : list string) (sizeV : Z)
    : res unit * list (list Qc) * Z * Z :=
  match fp with
  | [] => (Ok tt, [], 0, sizeV)
  | line :: rest =>
      match read_points (line_entries line) with
      | (Ok _, pts) =>
          let '(r, pts', n, v) := read_file rest (len pts) in
          (r, pts ++ pts', n + 1, v)
      | (Err e, pts) => (Err e, pts, 0, len pts)
      end
  end.

End read_runs.

(** A line of whitespace only. *)
Fixpoint blank (s : string) : bool :=
  match s with
  | EmptyString => true
  | String c s' => is_space c && blank s'
  end.

(** ** A file system and a [float] for examples *)

Definition newline : string := String "010"%char EmptyString.

(** The number a string of decimal digits denotes, read after [acc]. *)
Fixpoint digits_value (s : string) (acc : Z) : option Z :=
  match s with
  | EmptyString => Some acc
  | String c s' =>
      match Ascii.is_nat c with
      | Some d => digits_value s' (10 * acc + Z.of_nat d)
      | None => None
      end
  end.

(** [float] on the strings of the examples: decimal integers with an
    optional minus sign are read as [float] reads them, and every other
    string, the empty one included, is refused with the message of
    [float]. *)
Definition example_float (s : string) : result string Qc :=
  let refused := Err ("could not convert string to float: '" +:+ s +:+ "'") in
  match s with
  | EmptyString => refused
  | String "-"%char (String c s') =>
      match digits_value (String c s') 0 with
      | Some n => Ok (Qc_of_Z (- n))
      | None => refused
      end
  | _ =>
      match digits_value s 0 with
      | Some n => Ok (Qc_of_Z n)
      | None => refused
      end
  end.

(** Three files: the points of a grid of 2 lines of 3 points; the same with
    an empty line at the end; a grid of 2 lines of 2 weighted points. *)
Definition example_open (filename : string) : option (list string) :=
  if decide (filename = "grid.txt") then
    Some ["0,0,0;1,0,0;2,0,0" +:+ newline; "0,1,0;1,1,0;2,1,0" +:+ newline]
  else if decide (filename = "blank.txt") then
    Some ["0,0,0;1,0,0;2,0,0" +:+ newline; "0,1,0;1,1,0;2,1,0" +:+ newline;
          newline]
  else if decide (filename = "gridw.txt") then
    Some ["0,0,0,1;2,0,0,2" +:+ newline; "0,3,0,3;4,4,0,4" +:+ newline]
  else None.

Definition example_builtins : Builtins := {|
  py_open := example_open;
  py_float := example_float;
|}.

(** The points of [grid.txt]. *)
Definition example_grid : list (list vec3) :=
  [ [ (0, 0, 0); (1, 0, 0); (2, 0, 0) ];
    [ (0, 1, 0); (1, 1, 0); (2, 1, 0) ] ]%Qc.

(** ** Sequences of calls *)

(** A call of a public method that can change the object, with its
    arguments. *)
Inductive method_call :=
| Set_degree_u (value : Z)
| Set_degree_v (value : Z)
| Set_ctrlpts (value : list (list (list Qc)))
| Set_weights (value : list Qc)
| Set_knotvector_u (value : list Qc)
| Set_knotvector_v (value : list Qc)
| Set_delta (value : Qc)
| Set_ctrlptsw (value : list (list (list Qc)))
| Call_read_ctrlpts (filename : string)
| Call_read_ctrlptsw (filename : string)
| Call_evaluate
| Call_evaluate_rational.

Section calls.
Context {U : Utilities} {B : Builtins}.

(** The object after a call, whether the call returned or raised. *)
Definition after_call (s : Surface) (c : method_call) : Surface :=
  match c with
  | Set_degree_u value => exec (degree_u_setter value) s
  | Set_degree_v value => exec (degree_v_setter value) s
  | Set_ctrlpts value => exec (ctrlpts_setter value) s
  | Set_weights value => exec (weights_setter value) s
  | Set_knotvector_u value => exec (knotvector_u_setter value) s
  | Set_knotvector_v value => exec (knotvector_v_setter value) s
  | Set_delta value => exec (delta_setter value) s
  | Set_ctrlptsw value => exec (ctrlptsw_setter value) s
  | Call_read_ctrlpts filename => (read_ctrlpts filename s).2
  | Call_read_ctrlptsw filename => (read_ctrlptsw filename s).2
  | Call_evaluate => exec evaluate s
  | Call_evaluate_rational => exec evaluate_rational s
  end.

(** A new object after a sequence of calls, each of which the caller lets
    return or catches. *)
Definition after_calls (cs : list method_call) : Surface :=
  foldl after_call init cs.

End calls.

(** The bounds the setters enforce. *)
Definition in_bounds (s : Surface) : Prop :=
  0 ≤ _mDegreeU s ∧ 0 ≤ _mDegreeV s ∧
  (0 < _mDelta s)%Qc ∧ (_mDelta s < 1)%Qc ∧
  0 ≤ _mCtrlPts_sizeU s ∧ 0 ≤ _mCtrlPts_sizeV s.

(** ** What a run of the loops of [read_ctrlptsw] does *)

(** The state after the flat list, the weights and the two sizes were
    assigned. *)
Definition read_statew (l ws : list pyval) (sizeU sizeV : Z) (s : Surface)
    : Surface :=
  with_sizeV sizeV (with_sizeU sizeU (with_CtrlPts l (with_Weights ws s))).

Section readw_runs.
Context {B : Builtins}.

(** The four floats of an entry of a file of weighted control points. *)
Definition hentry (cpr : string) : res vec4 :=
  let cpt := py_split ","%char cpr in
  c0 ← py_index cpt 0; a ← float c0;
  c1 ← py_index cpt 1; b ← float c1;
  c2 ← py_index cpt 2; c ← float c2;
  c3 ← py_index cpt 3; w ← float c3;
  mret (a, b, c, w).

(** The loop over the entries of a line: the points and weights read before
    the first entry that raises. *)
Fixpoint read_pointsw (control_point_row : list string)
    : res unit * list (list Qc * Qc) :=
  match control_point_row with
  | [] => (Ok tt, [])
  | cpr :: rest =>
      match read_pointw cpr with
      | Ok pw => let '(r, pws) := read_pointsw rest in (r, pw :: pws)
      | Err e => (Err e, [])
      end
  end.

(** The loop over the lines, as [read_file]. *)
Fixpoint read_filew (fp : list string) (sizeV : Z)
    : res unit * list (list Qc * Qc) * Z * Z :=
  match fp with
  | [] => (Ok tt, [], 0, sizeV)
  | line :: rest =>
      match read_pointsw (line_entries line) with
      | (Ok _, pws) =>
          let '(r, pws', n, v) := read_filew rest (len pws) in
          (r, pws ++ pws', n + 1, v)
      | (Err e, pws) => (Err e, pws, 0, len pws)
      end
  end.

End readw_runs.

(** The point and the weight stored for the four floats of an entry. *)
Definition unweighted (h : vec4) : list Qc * Qc :=
  ([(get4 0 h / get4 3 h)%Qc; (get4 1 h / get4 3 h)%Qc;
    (get4 2 h / get4 3 h)%Qc], get4 3 h).

(** The entries of [gridw.txt]. *)
Definition example_gridw : list (list vec4) :=
  [ [ (0, 0, 0, 1); (2, 0, 0, 2) ];
    [ (0, Qc_of_Z 3, 0, Qc_of_Z 3); (Qc_of_Z 4, Qc_of_Z 4, 0, Qc_of_Z 4) ] ]%Qc.

(** ** Affine maps of the control net *)

(** [a . b] *)
Definition dot3 (a b : vec3) : Qc :=
  (get3 0 a * get3 0 b + get3 1 a * get3 1 b + get3 2 a * get3 2 b)%Qc.

(** An affine map of space: a matrix, given by its three rows, and a
    translation. *)
Record affine_map := mk_affine {
  am_row0 : vec3;
  am_row1 : vec3;
  am_row2 : vec3;
  am_shift : vec3;
}.

(** The image of the point [p]: the matrix applied to [p], plus the
    translation. *)
Definition apply_affine (f : affine_map) (p : vec3) : vec3 :=
  ((dot3 (am_row0 f) p + get3 0 (am_shift f))%Qc,
   (dot3 (am_row1 f) p + get3 1 (am_shift f))%Qc,
   (dot3 (am_row2 f) p + get3 2 (am_shift f))%Qc).

(** The image of a partial sum [t] of weighted control points whose weights
    sum to [B]: the matrix applied to [t], plus [B] times the
    translation. *)
Definition affine_acc (f : affine_map) (B : Qc) (t : vec3) : vec3 :=
  ((dot3 (am_row0 f) t + B * get3 0 (am_shift f))%Qc,
   (dot3 (am_row1 f) t + B * get3 1 (am_shift f))%Qc,
   (dot3 (am_row2 f) t + B * get3 2 (am_shift f))%Qc).

(** A quarter turn about the z-axis followed by the translation by
    (1, 2, 3). *)
Definition turn_and_shift : affine_map :=
  mk_affine (0, -1, 0)%Qc (1, 0, 0)%Qc (0, 0, 1)%Qc (1, 2, Qc_of_Z 3)%Qc.

(** ** Scaling the weights *)

(** The four accumulators multiplied by [c]. *)
Definition scale4 (c : Qc) (t : vec4) : vec4 :=
  ((c * get4 0 t)%Qc, (c * get4 1 t)%Qc, (c * get4 2 t)%Qc, (c * get4 3 t)%Qc).

(** A weighted control point whose weight was multiplied by [c]. *)
Definition scale_h (c : Qc) (h : hpoint) : hpoint :=
  let '(x, y, z, w) := h in
  ((c * x)%Qc, (c * y)%Qc, (c * z)%Qc,
   match w with
   | PFloat w => PFloat (c * w)%Qc
   | PList l => PList l
   end).

(** The float a weight holds (0 for a value that is no float). *)
Definition weight_of (w : pyval) : Qc :=
  match w with
  | PFloat w => w
  | PList _ => 0%Qc
  end.

(** The weighted form [(x*w, y*w, z*w, w)] of the image of a control
    point, from the weighted form of the control point. *)
Definition affine_h (f : affine_map) (h : hpoint) : hpoint :=
  let '(x, y, z, w) := h in
  (affine_acc f (weight_of w) (x, y, z), w).

(** The same on the four accumulators. *)
Definition affine4 (f : affine_map) (t : vec4) : vec4 :=
  let '(x, y, z, w) := t in
  (affine_acc f w (x, y, z), w).



(** ** General facts about method bodies *)

Lemma with_SurfPts_eta (s : Surface) : with_SurfPts (_mSurfPts s) s = s.
Proof. by destruct s. Qed.

Lemma bind_run {A B} (m : M A) (f : A → M B) (s : Surface) :
  (m ≫= f) s =
  match m s with
  | (Ok a, s') => f a s'
  | (Err e, s') => (Err e, s')
  end.
Proof. reflexivity. Qed.

Lemma keeps_bind {A B} I (m : M A) (f : A → M B) :
  keeps I m → (∀ a, keeps I (f a)) → keeps I (m ≫= f).
Proof.
  intros Hm Hf s Hs. rewrite bind_run. specialize (Hm s Hs).
  destruct (m s) as [[a|e] s']; simpl in *; [by apply Hf | done].
Qed.

Lemma keeps_ret {A} I (a : A) : keeps I (mret a).
Proof. by intros s Hs. Qed.

Lemma keeps_raise {A} I e : keeps I (@raise A e).
Proof. by intros s Hs. Qed.

Lemma keeps_lift {A} I (r : res A) : keeps I (lift r).
Proof. by intros s Hs. Qed.

Lemma keeps_reads {A} I (f : Surface → res A) : keeps I (reads f).
Proof. by intros s Hs. Qed.

Lemma keeps_get I : keeps I get.
Proof. by intros s Hs. Qed.

Lemma keeps_modify (I : Surface → Prop) f :
  (∀ s, I s → I (f s)) → keeps I (modify f).
Proof. intros Hf s Hs. by apply Hf. Qed.

Lemma keeps_for_each {A} I (xs : list A) body :
  (∀ x, keeps I (body x)) → keeps I (for_each xs body).
Proof.
  intros Hb. induction xs as [|x xs IH]; simpl.
  - apply keeps_ret.
  - apply keeps_bind; [apply Hb | by intros _].
Qed.

Lemma keeps_for_fold {A S} I (xs : list A) (body : A → S → M S) acc :
  (∀ x a, keeps I (body x a)) → keeps I (for_fold xs body acc).
Proof.
  intros Hb. revert acc. induction xs as [|x xs IH]; intros acc; simpl.
  - apply keeps_ret.
  - apply keeps_bind; [apply Hb | by intros a].
Qed.

Lemma keeps_reset_surface I :
  (∀ s, I s → I (with_SurfPts [] s)) → keeps I _reset_surface.
Proof.
  intros HI s Hs. unfold _reset_surface. rewrite bind_run. simpl.
  destruct (_mSurfPts s); simpl; [done | by apply HI].
Qed.

Ltac keeps_step :=
  lazymatch goal with
  | |- keeps _ (mret _) => apply keeps_ret
  | |- keeps _ (raise _) => apply keeps_raise
  | |- keeps _ (lift _) => apply keeps_lift
  | |- keeps _ (reads _) => apply keeps_reads
  | |- keeps _ get => apply keeps_get
  | |- keeps _ (modify _) => apply keeps_modify; intros ? ?; simpl; try done
  | |- keeps _ (for_each _ _) => apply keeps_for_each; intros ?
  | |- keeps _ (for_fold _ _ _) => apply keeps_for_fold; intros ? ?
  | |- keeps _ _reset_surface => apply keeps_reset_surface; intros ? ?; simpl; try done
  | |- keeps _ (_ ≫= _) => apply keeps_bind; [|intros ?]
  | |- keeps _ (if decide _ then _ else _) => case_decide
  | |- keeps _ (match ?x with _ => _ end) => destruct x
  end.

Ltac keeps_auto := repeat keeps_step.

(** [_reset_surface] leaves an empty cache and touches nothing else. *)
Lemma reset_surface_run (s : Surface) :
  _reset_surface s = (Ok tt, with_SurfPts [] s).
Proof.
  unfold _reset_surface. rewrite bind_run. simpl.
  destruct (_mSurfPts s) eqn:E; [|done].
  unfold mret, M_ret. by rewrite <-E, with_SurfPts_eta.
Qed.

(** A method that starts with [_reset_surface] and then keeps the cache
    empty ends with an empty cache. *)
Lemma reset_then_keeps {A} (rest : M A) (s : Surface) :
  keeps (λ s', _mSurfPts s' = []) rest →
  _mSurfPts (exec (_reset_surface;; rest) s) = [].
Proof.
  intros Hk. unfold exec. rewrite bind_run, reset_surface_run. by apply Hk.
Qed.

Section cache.
Context {U : Utilities}.

(** Seven of the eight setters empty the cache whenever they change the
    object: each calls [_reset_surface] before its assignment. *)
Lemma setters_clear_cache (s : Surface) :
  (∀ v, outcome (degree_u_setter v) s = Ok tt →
        _mSurfPts (exec (degree_u_setter v) s) = []) ∧
  (∀ v, outcome (degree_v_setter v) s = Ok tt →
        _mSurfPts (exec (degree_v_setter v) s) = []) ∧
  (∀ v, _mSurfPts (exec (knotvector_u_setter v) s) = []) ∧
  (∀ v, _mSurfPts (exec (knotvector_v_setter v) s) = []) ∧
  (∀ v, _mSurfPts (exec (ctrlpts_setter v) s) = []) ∧
  (∀ v, outcome (weights_setter v) s = Ok tt →
        _mSurfPts (exec (weights_setter v) s) = []) ∧
  (∀ v, outcome (delta_setter v) s = Ok tt →
        _mSurfPts (exec (delta_setter v) s) = []).
Proof.
  repeat split; intros v.
  - unfold degree_u_setter. case_decide; [done|]. intros _.
    apply reset_then_keeps. keeps_auto.
  - unfold degree_v_setter. case_decide; [done|]. intros _.
    apply reset_then_keeps. keeps_auto.
  - apply reset_then_keeps. keeps_auto.
  - apply reset_then_keeps. keeps_auto.
  - apply reset_then_keeps.
    unfold _reset_ctrlpts, append_rows, append_coords, build_ctrlpts2d,
      build_rows_step, build_row_step.
    keeps_auto.
  - unfold weights_setter, outcome, exec. rewrite bind_run. simpl.
    case_decide; [done|]. intros _.
    apply (reset_then_keeps (modify (with_Weights (PFloat <$> v)))). keeps_auto.
  - unfold delta_setter. case_decide; [done|]. intros _.
    apply reset_then_keeps. keeps_auto.
Qed.

(** The [ctrlptsw] setter never touches the cache. *)
Lemma ctrlptsw_setter_keeps_surfpts (value : list (list (list Qc))) pts :
  keeps (λ s, _mSurfPts s = pts) (ctrlptsw_setter value).
Proof. unfold ctrlptsw_setter. keeps_auto. Qed.

End cache.

(** C3 (a defect of the code).  The claim: every public setter, [ctrlptsw]
    included, clears the cached surface points before its mutation takes
    effect.  The [ctrlptsw] setter does not: on the bilinear patch with nine
    cached points, assigning one weighted control point returns normally,
    replaces the control points and the weights, and the nine points
    computed from the old control net are still in the cache. *)
Theorem ctrlptsw_setter_leaves_stale_surfpts :
  let s' := exec (ctrlptsw_setter one_weighted_point) sampled_patch in
  length (_mSurfPts sampled_patch) = 9%nat ∧
  outcome (ctrlptsw_setter one_weighted_point) sampled_patch = Ok tt ∧
  _mCtrlPts s' = [PList [point_val [1; 0; 0]%Qc]] ∧
  _mWeights s' = [PList [PFloat 2%Qc]] ∧
  _mSurfPts s' = _mSurfPts sampled_patch.
Proof.
  intros s'. split_and!; [compute_done .. |].
  by apply ctrlptsw_setter_keeps_surfpts.
Qed.

(** ** The [ctrlptsw] getter *)

Lemma length_itertools_product {A B} (xs : list A) (ys : list B) :
  length (itertools_product xs ys) = (length xs * length ys)%nat.
Proof.
  unfold itertools_product. induction xs as [|x xs IH]; [done|].
  rewrite bind_cons, length_app, IH. simpl. f_equal.
  clear IH. induction ys as [|y ys IHy]; [done|].
  rewrite bind_cons. simpl. by rewrite IHy.
Qed.

(** A loop whose body appends one entry per round. *)
Lemma for_loop_append_length {E A B} (xs : list A)
    (body : A → list B → result E (list B)) acc l :
  (∀ x acc acc', body x acc = Ok acc' → length acc' = S (length acc)) →
  for_loop xs body acc = Ok l →
  length l = (length acc + length xs)%nat.
Proof.
  intros Hb. revert acc. induction xs as [|x xs IH]; intros acc; simpl.
  - intros [= <-]. lia.
  - destruct (body x acc) as [acc'|e] eqn:Eb; [|done].
    intros Hl. apply IH in Hl. apply Hb in Eb. lia.
Qed.

(** Whenever the getter returns, it returns one entry per pair of a control
    point and a weight: N * M entries, not N. *)
Lemma ctrlptsw_length (s : Surface) l :
  ctrlptsw s = Ok l →
  length l = (length (_mCtrlPts s) * length (_mWeights s))%nat.
Proof.
  unfold ctrlptsw. intros Hl.
  apply for_loop_append_length in Hl.
  - by rewrite Hl, length_itertools_product.
  - intros [c w] acc acc'.
    destruct (py_getitem c 0) as [c0|]; simpl; [|done].
    destruct (py_mul c0 w); simpl; [|done].
    destruct (py_getitem c 1) as [c1|]; simpl; [|done].
    destruct (py_mul c1 w); simpl; [|done].
    destruct (py_getitem c 2) as [c2|]; simpl; [|done].
    destruct (py_mul c2 w); simpl; [|done].
    intros [= <-]. rewrite length_app. simpl. lia.
Qed.

(** C5 (a defect of the code).  The claim: the [ctrlptsw] getter returns one
    homogeneous entry per control point, entry [i] pairing control point [i]
    with weight [i].  The getter iterates over [itertools.product] of the
    two lists instead: on the bilinear patch (4 control points) with weights
    1, 2, 3, 4 it returns 16 entries, and entry 1 pairs control point 0,
    (0, 0, 0), with weight 2, where the claim has (2, 0, 0, 2), control
    point 1 times its own weight. *)
Theorem ctrlptsw_getter_pairs_all_with_all :
  ∃ l, ctrlptsw weighted_patch = Ok l ∧
       length (_mCtrlPts weighted_patch) = 4%nat ∧
       _mWeights weighted_patch = PFloat <$> [1; 2; Qc_of_Z 3; Qc_of_Z 4]%Qc ∧
       length l = 16%nat ∧
       _mCtrlPts weighted_patch !! 1%nat = Some (point_val [1; 0; 0]%Qc) ∧
       l !! 1%nat = Some (0, 0, 0, PFloat 2)%Qc.
Proof.
  destruct (ctrlptsw weighted_patch) as [l|e] eqn:E.
  - exists l. split_and!.
    + done.
    + compute_done.
    + compute_done.
    + apply ctrlptsw_length in E. rewrite E. compute_done.
    + compute_done.
    + assert (Hd : default [] (match ctrlptsw weighted_patch with
                               | Ok l => Some l | Err _ => None end) !! 1%nat
                   = Some (0, 0, 0, PFloat 2)%Qc) by compute_done.
      by rewrite E in Hd.
  - exfalso.
    assert (Hd : match ctrlptsw weighted_patch with
                 | Ok _ => True | Err _ => False end) by (vm_compute; exact I).
    by rewrite E in Hd.
Qed.

(** ** The [ctrlpts] setter *)

(** C2 (a defect of the code).  The claim: for a grid of R rows of C
    coordinates that passes the checks of the [ctrlpts] setter, the stored
    sizes are the two dimensions of the grid, each at least the degree plus
    one, and [ctrlpts2d[i][j]] is point [j] of row [i].  The setter counts
    [u_cnt] once per row, so both sizes become R.  For degree (2, 1) and the
    accepted grid of 2 rows of 3 points: [sizeU] is 2, below
    [degree_u + 1 = 3]; the 2D view is 2 x 2, cut from the six stored points
    with stride 2, so [ctrlpts2d[1][0]] is point 2 of row 0 where the claim
    has point 0 of row 1; only 4 weights are generated for 6 points. *)
Theorem ctrlpts_setter_sizes_count_rows_twice :
  let s' := exec (ctrlpts_setter wide_grid) degree21 in
  outcome (ctrlpts_setter wide_grid) degree21 = Ok tt ∧
  _mDegreeU s' = 2 ∧ _mDegreeV s' = 1 ∧
  _mCtrlPts_sizeU s' = 2 ∧ _mCtrlPts_sizeV s' = 2 ∧
  _mCtrlPts s' = point_val <$> concat wide_grid ∧
  ctrlpts2d s' =
    [ [point_val [0; 0; 0]; point_val [1; 0; 0]];
      [point_val [2; 0; 0]; point_val [0; 1; 0]] ]%Qc ∧
  length (_mWeights s') = 4%nat.
Proof. intros s'. split_and!; compute_done. Qed.

(** The same miscount on a grid with more rows than columns: the grid of 3
    rows of 2 points passes both checks for degree (1, 2), and the setter
    then fails with [IndexError] while it builds a 3 x 3 view from 6
    points, leaving the sizes set and the view incomplete. *)
Lemma ctrlpts_setter_tall_grid_raises :
  let s' := exec (ctrlpts_setter tall_grid) degree12 in
  outcome (ctrlpts_setter tall_grid) degree12 = Err IndexError ∧
  _mCtrlPts_sizeU s' = 3 ∧ _mCtrlPts_sizeV s' = 3 ∧
  length (_mCtrlPts s') = 6%nat ∧
  length (_mCtrlPts2D s') = 2%nat ∧
  _mWeights s' = [].
Proof. intros s'. split_and!; compute_done. Qed.

(** ** The [weights] setter *)


(** Four zero weights pass the setter on the bilinear patch, and the next
    rational evaluation divides by the accumulated weight 0. *)
Lemma zero_weights_accepted_then_division_by_zero :
  outcome (weights_setter [0; 0; 0; 0]%Qc)
    (exec (delta_setter half) (@bilinear_patch spec_utilities)) = Ok tt ∧
  _mWeights zero_weight_patch = PFloat <$> [0; 0; 0; 0]%Qc ∧
  outcome (@evaluate_rational spec_utilities) zero_weight_patch
    = Err ZeroDivisionError.
Proof. split_and!; compute_done. Qed.

(** ** The precondition check of the evaluations *)

Lemma check_variables_spec (s : Surface) :
  (not_configured s ∧ _check_variables s = Err PreconditionNotMet) ∨
  (¬ not_configured s ∧ _check_variables s = Ok tt).
Proof.
  unfold _check_variables, not_configured. cbv zeta.
  destruct (_mCtrlPts s), (_mKnotVectorU s), (_mKnotVectorV s);
    destruct (decide (_mDegreeU s = 0 ∨ _mDegreeV s = 0)) as [Hd|Hd];
    simpl; intuition congruence.
Qed.

Lemma nve_bind {A B} (m : res A) (f : A → res B) :
  not_ValueError m → (∀ a, not_ValueError (f a)) → not_ValueError (m ≫= f).
Proof. destruct m as [a|e]; simpl; [by intros _ Hf; apply Hf | done]. Qed.

Lemma nve_for_loop {A S} (xs : list A) (body : A → S → res S) st :
  (∀ x st, not_ValueError (body x st)) → not_ValueError (for_loop xs body st).
Proof.
  intros Hb. revert st. induction xs as [|x xs IH]; intros st; simpl; [done|].
  specialize (Hb x st). destruct (body x st) as [st'|e]; [apply IH | done].
Qed.

Lemma nve_py_index {A} (l : list A) i : not_ValueError (py_index l i).
Proof. unfold py_index. cbv zeta. repeat case_decide; try done; by case_match. Qed.

Lemma nve_py_getitem v i : not_ValueError (py_getitem v i).
Proof. destruct v; [done | apply nve_py_index]. Qed.

Lemma nve_py_mul a b : not_ValueError (py_mul a b).
Proof. by destruct a, b. Qed.

Lemma nve_py_div a b : not_ValueError (py_div a b).
Proof. unfold py_div. by case_decide. Qed.

Lemma nve_call {A} (r : ures A) : not_ValueError (call r).
Proof. by destruct r. Qed.

Ltac nve_step :=
  lazymatch goal with
  | |- not_ValueError (Ok _) => exact I
  | |- not_ValueError (mret _) => exact I
  | |- not_ValueError (py_index _ _) => apply nve_py_index
  | |- not_ValueError (py_getitem _ _) => apply nve_py_getitem
  | |- not_ValueError (py_mul _ _) => apply nve_py_mul
  | |- not_ValueError (py_div _ _) => apply nve_py_div
  | |- not_ValueError (call _) => apply nve_call
  | |- not_ValueError (for_loop _ _ _) => apply nve_for_loop; intros ? ?
  | |- not_ValueError (_ ≫= _) => apply nve_bind; [|intros ?]
  | |- not_ValueError (match ?x with _ => _ end) => destruct x
  end.

Ltac nve_auto := cbv zeta; repeat nve_step.

Lemma nve_ctrl_term ctrl2d b i j c : not_ValueError (ctrl_term ctrl2d b i j c).
Proof. unfold ctrl_term. nve_auto. Qed.

Lemma nve_ctrlw_term ctrlptsw b i j c :
  not_ValueError (ctrlw_term ctrlptsw b i j c).
Proof. unfold ctrlw_term. nve_auto. Qed.

Lemma nve_surface_point_sum ctrl2d degU degV bu bv su sv :
  not_ValueError (surface_point_sum ctrl2d degU degV bu bv su sv).
Proof.
  unfold surface_point_sum, surfpt_step, temp_sum, temp_step.
  repeat first [ apply nve_ctrl_term | nve_step | progress cbv zeta ].
Qed.

Lemma nve_surface_pointw_sum ctrlptsw degU degV bu bv su sv :
  not_ValueError (surface_pointw_sum ctrlptsw degU degV bu bv su sv).
Proof.
  unfold surface_pointw_sum, surfptw_step, tempw_sum, tempw_step.
  repeat first [ apply nve_ctrlw_term | nve_step | progress cbv zeta ].
Qed.

Lemma nve_project w : not_ValueError (project w).
Proof. unfold project. nve_auto. Qed.

Lemma nve_weighted_ctrlpts s : not_ValueError (weighted_ctrlpts s).
Proof.
  unfold weighted_ctrlpts, weighted_rows_step, weighted_row_step,
    weighted_point.
  nve_auto.
Qed.

Lemma mnve_bind {A B} (m : M A) (f : A → M B) :
  M_not_ValueError m → (∀ a, M_not_ValueError (f a)) →
  M_not_ValueError (m ≫= f).
Proof.
  intros Hm Hf s. rewrite bind_run. specialize (Hm s).
  destruct (m s) as [[a|e] s']; simpl in *; [apply Hf | done].
Qed.

Lemma mnve_for_each {A} (xs : list A) (body : A → M unit) :
  (∀ x, M_not_ValueError (body x)) → M_not_ValueError (for_each xs body).
Proof.
  intros Hb. induction xs as [|x xs IH]; simpl; [done|].
  apply mnve_bind; [apply Hb | by intros _].
Qed.

Lemma mnve_lift {A} (r : res A) : not_ValueError r → M_not_ValueError (lift r).
Proof. by intros Hr s. Qed.

Lemma mnve_get : M_not_ValueError get.
Proof. by intros s. Qed.

Lemma mnve_modify f : M_not_ValueError (modify f).
Proof. by intros s. Qed.

Ltac mnve_step :=
  lazymatch goal with
  | |- M_not_ValueError get => apply mnve_get
  | |- M_not_ValueError (modify _) => apply mnve_modify
  | |- M_not_ValueError (append_surfpt _) => apply mnve_modify
  | |- M_not_ValueError (lift _) => apply mnve_lift
  | |- M_not_ValueError (for_each _ _) => apply mnve_for_each; intros ?
  | |- M_not_ValueError (_ ≫= _) => apply mnve_bind; [|intros ?]
  end.

Lemma mnve_reset_surface : M_not_ValueError _reset_surface.
Proof. intros s. by rewrite reset_surface_run. Qed.

Lemma mnve_reads {A} (f : Surface → res A) :
  (∀ s, not_ValueError (f s)) → M_not_ValueError (reads f).
Proof. intros Hf s. apply Hf. Qed.

Section precondition.
Context {U : Utilities}.

(** Once the check has passed, [evaluate] raises no [ValueError]: what can
    still go wrong is an index, a type or an exception of a helper. *)
Lemma evaluate_after_check (s : Surface) :
  _check_variables s = Ok tt → not_ValueError (outcome evaluate s).
Proof.
  intros Hc. unfold outcome, evaluate. rewrite bind_run.
  unfold reads at 1. rewrite Hc.
  cbv beta iota.
  lazymatch goal with
  | |- not_ValueError (?m s).1 =>
      cut (M_not_ValueError m); [intros Hm; apply Hm|]
  end.
  apply mnve_bind; [apply mnve_reset_surface | intros _].
  repeat first [ mnve_step | apply nve_call | apply nve_surface_point_sum ].
Qed.

Lemma evaluate_rational_after_check (s : Surface) :
  _check_variables s = Ok tt → not_ValueError (outcome evaluate_rational s).
Proof.
  intros Hc. unfold outcome, evaluate_rational. rewrite bind_run.
  unfold reads at 1. rewrite Hc.
  cbv beta iota.
  lazymatch goal with
  | |- not_ValueError (?m s).1 =>
      cut (M_not_ValueError m); [intros Hm; apply Hm|]
  end.
  apply mnve_bind; [apply mnve_reset_surface | intros _].
  apply mnve_bind; [apply mnve_reads, nve_weighted_ctrlpts | intros ?].
  repeat first [ mnve_step | apply nve_call | apply nve_surface_pointw_sum
               | apply nve_project ].
Qed.

(** C6.  [evaluate] and [evaluate_rational] raise the precondition error
    exactly when a degree is 0, no control point is stored, or a knot
    vector is empty; they then raise before anything else happens: the
    state, and with it the cached surface points, is the one before the
    call. *)
Theorem evaluations_check_preconditions_first (s : Surface) :
  (outcome evaluate s = Err PreconditionNotMet ↔ not_configured s) ∧
  (outcome evaluate_rational s = Err PreconditionNotMet ↔ not_configured s) ∧
  (not_configured s →
   evaluate s = (Err PreconditionNotMet, s) ∧
   evaluate_rational s = (Err PreconditionNotMet, s)).
Proof.
  assert (Hfail : _check_variables s = Err PreconditionNotMet →
    evaluate s = (Err PreconditionNotMet, s) ∧
    evaluate_rational s = (Err PreconditionNotMet, s)).
  { intros Hc. unfold evaluate, evaluate_rational. rewrite !bind_run.
    unfold reads. by rewrite Hc. }
  destruct (check_variables_spec s) as [[Hn Hc]|[Hn Hc]].
  - destruct (Hfail Hc) as [He Hr]. unfold outcome. rewrite He, Hr. done.
  - pose proof (evaluate_after_check s Hc) as He.
    pose proof (evaluate_rational_after_check s Hc) as Hr.
    split_and!; [split | split | done]; try done.
    + intros Heq. by rewrite Heq in He.
    + intros Heq. by rewrite Heq in Hr.
Qed.

End precondition.

(** ** The evaluation loops only append to the cache *)

Lemma for_each_collect {A} (xs : list A) (body : A → M unit)
    (f : A → res vec3) (s0 : Surface) :
  (∀ x acc, body x (with_SurfPts acc s0) =
     match f x with
     | Ok p => (Ok tt, with_SurfPts (acc ++ [p]) s0)
     | Err e => (Err e, with_SurfPts acc s0)
     end) →
  ∀ acc, for_each xs body (with_SurfPts acc s0) =
    ((collect xs f).1, with_SurfPts (acc ++ (collect xs f).2) s0).
Proof.
  intros Hb. induction xs as [|x xs IH]; intros acc; simpl.
  - by rewrite app_nil_r.
  - rewrite bind_run, Hb. destruct (f x) as [p|e]; simpl.
    + rewrite IH. destruct (collect xs f) as [r ps]. simpl.
      by rewrite <-app_assoc.
    + by rewrite app_nil_r.
Qed.

Lemma for_each_collect_rows {A} (vs : list A) (body : A → M unit)
    (row : A → res unit * list vec3) (s0 : Surface) :
  (∀ v acc, body v (with_SurfPts acc s0) =
     ((row v).1, with_SurfPts (acc ++ (row v).2) s0)) →
  ∀ acc, for_each vs body (with_SurfPts acc s0) =
    ((collect_rows vs row).1,
     with_SurfPts (acc ++ (collect_rows vs row).2) s0).
Proof.
  intros Hb. induction vs as [|v vs IH]; intros acc; simpl.
  - by rewrite app_nil_r.
  - rewrite bind_run, Hb. destruct (row v) as [[[]|e] ps]; simpl; [|done].
    rewrite IH. destruct (collect_rows vs row) as [r ps']. simpl.
    by rewrite <-app_assoc.
Qed.

Lemma collect_ext {A} (xs : list A) (f g : A → res vec3) :
  (∀ x, x ∈ xs → f x = g x) → collect xs f = collect xs g.
Proof.
  induction xs as [|x xs IH]; intros Hfg; simpl; [done|].
  rewrite <-(Hfg x) by constructor.
  rewrite IH; [done|]. intros y Hy. apply Hfg. by constructor.
Qed.

Lemma collect_rows_ext {A} (vs : list A) (f g : A → res unit * list vec3) :
  (∀ v, v ∈ vs → f v = g v) → collect_rows vs f = collect_rows vs g.
Proof.
  induction vs as [|v vs IH]; intros Hfg; simpl; [done|].
  rewrite <-(Hfg v) by constructor.
  rewrite IH; [done|]. intros y Hy. apply Hfg. by constructor.
Qed.

Section runs.
Context {U : Utilities}.

(** What [evaluate] does, in one equation: the check, then the cache is
    replaced by the samples of the loops. *)
Lemma evaluate_run (s : Surface) :
  evaluate s =
  match _check_variables s with
  | Err e => (Err e, s)
  | Ok _ => ((evaluate_samples s).1, with_SurfPts (evaluate_samples s).2 s)
  end.
Proof.
  unfold evaluate. rewrite bind_run. unfold reads at 1.
  destruct (_check_variables s) as [[]|e]; [|done].
  cbv beta iota. rewrite bind_run, reset_surface_run. cbv beta iota.
  rewrite bind_run. unfold get at 1. cbv beta iota.
  change (_mDelta (with_SurfPts [] s)) with (_mDelta s).
  rewrite (for_each_collect_rows _ _
    (λ v, match call (find_span (_mDegreeV s) (_mKnotVectorV s)
                        (_mCtrlPts_sizeV s) v) with
          | Err e => (Err e, [])
          | Ok span_v =>
              match call (basis_functions (_mDegreeV s) (_mKnotVectorV s)
                            span_v v) with
              | Err e => (Err e, [])
              | Ok basis_v =>
                  collect (frange 0%Qc 1%Qc (_mDelta s)) (λ u,
                    span_u ← call (find_span (_mDegreeU s) (_mKnotVectorU s)
                                     (_mCtrlPts_sizeU s) u);
                    basis_u ← call (basis_functions (_mDegreeU s)
                                      (_mKnotVectorU s) span_u u);
                    surface_point_sum (_mCtrlPts2D s) (_mDegreeU s)
                      (_mDegreeV s) basis_u basis_v span_u span_v)
              end
          end) s); [reflexivity|].
  intros v acc. rewrite bind_run. unfold get at 1. cbv beta iota.
  rewrite bind_run. unfold lift at 1. cbn [_mDegreeV _mKnotVectorV
    _mCtrlPts_sizeV _mDelta with_SurfPts].
  destruct (call (find_span _ _ _ v)) as [span_v|e];
    [|by rewrite app_nil_r].
  cbv beta iota. rewrite bind_run. unfold lift at 1.
  destruct (call (basis_functions _ _ span_v v)) as [basis_v|e];
    [|by rewrite app_nil_r].
  cbv beta iota. apply for_each_collect. clear acc. intros u acc.
  rewrite bind_run. unfold get at 1. cbv beta iota.
  rewrite bind_run. unfold lift at 1. cbn [_mDegreeU _mDegreeV _mKnotVectorU
    _mCtrlPts_sizeU _mCtrlPts2D with_SurfPts].
  destruct (call (find_span _ _ _ u)) as [span_u|e]; [|reflexivity].
  cbv beta iota. rewrite bind_run. unfold lift at 1.
  destruct (call (basis_functions _ _ span_u u)) as [basis_u|e] eqn:Eb;
    [|by simpl; rewrite Eb].
  cbv beta iota. rewrite bind_run. unfold lift at 1. simpl. rewrite Eb. simpl.
  by destruct (surface_point_sum _ _ _ _ _ _ _).
Qed.

(** The same for [evaluate_rational]: the check, the cache emptied, the
    weighted control points, then the samples. *)
Lemma evaluate_rational_run (s : Surface) :
  evaluate_rational s =
  match _check_variables s with
  | Err e => (Err e, s)
  | Ok _ =>
      match weighted_ctrlpts s with
      | Err e => (Err e, with_SurfPts [] s)
      | Ok ctrlptsw =>
          ((rational_samples s ctrlptsw).1,
           with_SurfPts (rational_samples s ctrlptsw).2 s)
      end
  end.
Proof.
  unfold evaluate_rational. rewrite bind_run. unfold reads at 1.
  destruct (_check_variables s) as [[]|e]; [|done].
  cbv beta iota. rewrite bind_run, reset_surface_run. cbv beta iota.
  rewrite bind_run. unfold reads at 1.
  change (weighted_ctrlpts (with_SurfPts [] s)) with (weighted_ctrlpts s).
  destruct (weighted_ctrlpts s) as [W|e]; [|done].
  cbv beta iota. rewrite bind_run. unfold get at 1. cbv beta iota.
  change (_mDelta (with_SurfPts [] s)) with (_mDelta s).
  rewrite (for_each_collect_rows _ _
    (λ v, match call (find_span (_mDegreeV s) (_mKnotVectorV s)
                        (_mCtrlPts_sizeV s) v) with
          | Err e => (Err e, [])
          | Ok span_v =>
              match call (basis_functions (_mDegreeV s) (_mKnotVectorV s)
                            span_v v) with
              | Err e => (Err e, [])
              | Ok basis_v =>
                  collect (frange 0%Qc 1%Qc (_mDelta s)) (λ u,
                    span_u ← call (find_span (_mDegreeU s) (_mKnotVectorU s)
                                     (_mCtrlPts_sizeU s) u);
                    basis_u ← call (basis_functions (_mDegreeU s)
                                      (_mKnotVectorU s) span_u u);
                    surfptw ← surface_pointw_sum W (_mDegreeU s)
                                (_mDegreeV s) basis_u basis_v span_u span_v;
                    project surfptw)
              end
          end) s); [reflexivity|].
  intros v acc. rewrite bind_run. unfold get at 1. cbv beta iota.
  rewrite bind_run. unfold lift at 1. cbn [_mDegreeV _mKnotVectorV
    _mCtrlPts_sizeV _mDelta with_SurfPts].
  destruct (call (find_span _ _ _ v)) as [span_v|e];
    [|by rewrite app_nil_r].
  cbv beta iota. rewrite bind_run. unfold lift at 1.
  destruct (call (basis_functions _ _ span_v v)) as [basis_v|e];
    [|by rewrite app_nil_r].
  cbv beta iota. apply for_each_collect. clear acc. intros u acc.
  rewrite bind_run. unfold get at 1. cbv beta iota.
  rewrite bind_run. unfold lift at 1. cbn [_mDegreeU _mDegreeV _mKnotVectorU
    _mCtrlPts_sizeU _mCtrlPts2D with_SurfPts].
  destruct (call (find_span _ _ _ u)) as [span_u|e]; [|reflexivity].
  cbv beta iota. rewrite bind_run. unfold lift at 1.
  destruct (call (basis_functions _ _ span_u u)) as [basis_u|e] eqn:Eb;
    [|by simpl; rewrite Eb].
  cbv beta iota. rewrite bind_run. unfold lift at 1. simpl. rewrite Eb. simpl.
  destruct (surface_pointw_sum _ _ _ _ _ _ _) as [w|e]; [|done].
  cbv beta iota. rewrite bind_run. unfold lift at 1. simpl.
  by destruct (project w).
Qed.

(** C9.  [evaluate] run a second time, with no call in between, ends the
    same way and leaves the same state, the same cached points in the same
    order included: the second run clears the cache and computes the points
    again from the unchanged configuration.  This holds for every state,
    also when the run ends with an exception. *)
Theorem evaluate_twice (s : Surface) :
  evaluate (exec evaluate s) = evaluate s ∧
  _mSurfPts (exec evaluate (exec evaluate s)) = _mSurfPts (exec evaluate s).
Proof.
  assert (H : evaluate (exec evaluate s) = evaluate s).
  { unfold exec. rewrite (evaluate_run s).
    destruct (_check_variables s) as [[]|e] eqn:Hc; simpl.
    - rewrite evaluate_run.
      change (_check_variables (with_SurfPts (evaluate_samples s).2 s))
        with (_check_variables s).
      rewrite Hc. reflexivity.
    - by rewrite evaluate_run, Hc. }
  split; [done|]. unfold exec at 1. by rewrite H.
Qed.

End runs.

(** ** A failed assignment of control points *)

Lemma reset_ctrlpts_run (s : Surface) :
  _reset_ctrlpts s = (Ok tt, cleared_ctrlpts s).
Proof.
  unfold _reset_ctrlpts, cleared_ctrlpts. rewrite bind_run. simpl.
  by destruct (_mCtrlPts s).
Qed.

Lemma cleared_ctrlpts_empty (s : Surface) : _mCtrlPts (cleared_ctrlpts s) = [].
Proof. unfold cleared_ctrlpts. by destruct (_mCtrlPts s) eqn:E. Qed.

(** The coordinates of a row are appended up to the first one that is
    refused. *)
Lemma append_coords_run (coords : list (list Qc)) (l : list pyval) s1 :
  ∃ pre suf r,
    coords = pre ++ suf ∧
    append_coords coords (with_CtrlPts l s1)
      = (r, with_CtrlPts (l ++ (point_val <$> pre)) s1) ∧
    ((r = Ok tt ∧ suf = []) ∨ r = Err (ValueError msg_3d)).
Proof.
  unfold append_coords. revert l.
  induction coords as [|c coords IH]; intros l; simpl.
  - exists [], [], (Ok tt). simpl. rewrite app_nil_r. split_and!; auto.
  - rewrite bind_run. case_decide.
    + exists [], (c :: coords), (Err (ValueError msg_3d)).
      simpl. rewrite app_nil_r. split_and!; auto.
    + simpl. destruct (IH (l ++ [point_val c])) as (pre & suf & r & -> & Hr & Ho).
      exists (c :: pre), suf, r. split_and!; [done | | done].
      change (with_CtrlPts (l ++ [point_val c]) (with_CtrlPts l s1))
        with (with_CtrlPts (l ++ [point_val c]) s1).
      rewrite Hr. by rewrite fmap_cons, <-app_assoc.
Qed.

(** The rows are appended up to the first row or coordinate that is refused;
    a run that ends with an exception ends with a [ValueError]. *)
Lemma append_rows_run (rows : list (list (list Qc))) (n : Z)
    (l : list pyval) s1 :
  ∃ pre suf r,
    concat rows = pre ++ suf ∧
    append_rows rows n (with_CtrlPts l s1)
      = (r, with_CtrlPts (l ++ (point_val <$> pre)) s1) ∧
    ((∃ k, r = Ok k ∧ suf = []) ∨ (∃ m, r = Err (ValueError m))).
Proof.
  unfold append_rows. revert n l.
  induction rows as [|row rows IH]; intros n l; simpl.
  - exists [], [], (Ok n). simpl. rewrite app_nil_r. split_and!; eauto.
  - rewrite !bind_run. unfold get at 1. cbv beta iota.
    change (_mDegreeU (with_CtrlPts l s1)) with (_mDegreeU s1).
    case_decide.
    + exists [], (row ++ concat rows), (Err (ValueError msg_ctrlpts_u)).
      simpl. rewrite app_nil_r. split_and!; eauto.
    + rewrite bind_run.
      destruct (append_coords_run row l s1)
        as (pre & suf & r & -> & -> & [ [ -> -> ] | -> ]).
      * cbv beta iota. unfold mret at 1, M_ret at 1. cbv beta iota.
        destruct (IH (n + 1) (l ++ (point_val <$> pre)))
          as (pre' & suf' & r' & Hc & Hr & Ho).
        exists (pre ++ pre'), suf', r'. rewrite app_nil_r.
        split_and!; [by rewrite Hc, app_assoc | | done].
        rewrite Hr. by rewrite fmap_app, app_assoc.
      * exists pre, (suf ++ concat rows), (Err (ValueError msg_3d)).
        split_and!; [by rewrite app_assoc | done | eauto].
Qed.







(** ** The normal of the flat bilinear patch *)

(** C4 (a defect of the code).  The claim: on the flat bilinear patch the
    normalized normal is the same vector at every admissible interior
    parameter pair.  [normal] crosses [der_u - point] and [der_v - point]
    instead of the two derivatives, so its result depends on the point: with
    the helpers of the specification it is (0, 0, -1) at (1/4, 1/4) and
    (0, 0, 1) at (3/4, 3/4), and at (1/2, 1/2) the two vectors are parallel
    and the normalization fails.  The derivatives that [tangent] returns
    are (0, 1, 0) and (1, 0, 0) at all three points: their cross product is
    (0, 0, -1) everywhere. *)
Theorem normal_of_bilinear_patch_varies :
  let s := @bilinear_patch spec_utilities in
  @normal spec_utilities s q14 q14 true = Ok (0, 0, -1)%Qc ∧
  @normal spec_utilities s q34 q34 true = Ok (0, 0, 1)%Qc ∧
  @normal spec_utilities s half half true
    = Err (UtilitiesError DegenerateNormal) ∧
  @tangent spec_utilities s q14 q14
    = Ok ((q14, q14, 0), (0, 1, 0), (1, 0, 0))%Qc ∧
  @tangent spec_utilities s q34 q34
    = Ok ((q34, q34, 0), (0, 1, 0), (1, 0, 0))%Qc ∧
  @tangent spec_utilities s half half
    = Ok ((half, half, 0), (0, 1, 0), (1, 0, 0))%Qc ∧
  spec_cross_vector (0, 1, 0)%Qc (1, 0, 0)%Qc = Ok (0, 0, -1)%Qc.
Proof. intros s. split_and!; compute_done. Qed.

(** ** Indexing, assignment and loops: inversion lemmas *)

Lemma bind_Ok {A B} (m : res A) (f : A → res B) (b : B) :
  m ≫= f = Ok b → ∃ a, m = Ok a ∧ f a = Ok b.
Proof. destruct m as [a|e]; [by exists a | done]. Qed.

Lemma call_Ok {A} (r : ures A) (a : A) : call r = Ok a → r = Ok a.
Proof. destruct r; simpl; congruence. Qed.

Lemma py_index_nonneg {A} (l : list A) (i : Z) (x : A) :
  0 ≤ i → py_index l i = Ok x ↔ l !! Z.to_nat i = Some x.
Proof.
  intros Hi. unfold py_index. cbv zeta.
  destruct (decide (i < 0)); [lia|]. destruct (decide (i < 0)); [lia|].
  destruct (l !! Z.to_nat i); split; congruence.
Qed.

Lemma py_setitem_nonneg {A} (l l' : list A) (i : Z) (x : A) :
  0 ≤ i → py_setitem l i x = Ok l' →
  l' = <[Z.to_nat i := x]> l ∧ (Z.to_nat i < length l)%nat.
Proof.
  intros Hi. unfold py_setitem, len. cbv zeta.
  destruct (decide (i < 0)); [lia|].
  case_decide; [|done]. intros [= <-]. split; [done | lia].
Qed.

Lemma setitem2_nonneg {A} (t t' : list (list A)) (k l : Z) (x : A) :
  0 ≤ k → 0 ≤ l → setitem2 t k l x = Ok t' →
  ∃ row, t !! Z.to_nat k = Some row ∧ (Z.to_nat l < length row)%nat ∧
         t' = <[Z.to_nat k := <[Z.to_nat l := x]> row]> t.
Proof.
  intros Hk Hl. unfold setitem2. intros H.
  apply bind_Ok in H as (row & Hrow & H).
  apply bind_Ok in H as (row' & Hrow' & H).
  apply py_index_nonneg in Hrow; [|done].
  apply py_setitem_nonneg in Hrow' as [-> ?]; [|done].
  apply py_setitem_nonneg in H as [-> ?]; [|done].
  by exists row.
Qed.

Lemma setitem2_get00 {A} (t t' : list (list A)) (x : A) :
  setitem2 t 0 0 x = Ok t' → get00 t' = Some x.
Proof.
  intros H. apply setitem2_nonneg in H as (row & Hrow & Hlen & ->); [|done..].
  unfold get00. change (Z.to_nat 0) with 0%nat in *.
  rewrite list_lookup_insert_eq by (by eapply lookup_lt_Some).
  simpl. by rewrite list_lookup_insert_eq.
Qed.

Lemma setitem2_frame00 {A} (t t' : list (list A)) (k l : Z) (x : A) :
  0 ≤ k → 0 ≤ l → k ≠ 0 ∨ l ≠ 0 →
  setitem2 t k l x = Ok t' → get00 t' = get00 t.
Proof.
  intros Hk Hl Hkl H.
  apply setitem2_nonneg in H as (row & Hrow & Hlen & ->); [|done..].
  unfold get00. destruct (decide (k = 0)) as [->|Hk0].
  - change (Z.to_nat 0) with 0%nat in *.
    rewrite list_lookup_insert_eq by (by eapply lookup_lt_Some).
    rewrite Hrow. simpl.
    rewrite list_lookup_insert_ne; [done | lia].
  - rewrite list_lookup_insert_ne; [done | lia].
Qed.

(** An invariant of the rounds of a loop holds when the loop is left
    normally. *)
Lemma for_loop_invariant {E A S} (I : S → Prop) (xs : list A)
    (body : A → S → result E S) (st st' : S) :
  (∀ x st st', x ∈ xs → I st → body x st = Ok st' → I st') →
  I st → for_loop xs body st = Ok st' → I st'.
Proof.
  revert st. induction xs as [|x xs IH]; intros st Hb Hst; simpl.
  - by intros [= <-].
  - destruct (body x st) as [st1|e] eqn:E1; [|done]. intros H.
    eapply (IH st1); [|by eapply Hb; [constructor|..]|done].
    intros y s1 s2 Hy. apply Hb. by constructor.
Qed.

(** ** The order-0 entry of the table of derivatives *)

Section order0.
Variables (ctrl2d : list (list pyval)) (bfunsders_u bfunsders_v : list (list Qc)).
Variables (basis_u basis_v : list Qc) (degU degV span_u span_v : Z).
Hypothesis Hrow_u : py_index bfunsders_u 0 = Ok basis_u.
Hypothesis Hrow_v : py_index bfunsders_v 0 = Ok basis_v.

(** The sum [evaluate] accumulates in [temp] for the window row [l]. *)
Local Abbreviation row_sum l :=
  (temp_sum ctrl2d degU basis_u (span_u - degU) (span_v - degV + l)).

Lemma ders_u_step_sim (r s_ cu cv : Z) (c : nat) (temp temp' : list vec3) t :
  0 ≤ s_ → temp !! Z.to_nat s_ = Some t →
  ders_u_step ctrl2d bfunsders_u 0 r s_ cu cv c temp = Ok temp' →
  ∃ b x, py_index basis_u r = Ok b ∧ ctrl_term ctrl2d b cu cv c = Ok x ∧
         temp' = <[Z.to_nat s_ := iadd3 c t x]> temp.
Proof.
  intros Hs Ht. unfold ders_u_step. intros H.
  apply bind_Ok in H as (t0 & Ht0 & H).
  apply py_index_nonneg in Ht0; [|done]. rewrite Ht in Ht0. injection Ht0 as <-.
  apply bind_Ok in H as (bk & Hbk & H).
  rewrite Hrow_u in Hbk. injection Hbk as <-.
  apply bind_Ok in H as (b & Hb & H).
  apply bind_Ok in H as (x & Hx & H).
  apply py_setitem_nonneg in H as [-> _]; [|done].
  by exists b, x.
Qed.

Lemma ders_temp_step_sim (s_ r : Z) (temp temp' : list vec3) t :
  0 ≤ s_ → temp !! Z.to_nat s_ = Some t →
  ders_temp_step ctrl2d bfunsders_u degU degV span_u span_v 0 s_ r temp
    = Ok temp' →
  ∃ t', temp_step ctrl2d basis_u (span_u - degU) (span_v - degV + s_) r t
          = Ok t' ∧
        temp' = <[Z.to_nat s_ := t']> temp.
Proof.
  intros Hs Ht. unfold ders_temp_step. cbv zeta. intros H.
  assert (Hlen : (Z.to_nat s_ < length temp)%nat) by by eapply lookup_lt_Some.
  apply bind_Ok in H as (temp1 & H1 & H).
  destruct (ders_u_step_sim _ _ _ _ _ _ _ _ Hs Ht H1)
    as (b1 & x1 & Hb1 & Hx1 & ->).
  apply bind_Ok in H as (temp2 & H2 & H).
  assert (Ht1 : <[Z.to_nat s_ := iadd3 0 t x1]> temp !! Z.to_nat s_
                = Some (iadd3 0 t x1)) by by apply list_lookup_insert_eq.
  destruct (ders_u_step_sim _ _ _ _ _ _ _ _ Hs Ht1 H2)
    as (b2 & x2 & Hb2 & Hx2 & ->).
  rewrite list_insert_insert_eq in H.
  assert (Ht2 : <[Z.to_nat s_ := iadd3 1 (iadd3 0 t x1) x2]> temp
                  !! Z.to_nat s_
                = Some (iadd3 1 (iadd3 0 t x1) x2))
    by by apply list_lookup_insert_eq.
  destruct (ders_u_step_sim _ _ _ _ _ _ _ _ Hs Ht2 H)
    as (b3 & x3 & Hb3 & Hx3 & ->).
  exists (iadd3 2 (iadd3 1 (iadd3 0 t x1) x2) x3). split.
  - rewrite Hb1 in Hb2, Hb3. injection Hb2 as <-. injection Hb3 as <-.
    unfold temp_step. rewrite Hb1. simpl. rewrite Hx1. simpl.
    rewrite Hx2. simpl. rewrite Hx3. done.
  - by rewrite !list_insert_insert_eq.
Qed.

Lemma ders_temp_loop_sim (s_ : Z) (rs : list Z) (temp temp' : list vec3) t :
  0 ≤ s_ → temp !! Z.to_nat s_ = Some t →
  for_loop rs
    (ders_temp_step ctrl2d bfunsders_u degU degV span_u span_v 0 s_) temp
    = Ok temp' →
  ∃ t', for_loop rs
          (temp_step ctrl2d basis_u (span_u - degU) (span_v - degV + s_)) t
          = Ok t' ∧
        temp' = <[Z.to_nat s_ := t']> temp.
Proof.
  intros Hs. revert temp t. induction rs as [|r rs IH]; intros temp t Ht; simpl.
  - intros [= <-]. exists t. split; [done|]. by rewrite list_insert_id.
  - destruct (ders_temp_step _ _ _ _ _ _ _ _ r temp) as [temp1|e] eqn:E1;
      [|done].
    destruct (ders_temp_step_sim _ _ _ _ _ Hs Ht E1) as (t1 & -> & ->).
    intros H.
    assert (Ht1 : <[Z.to_nat s_ := t1]> temp !! Z.to_nat s_ = Some t1).
    { apply list_lookup_insert_eq. by eapply lookup_lt_Some. }
    destruct (IH _ _ Ht1 H) as (t' & -> & ->).
    exists t'. split; [done|]. by rewrite list_insert_insert_eq.
Qed.

Lemma ders_temp_row_sim (s_ : Z) (temp temp' : list vec3) :
  0 ≤ s_ →
  ders_temp_row ctrl2d bfunsders_u degU degV span_u span_v 0 s_ temp
    = Ok temp' →
  ∃ t', row_sum s_ = Ok t' ∧ temp' = <[Z.to_nat s_ := t']> temp ∧
        (Z.to_nat s_ < length temp)%nat.
Proof.
  intros Hs. unfold ders_temp_row. intros H.
  apply bind_Ok in H as (temp1 & H1 & H).
  apply py_setitem_nonneg in H1 as [-> Hlen]; [|done].
  assert (Ht0 : <[Z.to_nat s_ := zero3]> temp !! Z.to_nat s_ = Some zero3)
    by by apply list_lookup_insert_eq.
  destruct (ders_temp_loop_sim _ _ _ _ _ Hs Ht0 H) as (t' & Ht' & ->).
  exists t'. split_and!; [done | | done]. by rewrite list_insert_insert_eq.
Qed.

(** After the first loop over [s] of round [k = 0], [temp[s]] holds the sum
    [evaluate] computes for the window row [s]. *)
Lemma ders_temp_rows_sim (ss : list Z) (temp temp' : list vec3) :
  NoDup ss → (∀ j, j ∈ ss → 0 ≤ j) →
  for_loop ss
    (ders_temp_row ctrl2d bfunsders_u degU degV span_u span_v 0) temp
    = Ok temp' →
  (∀ j, j ∈ ss → ∃ t, row_sum j = Ok t ∧ temp' !! Z.to_nat j = Some t) ∧
  (∀ n, (∀ j, j ∈ ss → Z.to_nat j ≠ n) → temp' !! n = temp !! n).
Proof.
  revert temp. induction ss as [|x ss IH]; intros temp Hnd Hpos; simpl.
  - intros [= <-]. split; [by intros j Hj%elem_of_nil | done].
  - apply NoDup_cons in Hnd as [Hx Hnd].
    destruct (ders_temp_row _ _ _ _ _ _ _ x temp) as [temp1|e] eqn:E1; [|done].
    assert (Hx0 : 0 ≤ x) by (apply Hpos; constructor).
    destruct (ders_temp_row_sim _ _ _ Hx0 E1) as (tx & Hsum & -> & Hlen).
    intros H. apply IH in H as [Hin Hout]; [|done|intros; apply Hpos; by constructor].
    split.
    + intros j [->|Hj]%elem_of_cons; [|by apply Hin].
      exists tx. split; [done|]. rewrite Hout.
      * by apply list_lookup_insert_eq.
      * intros j Hj Heq. apply Hx.
        assert (0 ≤ j) by (apply Hpos; by constructor).
        assert (0 ≤ x) by (apply Hpos; constructor).
        by replace x with j by lia.
    + intros n Hn. rewrite Hout.
      * apply list_lookup_insert_ne. apply Hn. constructor.
      * intros j Hj. apply Hn. by constructor.
Qed.

Lemma ders_v_step_sim (s_ : Z) (c : nat) (temp : list vec3)
    (SKL SKL' : list (list vec3)) t e :
  0 ≤ s_ → temp !! Z.to_nat s_ = Some t → get00 SKL = Some e →
  ders_v_step bfunsders_v temp 0 0 s_ c SKL = Ok SKL' →
  ∃ b, py_index basis_v s_ = Ok b ∧
       get00 SKL' = Some (iadd3 c e (b * get3 c t)%Qc).
Proof.
  intros Hs Ht He. unfold ders_v_step. intros H.
  apply bind_Ok in H as (row & Hrow & H).
  apply bind_Ok in H as (e0 & He0 & H).
  apply py_index_nonneg in Hrow; [|done]. apply py_index_nonneg in He0; [|done].
  unfold get00 in He. change (Z.to_nat 0) with 0%nat in *.
  rewrite Hrow in He. simpl in He. rewrite He0 in He. injection He as ->.
  apply bind_Ok in H as (bl & Hbl & H).
  rewrite Hrow_v in Hbl. injection Hbl as <-.
  apply bind_Ok in H as (b & Hb & H).
  apply bind_Ok in H as (t0 & Ht0 & H).
  apply py_index_nonneg in Ht0; [|done]. rewrite Ht in Ht0. injection Ht0 as <-.
  apply setitem2_get00 in H. by exists b.
Qed.

Lemma ders_skl_step_sim (s_ : Z) (temp : list vec3)
    (SKL SKL' : list (list vec3)) t e :
  0 ≤ s_ → temp !! Z.to_nat s_ = Some t → row_sum s_ = Ok t →
  get00 SKL = Some e →
  ders_skl_step bfunsders_v temp 0 0 s_ SKL = Ok SKL' →
  ∃ e', surfpt_step ctrl2d degU degV basis_u basis_v span_u span_v s_ e
          = Ok e' ∧
        get00 SKL' = Some e'.
Proof.
  intros Hs Ht Hsum He. unfold ders_skl_step. intros H.
  apply bind_Ok in H as (SKL1 & H1 & H).
  destruct (ders_v_step_sim _ _ _ _ _ _ _ Hs Ht He H1) as (b1 & Hb1 & He1).
  apply bind_Ok in H as (SKL2 & H2 & H).
  destruct (ders_v_step_sim _ _ _ _ _ _ _ Hs Ht He1 H2) as (b2 & Hb2 & He2).
  destruct (ders_v_step_sim _ _ _ _ _ _ _ Hs Ht He2 H) as (b3 & Hb3 & He3).
  rewrite Hb1 in Hb2, Hb3. injection Hb2 as <-. injection Hb3 as <-.
  eexists. split; [|exact He3].
  unfold surfpt_step. cbv zeta. rewrite Hsum. simpl.
  rewrite Hb1. done.
Qed.

Lemma ders_skl_loop_sim (ss : list Z) (temp : list vec3)
    (SKL SKL' : list (list vec3)) e :
  (∀ j, j ∈ ss → 0 ≤ j ∧ ∃ t, row_sum j = Ok t ∧ temp !! Z.to_nat j = Some t) →
  get00 SKL = Some e →
  for_loop ss (ders_skl_step bfunsders_v temp 0 0) SKL = Ok SKL' →
  ∃ e', for_loop ss
          (surfpt_step ctrl2d degU degV basis_u basis_v span_u span_v) e
          = Ok e' ∧
        get00 SKL' = Some e'.
Proof.
  revert SKL e. induction ss as [|x ss IH]; intros SKL e Hss He; simpl.
  - intros [= <-]. by exists e.
  - destruct (ders_skl_step _ _ _ _ x SKL) as [SKL1|err] eqn:E1; [|done].
    destruct (Hss x) as (Hx & t & Hsum & Ht); [constructor|].
    destruct (ders_skl_step_sim _ _ _ _ _ _ Hx Ht Hsum He E1)
      as (e1 & -> & He1).
    intros H.
    assert (Hss' : ∀ j, j ∈ ss → 0 ≤ j ∧
              ∃ t, row_sum j = Ok t ∧ temp !! Z.to_nat j = Some t).
    { intros j Hj. apply Hss. by constructor. }
    destruct (IH _ _ Hss' He1 H) as (e' & He' & Hg). by exists e'.
Qed.

End order0.

(** The rounds other than [k = 0], [l = 0] leave [SKL[0][0]] alone. *)
Lemma ders_v_step_frame bfunsders_v temp (k l s_ : Z) (c : nat)
    (SKL SKL' : list (list vec3)) :
  0 ≤ k → 0 ≤ l → k ≠ 0 ∨ l ≠ 0 →
  ders_v_step bfunsders_v temp k l s_ c SKL = Ok SKL' →
  get00 SKL' = get00 SKL.
Proof.
  intros Hk Hl Hkl. unfold ders_v_step. intros H.
  apply bind_Ok in H as (row & _ & H). apply bind_Ok in H as (e & _ & H).
  apply bind_Ok in H as (bl & _ & H). apply bind_Ok in H as (b & _ & H).
  apply bind_Ok in H as (t & _ & H).
  exact (setitem2_frame00 _ _ _ _ _ Hk Hl Hkl H).
Qed.

Lemma ders_skl_loop_frame bfunsders_v temp (k l : Z) (ss : list Z)
    (SKL SKL' : list (list vec3)) :
  0 ≤ k → 0 ≤ l → k ≠ 0 ∨ l ≠ 0 →
  for_loop ss (ders_skl_step bfunsders_v temp k l) SKL = Ok SKL' →
  get00 SKL' = get00 SKL.
Proof.
  intros Hk Hl Hkl Hloop.
  eapply (for_loop_invariant (λ S, get00 S = get00 SKL));
    [|done|exact Hloop].
  intros s_ S S' _ HS. unfold ders_skl_step. intros H.
  apply bind_Ok in H as (S1 & H1 & H). apply bind_Ok in H as (S2 & H2 & H).
  pose proof (ders_v_step_frame _ _ _ _ _ _ _ _ Hk Hl Hkl H1).
  pose proof (ders_v_step_frame _ _ _ _ _ _ _ _ Hk Hl Hkl H2).
  pose proof (ders_v_step_frame _ _ _ _ _ _ _ _ Hk Hl Hkl H). congruence.
Qed.

Lemma ders_l_loop_frame bfunsders_v temp degV (k : Z) (ls : list Z)
    (SKL SKL' : list (list vec3)) :
  0 ≤ k → (∀ l, l ∈ ls → 0 ≤ l ∧ (k ≠ 0 ∨ l ≠ 0)) →
  for_loop ls (λ l SKL,
    for_loop (range 0 (degV + 1)) (ders_skl_step bfunsders_v temp k l) SKL)
    SKL = Ok SKL' →
  get00 SKL' = get00 SKL.
Proof.
  intros Hk Hls Hloop.
  eapply (for_loop_invariant (λ S, get00 S = get00 SKL));
    [|done|exact Hloop].
  intros l S S' Hl HS H. destruct (Hls l Hl) as [Hl0 Hkl].
  pose proof (ders_skl_loop_frame _ _ _ _ _ _ _ Hk Hl0 Hkl H). congruence.
Qed.

Lemma ders_k_step_frame ctrl2d bfunsders_u bfunsders_v
    degU degV span_u span_v order dv (k : Z) (SKL SKL' : list (list vec3)) :
  1 ≤ k →
  ders_k_step ctrl2d bfunsders_u bfunsders_v degU degV span_u span_v order dv
    k SKL = Ok SKL' →
  get00 SKL' = get00 SKL.
Proof.
  intros Hk. unfold ders_k_step. cbv zeta. intros H.
  apply bind_Ok in H as (temp & _ & H).
  eapply ders_l_loop_frame; [| |exact H]; [lia|].
  intros l Hl. unfold range in Hl. apply elem_of_seqZ in Hl. lia.
Qed.

Lemma get00_replicate {A} (n m : nat) (x : A) :
  (0 < n)%nat → (0 < m)%nat → get00 (replicate n (replicate m x)) = Some x.
Proof.
  intros Hn Hm. unfold get00.
  rewrite lookup_replicate_2 by done. simpl. by rewrite lookup_replicate_2.
Qed.

Lemma range_cons (n : Z) : 0 ≤ n → range 0 (n + 1) = 0 :: seqZ 1 n.
Proof.
  intros Hn. unfold range. rewrite seqZ_cons by lia.
  f_equal. f_equal; lia.
Qed.

Lemma range_NoDup_nonneg (n : Z) :
  NoDup (range 0 n) ∧ ∀ j, j ∈ range 0 n → 0 ≤ j.
Proof.
  unfold range. split; [apply NoDup_seqZ|].
  intros j Hj%elem_of_seqZ. lia.
Qed.

Section derivatives_order0.
Context {U : Utilities}.

(** C8.  For nonnegative degrees and a nonnegative order, whenever
    [derivatives(u, v, order)] returns a table, its entry [[0][0]] is the
    point the double summation of [evaluate] computes at the same [(u, v)],
    and that summation succeeds.  The property relies on the contract that
    row 0 of the table [basis_functions_ders] returns is the list
    [basis_functions] returns. *)
Theorem derivatives_order0_is_surface_point
    (s : Surface) (u v : Qc) (order : Z) (skl : list (list vec3)) :
  0 ≤ order → 0 ≤ _mDegreeU s → 0 ≤ _mDegreeV s →
  ders_row0_is_basis (_mDegreeU s) (_mKnotVectorU s) (_mCtrlPts_sizeU s) u
    (Z.min (_mDegreeU s) order) →
  ders_row0_is_basis (_mDegreeV s) (_mKnotVectorV s) (_mCtrlPts_sizeV s) v
    (Z.min (_mDegreeV s) order) →
  derivatives s u v order = Ok skl →
  ∃ p, surface_point s u v = Ok p ∧
       (row ← py_index skl 0; py_index row 0) = Ok p.
Proof.
  intros Hord HdU HdV HcU HcV. unfold derivatives. cbv zeta. intros H.
  apply bind_Ok in H as ([] & _ & H). apply bind_Ok in H as ([] & _ & H).
  apply bind_Ok in H as (span_u & Hsu%call_Ok & H).
  apply bind_Ok in H as (bdu & Hbdu%call_Ok & H).
  apply bind_Ok in H as (span_v & Hsv%call_Ok & H).
  apply bind_Ok in H as (bdv & Hbdv%call_Ok & H).
  destruct (HcU _ _ Hsu Hbdu) as (bu & Hbu & Hrow_u).
  destruct (HcV _ _ Hsv Hbdv) as (bv & Hbv & Hrow_v).
  set (du := Z.min (_mDegreeU s) order) in *.
  set (dv := Z.min (_mDegreeV s) order) in *.
  assert (Hdu : 0 ≤ du) by lia. assert (Hdv : 0 ≤ dv) by lia.
  rewrite (range_cons du) in H by done. simpl in H.
  destruct (ders_k_step _ _ _ _ _ _ _ _ _ 0 _) as [SKL1|e] eqn:Hk0; [|done].
  (* the rounds k >= 1 *)
  assert (Hrest : get00 skl = get00 SKL1).
  { eapply (for_loop_invariant (λ S, get00 S = get00 SKL1));
      [|done|exact H].
    intros k S S' Hk%elem_of_seqZ HS HS'.
    apply ders_k_step_frame in HS'; [congruence | lia]. }
  (* the round k = 0 *)
  unfold ders_k_step in Hk0. cbv zeta in Hk0.
  apply bind_Ok in Hk0 as (temp & Htemp & Hk0).
  destruct (range_NoDup_nonneg (_mDegreeV s + 1)) as [Hnd Hpos].
  destruct (ders_temp_rows_sim _ _ _ _ _ _ _ Hrow_u _ _ _ Hnd Hpos Htemp)
    as [Hrows _].
  replace (Z.min (order - 0) dv) with dv in Hk0 by lia.
  rewrite (range_cons dv) in Hk0 by done. simpl in Hk0.
  destruct (for_loop (range 0 (_mDegreeV s + 1))
              (ders_skl_step bdv temp 0 0) _) as [SKLa|e] eqn:Hl0; [|done].
  assert (Hl : get00 SKL1 = get00 SKLa).
  { eapply ders_l_loop_frame; [| |exact Hk0]; [done|].
    intros l Hl%elem_of_seqZ. lia. }
  eapply ders_skl_loop_sim in Hl0 as (p & Hp & Hget).
  - exists p. split.
    + unfold surface_point. rewrite Hsv. simpl. rewrite Hbv. simpl.
      rewrite Hsu. simpl. rewrite Hbu. simpl. exact Hp.
    + assert (Hfinal : get00 skl = Some p) by congruence.
      unfold get00 in Hfinal.
      destruct (skl !! 0%nat) as [row|] eqn:Hrow; simpl in Hfinal; [|done].
      apply (py_index_nonneg skl 0 row) in Hrow; [|done].
      rewrite Hrow. simpl. by apply py_index_nonneg.
  - exact Hrow_v.
  - intros j Hj. split; [by apply Hpos|]. by apply Hrows.
  - apply get00_replicate; lia.
Qed.

End derivatives_order0.

(** C8 at work: the table of first derivatives of the bilinear patch at
    (1/4, 3/4), with the helpers of the specification. *)
Lemma derivatives_order0_is_surface_point_witness :
  @derivatives spec_utilities (@bilinear_patch spec_utilities) q14 q34 1
    = Ok bilinear_skl ∧
  ∃ p, @surface_point spec_utilities (@bilinear_patch spec_utilities) q14 q34
         = Ok p ∧
       (row ← py_index bilinear_skl 0; py_index row 0) = Ok p.
Proof.
  split; [compute_done|].
  apply (@derivatives_order0_is_surface_point spec_utilities
           (@bilinear_patch spec_utilities) q14 q34 1 bilinear_skl).
  - lia.
  - compute_done.
  - compute_done.
  - intros span ders Hs Hd. vm_compute in Hs. injection Hs as <-.
    vm_compute in Hd. injection Hd as <-.
    exists [q34; q14]. split; compute_done.
  - intros span ders Hs Hd. vm_compute in Hs. injection Hs as <-.
    vm_compute in Hd. injection Hd as <-.
    exists [q14; q34]. split; compute_done.
  - compute_done.
Defined.

Section samples_are_points.
Context {U : Utilities}.

(** The points [evaluate] caches are the points [surface_point] describes:
    in each run of the inner loop, the point appended for [u] is
    [surface_point s u v]. *)
Lemma evaluate_samples_surface_point (s : Surface) :
  evaluate_samples s =
  collect_rows (frange 0%Qc 1%Qc (_mDelta s)) (λ v,
    match call (find_span (_mDegreeV s) (_mKnotVectorV s)
                  (_mCtrlPts_sizeV s) v) with
    | Err e => (Err e, [])
    | Ok span_v =>
        match call (basis_functions (_mDegreeV s) (_mKnotVectorV s)
                      span_v v) with
        | Err e => (Err e, [])
        | Ok _ =>
            collect (frange 0%Qc 1%Qc (_mDelta s)) (λ u, surface_point s u v)
        end
    end).
Proof.
  unfold evaluate_samples. apply collect_rows_ext. intros v _.
  destruct (call (find_span _ _ _ v)) as [span_v|e] eqn:Hsv; [|done].
  destruct (call (basis_functions _ _ span_v v)) as [basis_v|e] eqn:Hbv; [|done].
  apply collect_ext. intros u _. unfold surface_point.
  rewrite Hsv. simpl. rewrite Hbv. done.
Qed.

End samples_are_points.

(** ** Rational evaluation with unit weights *)

Lemma py_index_fmap {A B} (f : A → B) (l : list A) (i : Z) :
  py_index (f <$> l) i =
  match py_index l i with
  | Ok x => Ok (f x)
  | Err e => Err e
  end.
Proof.
  unfold py_index. cbv zeta. rewrite length_fmap.
  case_decide; [done|]. rewrite list_lookup_fmap. by destruct (l !! _).
Qed.

Lemma py_getitem_point3 (p : vec3) (c : nat) :
  (c < 3)%nat → py_getitem (point3 p) (Z.of_nat c) = Ok (PFloat (get3 c p)).
Proof.
  intros Hc. destruct p as [[x y] z].
  destruct c as [|[|[|c]]]; [done..|lia].
Qed.

Lemma ctrl_term_chunks (ch : list (list vec3)) (b : Qc) (i j : Z) (c : nat) :
  (c < 3)%nat →
  ctrl_term (fmap (M:=list) point3 <$> ch) b i j c =
  match cell ch i j with
  | Ok p => Ok (b * get3 c p)%Qc
  | Err e => Err e
  end.
Proof.
  intros Hc. unfold ctrl_term, cell. rewrite py_index_fmap.
  destruct (py_index ch i) as [row|e]; [|done].
  unfold mbind, res_bind. cbv beta iota. rewrite py_index_fmap.
  destruct (py_index row j) as [p|e]; [|done].
  by rewrite py_getitem_point3.
Qed.


Lemma temp_step_chunks (ch : list (list vec3)) (bu : list Qc) (iu iv k : Z)
    (t : vec3) :
  temp_step (fmap (M:=list) point3 <$> ch) bu iu iv k t =
  match py_index bu k with
  | Err e => Err e
  | Ok b =>
      match cell ch (iu + k) iv with
      | Err e => Err e
      | Ok p => Ok (iadd3 2 (iadd3 1 (iadd3 0 t (b * get3 0 p)%Qc)
                                (b * get3 1 p)%Qc) (b * get3 2 p)%Qc)
      end
  end.
Proof.
  unfold temp_step. destruct (py_index bu k) as [b|e]; [|done].
  unfold mbind, res_bind. cbv beta iota zeta.
  rewrite !ctrl_term_chunks by lia.
  by destruct (cell ch (iu + k) iv).
Qed.


Lemma py_index_default (b : list Qc) (k : Z) (x : Qc) :
  0 ≤ k → py_index b k = Ok x → default 0%Qc (b !! Z.to_nat k) = x.
Proof. intros Hk Hx%py_index_nonneg; [|done]. by rewrite Hx. Qed.




Lemma idx_sum_shift (x : Qc) (b : list Qc) (ks : list Z) :
  (∀ k, k ∈ ks → 0 ≤ k) →
  idx_sum (x :: b) (Z.add 1 <$> ks) = idx_sum b ks.
Proof.
  induction ks as [|k ks IH]; intros Hks; [done|].
  rewrite fmap_cons. unfold idx_sum in *. cbn [foldr].
  rewrite IH by (intros; apply Hks; by constructor).
  assert (0 ≤ k) by (apply Hks; constructor).
  by replace (Z.to_nat (1 + k)) with (S (Z.to_nat k)) by lia.
Qed.

Lemma idx_sum_all (b : list Qc) :
  idx_sum b (seqZ 0 (Z.of_nat (length b))) = sum_list b.
Proof.
  induction b as [|x b IH]; [done|].
  rewrite seqZ_cons by (simpl; lia).
  replace (Z.pred (Z.of_nat (length (x :: b)))) with (Z.of_nat (length b))
    by (simpl; lia).
  change (Z.succ 0) with (1 + 0). rewrite <-fmap_add_seqZ.
  change (idx_sum (x :: b) (0 :: ?l))
    with (default 0%Qc ((x :: b) !! Z.to_nat 0) + idx_sum (x :: b) l)%Qc.
  rewrite idx_sum_shift.
  - by rewrite IH.
  - intros k Hk%elem_of_seqZ. lia.
Qed.

Lemma idx_sum_unity (b : list Qc) (d : Z) :
  length b = Z.to_nat (d + 1) → sum_list b = 1%Qc →
  idx_sum b (range 0 (d + 1)) = 1%Qc.
Proof.
  intros Hlen Hsum. rewrite <-Hsum, <-idx_sum_all. unfold range. f_equal.
  destruct (decide (0 ≤ d + 1)).
  - f_equal. lia.
  - rewrite Hlen. rewrite !seqZ_nil by lia. done.
Qed.


Section weighted.
Variables (s : Surface) (pts : list vec3).
Hypothesis Hpts : _mCtrlPts s = point3 <$> pts.
Hypothesis Hweights :
  _mWeights s
    = replicate (Z.to_nat (_mCtrlPts_sizeU s * _mCtrlPts_sizeV s))
        (PFloat 1%Qc).





End weighted.

Section unit_weights.
Context {U : Utilities}.


End unit_weights.



(** ** A successful assignment of control points *)

Lemma append_coords_ok (row : list vec3) (l : list pyval) s1 :
  append_coords (coords3 <$> row) (with_CtrlPts l s1)
    = (Ok tt, with_CtrlPts (l ++ (point3 <$> row)) s1).
Proof.
  unfold append_coords. revert l.
  induction row as [|p row IH]; intros l.
  - simpl. by rewrite app_nil_r.
  - rewrite fmap_cons. cbn [for_each]. rewrite bind_run.
    destruct (decide (len (coords3 p) < 0 ∨ len (coords3 p) > 3)) as [Hbad|_].
    { unfold len in Hbad. simpl in Hbad. lia. }
    unfold modify at 1. cbv beta iota.
    change (with_CtrlPts (_mCtrlPts (with_CtrlPts l s1) ++ [point_val (coords3 p)])
              (with_CtrlPts l s1))
      with (with_CtrlPts (l ++ [point3 p]) s1).
    rewrite IH. by rewrite fmap_cons, <-app_assoc.
Qed.

Lemma append_rows_ok (grid : list (list vec3)) (n : Z) (l : list pyval) s1 :
  (∀ row, row ∈ grid → _mDegreeU s1 + 1 ≤ len row) →
  append_rows (fmap (M:=list) coords3 <$> grid) n (with_CtrlPts l s1)
    = (Ok (n + len grid), with_CtrlPts (l ++ (point3 <$> concat grid)) s1).
Proof.
  unfold append_rows. revert n l.
  induction grid as [|row grid IH]; intros n l Hrows.
  - simpl. rewrite app_nil_r. unfold len. simpl. by rewrite Z.add_0_r.
  - rewrite fmap_cons. cbn [for_fold]. rewrite !bind_run.
    unfold get at 1. cbv beta iota.
    change (_mDegreeU (with_CtrlPts l s1)) with (_mDegreeU s1).
    destruct (decide (len (coords3 <$> row) < _mDegreeU s1 + 1)) as [Hbad|_].
    { unfold len in Hbad. rewrite length_fmap in Hbad.
      specialize (Hrows row ltac:(constructor)). unfold len in Hrows. lia. }
    rewrite bind_run, append_coords_ok. cbv beta iota.
    unfold mret at 1, M_ret at 1. cbv beta iota.
    rewrite IH by (intros; apply Hrows; by constructor).
    f_equal.
    + f_equal. unfold len. simpl. lia.
    + by rewrite concat_cons, fmap_app, app_assoc.
Qed.

Lemma build_row_ok (i : Z) (m : nat) (j0 : Z) (acc : list pyval) st :
  0 ≤ j0 + i * _mCtrlPts_sizeV st →
  j0 + i * _mCtrlPts_sizeV st + Z.of_nat m ≤ len (_mCtrlPts st) →
  for_fold (seqZ j0 (Z.of_nat m)) (build_row_step i) acc st
    = (Ok (acc ++ take m (drop (Z.to_nat (j0 + i * _mCtrlPts_sizeV st))
                            (_mCtrlPts st))), st).
Proof.
  revert j0 acc. induction m as [|m IH]; intros j0 acc Hlo Hhi.
  - simpl. by rewrite app_nil_r.
  - rewrite seqZ_cons by lia. cbn [for_fold]. rewrite bind_run.
    unfold build_row_step at 1. rewrite bind_run. unfold get at 1.
    cbv beta iota. rewrite bind_run. unfold lift at 1.
    destruct (lookup_lt_is_Some_2 (_mCtrlPts st)
                (Z.to_nat (j0 + i * _mCtrlPts_sizeV st))) as [p Hp];
      [unfold len in Hhi; lia|].
    rewrite (proj2 (py_index_nonneg _ _ p Hlo) Hp). cbv beta iota.
    unfold mret at 1, M_ret at 1. cbv beta iota.
    replace (Z.pred (Z.of_nat (S m))) with (Z.of_nat m) by lia.
    rewrite IH by lia.
    rewrite (drop_S _ p _ Hp). cbn [take].
    replace (Z.to_nat (Z.succ j0 + i * _mCtrlPts_sizeV st))
      with (S (Z.to_nat (j0 + i * _mCtrlPts_sizeV st))) by lia.
    by rewrite <-app_assoc.
Qed.

Lemma build_rows_ok (k : nat) (a : Z) (view : list (list pyval)) st :
  0 ≤ a → 0 ≤ _mCtrlPts_sizeV st →
  (a + Z.of_nat k) * _mCtrlPts_sizeV st ≤ len (_mCtrlPts st) →
  for_each (seqZ a (Z.of_nat k)) build_rows_step (with_CtrlPts2D view st)
    = (Ok tt,
       with_CtrlPts2D
         (view ++ ((λ i, take (Z.to_nat (_mCtrlPts_sizeV st))
                           (drop (Z.to_nat (i * _mCtrlPts_sizeV st))
                              (_mCtrlPts st)))
                   <$> seqZ a (Z.of_nat k))) st).
Proof.
  intros Ha HV. revert a view Ha.
  induction k as [|k IH]; intros a view Ha Hlen.
  - simpl. by rewrite app_nil_r.
  - rewrite seqZ_cons by lia. cbn [for_each]. rewrite bind_run.
    unfold build_rows_step at 1. rewrite bind_run. unfold get at 1.
    cbv beta iota. rewrite bind_run.
    change (_mCtrlPts_sizeV (with_CtrlPts2D view st))
      with (_mCtrlPts_sizeV st).
    unfold range.
    replace (_mCtrlPts_sizeV st - 0)
      with (Z.of_nat (Z.to_nat (_mCtrlPts_sizeV st))) by lia.
    rewrite build_row_ok;
      [|change (_mCtrlPts_sizeV (with_CtrlPts2D view st))
          with (_mCtrlPts_sizeV st); nia
       |change (_mCtrlPts_sizeV (with_CtrlPts2D view st))
          with (_mCtrlPts_sizeV st);
        change (_mCtrlPts (with_CtrlPts2D view st)) with (_mCtrlPts st);
        nia].
    cbv beta iota. unfold modify at 1. cbv beta iota.
    change (_mCtrlPts_sizeV (with_CtrlPts2D view st))
      with (_mCtrlPts_sizeV st).
    change (_mCtrlPts (with_CtrlPts2D view st)) with (_mCtrlPts st).
    lazymatch goal with
    | |- for_each _ _ (with_CtrlPts2D ?v (with_CtrlPts2D view st)) = _ =>
        change (with_CtrlPts2D v (with_CtrlPts2D view st))
          with (with_CtrlPts2D v st)
    end.
    replace (Z.pred (Z.of_nat (S k))) with (Z.of_nat k) by lia.
    rewrite IH by lia.
    rewrite fmap_cons, <-app_assoc. simpl. done.
Qed.

Lemma py_repeat_singleton {A} (x : A) (n : Z) :
  py_repeat [x] n = replicate (Z.to_nat n) x.
Proof.
  unfold py_repeat. induction (Z.to_nat n) as [|k IH]; simpl; [done|].
  by rewrite IH.
Qed.

Lemma py_repeat_replicate {A} (x : A) (a : nat) (n : Z) :
  py_repeat (replicate a x) n = replicate (Z.to_nat n * a) x.
Proof.
  unfold py_repeat. induction (Z.to_nat n) as [|k IH]; simpl; [done|].
  by rewrite IH, replicate_add.
Qed.

(** What the [ctrlpts] setter does with a grid of 3D points that passes its
    checks and has at least as many points as the square of its number of
    rows [n]: it returns; both sizes are [n]; the 2D list is the flat list
    cut into [n] rows of [n] points; there are [n * n] weights 1.0.  (The
    2D list must not hold rows of an earlier assignment while the flat list
    is empty, a state only the [ctrlptsw] setter can produce.) *)
Lemma ctrlpts_setter_run_ok (grid : list (list vec3)) (s : Surface) :
  let n := len grid in
  (_mCtrlPts s = [] → _mCtrlPts2D s = []) →
  _mDegreeV s + 1 ≤ n →
  (∀ row, row ∈ grid → _mDegreeU s + 1 ≤ len row) →
  n * n ≤ len (concat grid) →
  ctrlpts_setter (fmap (M:=list) coords3 <$> grid) s =
  (Ok tt,
   with_Weights (replicate (Z.to_nat (n * n)) (PFloat 1%Qc))
     (with_CtrlPts2D (fmap (M:=list) point3 <$> chunks (concat grid) n n)
        (with_sizeV n (with_sizeU n
           (with_CtrlPts (point3 <$> concat grid)
              (cleared_ctrlpts (with_SurfPts [] s))))))).
Proof.
  intros n H2d HV HU Hsq. unfold ctrlpts_setter.
  rewrite bind_run, reset_surface_run. cbv beta iota.
  rewrite bind_run, reset_ctrlpts_run. cbv beta iota.
  set (s1 := cleared_ctrlpts (with_SurfPts [] s)).
  assert (Hs1 : s1 = with_CtrlPts [] s1 ∧ _mCtrlPts2D s1 = [] ∧
                _mDegreeU s1 = _mDegreeU s ∧ _mDegreeV s1 = _mDegreeV s).
  { subst s1. unfold cleared_ctrlpts. simpl.
    destruct (_mCtrlPts s) eqn:E; simpl; [|done].
    split_and!; try done.
    - destruct s; simpl in *; by subst.
    - by apply H2d. }
  destruct Hs1 as (Hs1 & H2d1 & HdU & HdV).
  assert (Hlen : len (fmap (M:=list) coords3 <$> grid) = n).
  { unfold n, len. by rewrite length_fmap. }
  rewrite bind_run. unfold get at 1. cbv beta iota. rewrite Hlen.
  destruct (decide (n < _mDegreeV s1 + 1)) as [Hbad|_]; [lia|].
  rewrite bind_run. rewrite Hs1 at 1.
  rewrite append_rows_ok by (rewrite HdU; exact HU).
  cbv beta iota. fold n. rewrite Z.add_0_l, app_nil_l.
  set (flat := point3 <$> concat grid).
  set (s3 := with_sizeV n (with_sizeU n (with_CtrlPts flat s1))).
  assert (Hn : 0 ≤ n) by (subst n; unfold len; lia).
  assert (Hbuild : build_ctrlpts2d s3
            = (Ok tt, with_CtrlPts2D
                 (fmap (M:=list) point3 <$> chunks (concat grid) n n) s3)).
  { assert (Hs3 : s3 = with_CtrlPts2D [] s3).
    { subst s3. destruct s1; simpl in *; by subst. }
    unfold build_ctrlpts2d. rewrite bind_run. unfold get at 1. cbv beta iota.
    change (_mCtrlPts_sizeU s3) with n. unfold range.
    replace (n - 0) with (Z.of_nat (Z.to_nat n)) by lia.
    rewrite Hs3 at 1. rewrite build_rows_ok;
      [|done|done
       |change (_mCtrlPts_sizeV s3) with n;
        change (_mCtrlPts s3) with flat; subst flat; unfold len in *;
        rewrite length_fmap; lia].
    f_equal. f_equal.
    change (_mCtrlPts_sizeV s3) with n. change (_mCtrlPts s3) with flat.
    rewrite app_nil_l. unfold chunks. rewrite <-list_fmap_compose.
    replace (Z.of_nat (Z.to_nat n)) with n by lia.
    apply list_fmap_ext. intros _ i _. simpl.
    subst flat. by rewrite fmap_take, fmap_drop. }
  rewrite bind_run. unfold modify at 1. cbv beta iota.
  rewrite bind_run. unfold modify at 1. cbv beta iota.
  fold s3. rewrite bind_run, Hbuild. cbv beta iota.
  unfold modify. f_equal. f_equal. simpl.
  rewrite py_repeat_singleton, py_repeat_replicate. f_equal. lia.
Qed.

(** The state the setter leaves is a configuration with unit weights. *)
Lemma ctrlpts_setter_unit_weight_config (grid : list (list vec3))
    (s : Surface) :
  (_mCtrlPts s = [] → _mCtrlPts2D s = []) →
  _mDegreeV s + 1 ≤ len grid →
  (∀ row, row ∈ grid → _mDegreeU s + 1 ≤ len row) →
  len grid * len grid ≤ len (concat grid) →
  unit_weight_config (exec (ctrlpts_setter (fmap (M:=list) coords3 <$> grid)) s).
Proof.
  intros H2d HV HU Hsq. unfold exec.
  rewrite ctrlpts_setter_run_ok by done. simpl.
  assert (Hn : 0 ≤ len grid) by (unfold len; lia).
  exists (concat grid). simpl. split_and!; done.
Qed.

(** ** Partition of unity of the basis functions of the specification *)

Lemma ubind_Ok {A B} (m : ures A) (f : A → ures B) (b : B) :
  m ≫= f = Ok b → ∃ a, m = Ok a ∧ f a = Ok b.
Proof. destruct m as [a|e]; [by exists a | done]. Qed.

Lemma u_index_nonneg {A} (l : list A) (i : Z) (x : A) :
  0 ≤ i → u_index l i = Ok x → l !! Z.to_nat i = Some x.
Proof.
  intros Hi. unfold u_index.
  destruct (py_index l i) as [y|e] eqn:E; [|done].
  intros [= <-]. by apply py_index_nonneg in E.
Qed.

Lemma u_setitem_nonneg {A} (l l' : list A) (i : Z) (x : A) :
  0 ≤ i → u_setitem l i x = Ok l' →
  l' = <[Z.to_nat i := x]> l ∧ (Z.to_nat i < length l)%nat.
Proof.
  intros Hi. unfold u_setitem.
  destruct (py_setitem l i x) as [y|e] eqn:E; [|done].
  intros [= <-]. by apply py_setitem_nonneg in E.
Qed.

Lemma u_div_Ok (a b q : Qc) : u_div a b = Ok q → (q * b = a)%Qc.
Proof.
  unfold u_div. case_decide; [done|]. intros [= <-]. by field.
Qed.

Lemma sum_list_insert (l : list Qc) (i : nat) (x y : Qc) :
  l !! i = Some x → (sum_list (<[i := y]> l) = sum_list l - x + y)%Qc.
Proof.
  revert i. induction l as [|z l IH]; intros [|i] Hi; simplify_eq/=.
  - ring.
  - rewrite (IH i Hi). ring.
Qed.

Lemma sum_list_replicate_0 (n : nat) : sum_list (replicate n 0%Qc) = 0%Qc.
Proof. induction n as [|n IH]; simpl; [done|]. rewrite IH. ring. Qed.

(** An invariant that moves with the index of a counting loop. *)
Lemma for_loop_range_invariant {E St} (I : Z → St → Prop) (n : nat) (a : Z)
    (body : Z → St → result E St) (st st' : St) :
  (∀ k st st', a ≤ k < a + Z.of_nat n → I k st → body k st = Ok st' →
               I (k + 1) st') →
  I a st → for_loop (seqZ a (Z.of_nat n)) body st = Ok st' →
  I (a + Z.of_nat n) st'.
Proof.
  revert a st. induction n as [|n IH]; intros a st Hb Hst.
  - simpl. intros [= <-]. by rewrite Z.add_0_r.
  - rewrite seqZ_cons by lia. cbn [for_loop].
    destruct (body a st) as [st1|e] eqn:E1; [|done].
    replace (Z.pred (Z.of_nat (S n))) with (Z.of_nat n) by lia.
    intros H. apply IH in H.
    + by replace (a + Z.of_nat (S n)) with (Z.succ a + Z.of_nat n) by lia.
    + intros k s1 s2 Hk. apply Hb. lia.
    + replace (Z.succ a) with (a + 1) by lia. eapply Hb; [lia|done..].
Qed.

(** Whenever the basis functions of the specification are returned, there
    are [degree + 1] of them and they sum to 1. *)
Lemma spec_basis_functions_unity (degree : Z) (knots : list Qc) (span : Z)
    (u : Qc) (basis : list Qc) :
  spec_basis_functions degree knots span u = Ok basis →
  length basis = Z.to_nat (degree + 1) ∧ sum_list basis = 1%Qc.
Proof.
  unfold spec_basis_functions. case_decide as Hd; [done|]. cbv zeta.
  set (L := Z.to_nat (degree + 1)). intros H.
  apply ubind_Ok in H as (N0 & HN0 & H).
  apply u_setitem_nonneg in HN0 as [-> HL]; [|done].
  rewrite length_replicate in HL. change (Z.to_nat 0) with 0%nat in *.
  apply ubind_Ok in H as ([[N l] r] & Hloop & [= <-]).
  pose (I := λ (j : Z) (st : list Qc * list Qc * list Qc),
          length st.1.1 = L ∧ sum_list st.1.1 = 1%Qc ∧
          ∀ i, (Z.to_nat j ≤ i < L)%nat → st.1.1 !! i = Some 0%Qc).
  unfold range in Hloop.
  replace (degree + 1 - 1) with (Z.of_nat (Z.to_nat degree)) in Hloop by lia.
  eapply (for_loop_range_invariant I) in Hloop.
  - destruct Hloop as (Hlen & Hsum & _). done.
  - clear Hloop N l r. intros j [[N l] r] st' Hj (Hlen & Hsum & Hzero) Hbody.
    simpl in Hlen, Hsum, Hzero.
    apply ubind_Ok in Hbody as (kl & _ & Hbody).
    apply ubind_Ok in Hbody as (l1 & _ & Hbody).
    apply ubind_Ok in Hbody as (kr & _ & Hbody).
    apply ubind_Ok in Hbody as (r1 & _ & Hbody).
    apply ubind_Ok in Hbody as ([N1 saved] & Hinner & Hbody).
    apply ubind_Ok in Hbody as (N2 & HN2 & [= <-]).
    (* the loop over r *)
    assert (HJ : length N1 = L ∧ (sum_list N1 + saved = 1)%Qc ∧
                 ∀ i, (Z.to_nat j ≤ i < L)%nat → N1 !! i = Some 0%Qc).
    { unfold range in Hinner.
      eapply (for_loop_invariant
                (λ st : list Qc * Qc,
                   length st.1 = L ∧ (sum_list st.1 + st.2 = 1)%Qc ∧
                   ∀ i, (Z.to_nat j ≤ i < L)%nat → st.1 !! i = Some 0%Qc))
        in Hinner; [exact Hinner| |].
      - clear Hinner N1 saved HN2.
        intros rr_ [Na sa] st1 Hr%elem_of_seqZ (Ha1 & Ha2 & Ha3) Hstep.
        simpl in Ha1, Ha2, Ha3.
        apply ubind_Ok in Hstep as (rr & _ & Hstep).
        apply ubind_Ok in Hstep as (ll & _ & Hstep).
        apply ubind_Ok in Hstep as (nr & Hnr & Hstep).
        apply ubind_Ok in Hstep as (temp & Htemp & Hstep).
        apply ubind_Ok in Hstep as (Nb & HNb & [= <-]).
        apply u_index_nonneg in Hnr; [|lia].
        apply u_setitem_nonneg in HNb as [-> Hlt]; [|lia].
        apply u_div_Ok in Htemp. simpl. split_and!.
        + by rewrite length_insert.
        + rewrite (sum_list_insert _ _ nr) by done.
          rewrite <-Ha2, <-Htemp. ring.
        + intros i Hi. rewrite list_lookup_insert_ne by lia. by apply Ha3.
      - simpl. split_and!; [done| |done]. rewrite Hsum. ring. }
    destruct HJ as (HlenJ & HsumJ & HzeroJ).
    apply u_setitem_nonneg in HN2 as [-> Hlt]; [|lia].
    unfold I. simpl. split_and!.
    + by rewrite length_insert.
    + rewrite (sum_list_insert _ _ 0%Qc) by (apply HzeroJ; lia).
      rewrite <-HsumJ. ring.
    + intros i Hi. rewrite list_lookup_insert_ne by lia.
      apply HzeroJ. lia.
  - unfold I. simpl. split_and!.
    + by rewrite length_insert, length_replicate.
    + rewrite (sum_list_insert _ _ 0%Qc)
        by (apply lookup_replicate_2; lia).
      rewrite sum_list_replicate_0. ring.
    + intros i Hi. rewrite list_lookup_insert_ne by lia.
      apply lookup_replicate_2. lia.
Qed.

(** With the helpers of the specification the contract of C1 holds in every
    state. *)
Lemma spec_unity_at_samples (s : Surface) : @unity_at_samples spec_utilities s.
Proof.
  intros t _. split; intros span basis _ Hb;
    by apply spec_basis_functions_unity in Hb.
Qed.

(** The order in which the four control points of the patch are listed does
    not matter for C4: listed column by column, the normal is (0, 0, 1) at
    (1/4, 1/4) and (0, 0, -1) at (3/4, 3/4). *)
Lemma normal_of_transposed_patch_varies :
  @normal spec_utilities transposed_patch q14 q14 true = Ok (0, 0, 1)%Qc ∧
  @normal spec_utilities transposed_patch q34 q34 true = Ok (0, 0, -1)%Qc ∧
  @tangent spec_utilities transposed_patch q14 q34
    = Ok ((q14, q34, 0), (1, 0, 0), (0, 1, 0))%Qc.
Proof. split_and!; compute_done. Qed.

(** ** What a refused assignment leaves behind *)

Lemma degree_u_setter_run (v : Z) (s : Surface) :
  degree_u_setter v s =
  if decide (v < 0) then (Err (ValueError msg_degree), s)
  else (Ok tt, with_DegreeU v (with_SurfPts [] s)).
Proof.
  unfold degree_u_setter. case_decide; [done|].
  by rewrite bind_run, reset_surface_run.
Qed.

Lemma degree_v_setter_run (v : Z) (s : Surface) :
  degree_v_setter v s =
  if decide (v < 0) then (Err (ValueError msg_degree), s)
  else (Ok tt, with_DegreeV v (with_SurfPts [] s)).
Proof.
  unfold degree_v_setter. case_decide; [done|].
  by rewrite bind_run, reset_surface_run.
Qed.

Lemma delta_setter_run (v : Qc) (s : Surface) :
  delta_setter v s =
  if decide (v ≤ 0 ∨ 1 ≤ v)%Qc then (Err (ValueError msg_delta), s)
  else (Ok tt, with_Delta v (with_SurfPts [] s)).
Proof.
  unfold delta_setter. case_decide; [done|].
  by rewrite bind_run, reset_surface_run.
Qed.

Section knot_setters.
Context {U : Utilities}.

Lemma knotvector_u_setter_run (value : list Qc) (s : Surface) :
  knotvector_u_setter value s =
  match normalize_knotvector value with
  | Ok kv => (Ok tt, with_KnotVectorU kv (with_SurfPts [] s))
  | Err e => (Err (UtilitiesError e), with_SurfPts [] s)
  end.
Proof.
  unfold knotvector_u_setter. rewrite bind_run, reset_surface_run.
  cbv beta iota. rewrite bind_run. unfold lift.
  by destruct (normalize_knotvector value).
Qed.

Lemma knotvector_v_setter_run (value : list Qc) (s : Surface) :
  knotvector_v_setter value s =
  match normalize_knotvector value with
  | Ok kv => (Ok tt, with_KnotVectorV kv (with_SurfPts [] s))
  | Err e => (Err (UtilitiesError e), with_SurfPts [] s)
  end.
Proof.
  unfold knotvector_v_setter. rewrite bind_run, reset_surface_run.
  cbv beta iota. rewrite bind_run. unfold lift.
  by destruct (normalize_knotvector value).
Qed.

End knot_setters.

(** The [ctrlptsw] setter assigns only after it has split every entry: a
    run that raises has changed nothing. *)
Lemma ctrlptsw_setter_raises (value : list (list (list Qc))) (s : Surface) e :
  outcome (ctrlptsw_setter value) s = Err e →
  exec (ctrlptsw_setter value) s = s.
Proof.
  unfold outcome, exec, ctrlptsw_setter. rewrite bind_run. unfold lift at 1.
  destruct (for_loop value _ _) as [[cs ws]|e']; [|done].
  cbv beta iota. rewrite bind_run. unfold modify. done.
Qed.

Section refused.
Context {U : Utilities}.

(** X1.  What a setter that raises leaves behind.  The setters of the
    degrees and of the delta test their argument first, and the [ctrlptsw]
    setter assigns last: when one of them raises, the object is as it was
    before the call.  The setters of the knot vectors clear the cached
    surface points before they normalise their argument: when the
    normalisation raises, the cache is gone although the knot vector has
    not changed. *)
Theorem refused_assignment_state (s : Surface) (e : exn) :
  (∀ v, outcome (degree_u_setter v) s = Err e →
        exec (degree_u_setter v) s = s) ∧
  (∀ v, outcome (degree_v_setter v) s = Err e →
        exec (degree_v_setter v) s = s) ∧
  (∀ v, outcome (delta_setter v) s = Err e →
        exec (delta_setter v) s = s) ∧
  (∀ v, outcome (ctrlptsw_setter v) s = Err e →
        exec (ctrlptsw_setter v) s = s) ∧
  (∀ v, outcome (knotvector_u_setter v) s = Err e →
        exec (knotvector_u_setter v) s = with_SurfPts [] s) ∧
  (∀ v, outcome (knotvector_v_setter v) s = Err e →
        exec (knotvector_v_setter v) s = with_SurfPts [] s).
Proof.
  split_and!; intros v.
  - unfold outcome, exec. rewrite degree_u_setter_run. by case_decide.
  - unfold outcome, exec. rewrite degree_v_setter_run. by case_decide.
  - unfold outcome, exec. rewrite delta_setter_run. by case_decide.
  - apply ctrlptsw_setter_raises.
  - unfold outcome, exec. rewrite knotvector_u_setter_run.
    by destruct (normalize_knotvector v).
  - unfold outcome, exec. rewrite knotvector_v_setter_run.
    by destruct (normalize_knotvector v).
Qed.

(** X2.  A degree of 0 passes the setters, which refuse negative values
    only, but [_check_variables] treats a degree of 0 as a degree that has
    not been set: after either assignment [evaluate], [evaluate_rational]
    and [derivatives] raise the precondition error, whatever else is
    configured. *)
Theorem degree_zero_accepted_then_refused (s : Surface) (u v : Qc) (order : Z) :
  let su := exec (degree_u_setter 0) s in
  let sv := exec (degree_v_setter 0) s in
  outcome (degree_u_setter 0) s = Ok tt ∧
  outcome (degree_v_setter 0) s = Ok tt ∧
  _mDegreeU su = 0 ∧ _mDegreeV sv = 0 ∧
  outcome evaluate su = Err PreconditionNotMet ∧
  outcome evaluate sv = Err PreconditionNotMet ∧
  outcome evaluate_rational su = Err PreconditionNotMet ∧
  outcome evaluate_rational sv = Err PreconditionNotMet ∧
  derivatives su u v order = Err PreconditionNotMet ∧
  derivatives sv u v order = Err PreconditionNotMet.
Proof.
  intros su sv.
  assert (Hu : su = with_DegreeU 0 (with_SurfPts [] s)).
  { unfold su, exec. by rewrite degree_u_setter_run. }
  assert (Hv : sv = with_DegreeV 0 (with_SurfPts [] s)).
  { unfold sv, exec. by rewrite degree_v_setter_run. }
  assert (Hcu : _check_variables su = Err PreconditionNotMet).
  { destruct (check_variables_spec su) as [[_ H]|[H _]]; [done|].
    exfalso. apply H. left. by rewrite Hu. }
  assert (Hcv : _check_variables sv = Err PreconditionNotMet).
  { destruct (check_variables_spec sv) as [[_ H]|[H _]]; [done|].
    exfalso. apply H. right. left. by rewrite Hv. }
  split_and!.
  - unfold outcome. by rewrite degree_u_setter_run.
  - unfold outcome. by rewrite degree_v_setter_run.
  - by rewrite Hu.
  - by rewrite Hv.
  - unfold outcome. by rewrite evaluate_run, Hcu.
  - unfold outcome. by rewrite evaluate_run, Hcv.
  - unfold outcome. by rewrite evaluate_rational_run, Hcu.
  - unfold outcome. by rewrite evaluate_rational_run, Hcv.
  - unfold derivatives. by rewrite Hcu.
  - unfold derivatives. by rewrite Hcv.
Qed.

End refused.

(** ** The checks of the [ctrlpts] setter *)

(** The loop over the coordinates of a row refuses exactly the rows that
    hold a coordinate of more than three entries ([len(coord) < 0] never
    holds). *)
Lemma append_coords_outcome (coords : list (list Qc)) (s : Surface) :
  (append_coords coords s).1 =
  if decide (Forall (λ c, len c ≤ 3) coords) then Ok tt
  else Err (ValueError msg_3d).
Proof.
  unfold append_coords. revert s.
  induction coords as [|c coords IH]; intros s; cbn [for_each].
  - by rewrite decide_True by constructor.
  - rewrite bind_run. destruct (decide (len c < 0 ∨ len c > 3)) as [Hbad|Hok].
    + unfold raise. cbv beta iota. rewrite decide_False; [done|].
      intros Hall. apply Forall_cons in Hall as [Hc _].
      unfold len in *. lia.
    + unfold modify at 1. cbv beta iota. rewrite IH.
      destruct (decide (Forall (λ c0, len c0 ≤ 3) coords)) as [Hall|Hall].
      * rewrite decide_True; [done|]. constructor; [lia | done].
      * rewrite decide_False; [done|].
        intros Hall'. by apply Forall_cons in Hall' as [_ ?].
Qed.

Lemma append_coords_degree (coords : list (list Qc)) (d : Z) :
  keeps (λ s, _mDegreeU s = d) (append_coords coords).
Proof. unfold append_coords. keeps_auto. Qed.

(** The loop over the rows returns the number of rows it was given, added
    to its counter, when every row is accepted, and raises a [ValueError]
    otherwise. *)
Lemma append_rows_outcome (rows : list (list (list Qc))) (n : Z) (s : Surface) :
  match (append_rows rows n s).1 with
  | Ok k => Forall (accepted_row (_mDegreeU s)) rows ∧ k = n + len rows
  | Err e => ¬ Forall (accepted_row (_mDegreeU s)) rows ∧ ∃ m, e = ValueError m
  end.
Proof.
  unfold append_rows. revert n s.
  induction rows as [|row rows IH]; intros n s.
  - simpl. split; [constructor|]. unfold len. simpl. lia.
  - cbn [for_fold]. rewrite !bind_run. unfold get at 1. cbv beta iota.
    destruct (decide (len row < _mDegreeU s + 1)) as [Hshort|Hlong].
    { simpl. split; [|by eexists].
      intros Hall. apply Forall_cons in Hall as [[Hr _] _]. lia. }
    rewrite bind_run.
    pose proof (append_coords_outcome row s) as Hout.
    pose proof (append_coords_degree row (_mDegreeU s) s eq_refl) as Hdeg.
    destruct (append_coords row s) as [r s2]. simpl in Hout, Hdeg. subst r.
    destruct (decide (Forall (λ c, len c ≤ 3) row)) as [Hcs|Hcs].
    + cbv beta iota. unfold mret at 1, M_ret at 1. cbv beta iota.
      specialize (IH (n + 1) s2). rewrite Hdeg in IH.
      destruct (for_fold rows _ (n + 1) s2).1 as [k|e].
      * destruct IH as [Hall ->]. split.
        -- constructor; [split; [lia | done] | done].
        -- unfold len. simpl. lia.
      * destruct IH as [Hall Hm]. split; [|done].
        intros Hall'. by apply Forall_cons in Hall' as [_ ?].
    + simpl. split; [|by eexists].
      intros Hall. by apply Forall_cons in Hall as [[_ Hr] _].
Qed.


(** ** Grids with as many rows as columns *)

Lemma chunks_concat_from {A} (grid : list (list A)) (c : nat) (a : Z)
    (pre : list A) :
  0 ≤ a → Z.of_nat (length pre) = a * Z.of_nat c →
  Forall (λ row, length row = c) grid →
  (λ i, take c (drop (Z.to_nat (i * Z.of_nat c)) (pre ++ concat grid)))
    <$> seqZ a (len grid) = grid.
Proof.
  intros Ha Hpre Hrows. revert a pre Ha Hpre.
  induction Hrows as [|row grid Hrow Hrows IH]; intros a pre Ha Hpre.
  - done.
  - unfold len. rewrite seqZ_cons by (simpl; lia). rewrite fmap_cons. f_equal.
    + replace (Z.to_nat (a * Z.of_nat c)) with (length pre) by lia.
      rewrite drop_app_length. simpl. rewrite take_app_length'; done.
    + replace (Z.pred (Z.of_nat (length (row :: grid)))) with (len grid)
        by (unfold len; simpl; lia).
      rewrite concat_cons, app_assoc.
      apply IH; [lia|]. rewrite length_app. lia.
Qed.

(** A flat list that was made of rows of equal length is cut back into
    these rows. *)
Lemma chunks_concat (grid : list (list vec3)) (c : Z) :
  Forall (λ row, len row = c) grid →
  chunks (concat grid) (len grid) c = grid.
Proof.
  intros Hrows. unfold chunks. destruct grid as [|row0 grid0] eqn:Hg; [done|].
  rewrite <-Hg in *.
  assert (Hc : c = Z.of_nat (Z.to_nat c)).
  { subst grid. apply Forall_cons in Hrows as [Hr _]. unfold len in Hr. lia. }
  rewrite Hc. rewrite Nat2Z.id.
  apply (chunks_concat_from grid (Z.to_nat c) 0 []); [done|done|].
  eapply Forall_impl; [exact Hrows|]. intros row Hr. unfold len in Hr. lia.
Qed.



(** ** The [ctrlptsw] setter *)

Lemma ctrlptsw_setter_steps (value : list (list (list Qc))) :
  ctrlptsw_setter value =
  ('(ctrlpts_uv, weights_uv) ← lift (for_loop value split_row_step
                                 (([], []) : list pyval * list pyval));
   modify (with_CtrlPts ctrlpts_uv);;
   modify (with_Weights weights_uv)).
Proof. reflexivity. Qed.

Lemma split_entry_step_run (c : list Qc) (cu wu : list pyval) :
  split_entry_step c (cu, wu) =
  if decide (splittable c)
  then Ok (cu ++ [split_point c], wu ++ [split_weight c])
  else Err (if decide (4 ≤ length c)%nat then ZeroDivisionError
            else IndexError).
Proof.
  unfold split_entry_step, splittable, split_point, split_weight, hfield.
  destruct c as [|a [|b [|c' [|d rest]]]]; try done.
  assert (H0 : py_index (a :: b :: c' :: d :: rest) 0 = Ok a) by reflexivity.
  assert (H1 : py_index (a :: b :: c' :: d :: rest) 1 = Ok b) by reflexivity.
  assert (H2 : py_index (a :: b :: c' :: d :: rest) 2 = Ok c') by reflexivity.
  assert (H3 : py_index (a :: b :: c' :: d :: rest) 3 = Ok d) by reflexivity.
  rewrite H0, H1, H2, H3. clear H0 H1 H2 H3.
  unfold mbind, res_bind, py_div. cbn [lookup list_lookup default id].
  destruct (decide (d = 0%Qc)) as [->|Hd].
  - rewrite decide_False by (intros [_ ?]; done).
    rewrite decide_True by (simpl; lia). done.
  - rewrite decide_True by (split; [simpl; lia | exact Hd]). done.
Qed.

Lemma split_entries_run (udir : list (list Qc)) (cu wu : list pyval) :
  match for_loop udir split_entry_step (cu, wu) with
  | Ok r => Forall splittable udir ∧
            r = (cu ++ (split_point <$> udir), wu ++ (split_weight <$> udir))
  | Err e => ¬ Forall splittable udir ∧
             (e = IndexError ∨ e = ZeroDivisionError)
  end.
Proof.
  revert cu wu. induction udir as [|c udir IH]; intros cu wu.
  - simpl. split; [constructor|]. by rewrite !app_nil_r.
  - cbn [for_loop]. rewrite split_entry_step_run.
    destruct (decide (splittable c)) as [Hc|Hc].
    + specialize (IH (cu ++ [split_point c]) (wu ++ [split_weight c])).
      destruct (for_loop udir split_entry_step _) as [r|e].
      * destruct IH as [Hall ->]. split; [by constructor|].
        by rewrite !fmap_cons, <-!app_assoc.
      * destruct IH as [Hall He]. split; [|done].
        intros Hall'. by apply Forall_cons in Hall' as [_ ?].
    + split.
      * intros Hall. by apply Forall_cons in Hall as [? _].
      * case_decide; auto.
Qed.

Lemma split_rows_run (value : list (list (list Qc))) (cs ws : list pyval) :
  match for_loop value split_row_step (cs, ws) with
  | Ok r => Forall (Forall splittable) value ∧
            r = (cs ++ ((λ udir, PList (split_point <$> udir)) <$> value),
                 ws ++ ((λ udir, PList (split_weight <$> udir)) <$> value))
  | Err e => ¬ Forall (Forall splittable) value ∧
             (e = IndexError ∨ e = ZeroDivisionError)
  end.
Proof.
  revert cs ws. induction value as [|udir value IH]; intros cs ws.
  - simpl. split; [constructor|]. by rewrite !app_nil_r.
  - cbn [for_loop]. unfold split_row_step at 1.
    pose proof (split_entries_run udir [] []) as Hrow.
    destruct (for_loop udir split_entry_step _) as [r|e].
    + destruct Hrow as [Hu ->]. unfold mbind, res_bind, mret, res_ret.
      cbv beta iota. rewrite !app_nil_l.
      specialize (IH (cs ++ [PList (split_point <$> udir)])
                     (ws ++ [PList (split_weight <$> udir)])).
      destruct (for_loop value split_row_step _) as [r|e].
      * destruct IH as [Hall ->]. split; [by constructor|].
        by rewrite !fmap_cons, <-!app_assoc.
      * destruct IH as [Hall He]. split; [|done].
        intros Hall'. by apply Forall_cons in Hall' as [_ ?].
    + destruct Hrow as [Hu He]. simpl. split; [|done].
      intros Hall. by apply Forall_cons in Hall as [? _].
Qed.

(** What the [ctrlptsw] setter does, in one equation for each way it
    ends. *)
Lemma ctrlptsw_setter_run (value : list (list (list Qc))) (s : Surface) :
  (Forall (Forall splittable) value ∧
   ctrlptsw_setter value s = (Ok tt, with_split_rows value s)) ∨
  (¬ Forall (Forall splittable) value ∧
   ∃ e, ctrlptsw_setter value s = (Err e, s) ∧
        (e = IndexError ∨ e = ZeroDivisionError)).
Proof.
  rewrite ctrlptsw_setter_steps. rewrite bind_run. unfold lift at 1.
  pose proof (split_rows_run value [] []) as Hrun.
  destruct (for_loop value split_row_step _) as [r|e].
  - destruct Hrun as [Hall ->]. left. done.
  - destruct Hrun as [Hall He]. right. split; [done|]. by exists e.
Qed.

(** X5.  The [ctrlptsw] setter returns exactly when every entry of its
    argument has a fourth field that is not 0.  It then stores, row by row
    and nested as the rows are, the first three fields divided by the
    fourth in [_mCtrlPts] and the fourth fields in [_mWeights], and assigns
    nothing else: the sizes, the 2D list and the cache are as before.  It
    raises [IndexError] (an entry is too short) or [ZeroDivisionError] (a
    fourth field is 0) otherwise, and has then changed nothing. *)
Theorem ctrlptsw_setter_splits (value : list (list (list Qc))) (s : Surface) :
  (outcome (ctrlptsw_setter value) s = Ok tt ↔
   Forall (Forall splittable) value) ∧
  (outcome (ctrlptsw_setter value) s = Ok tt →
   exec (ctrlptsw_setter value) s = with_split_rows value s) ∧
  (∀ e, outcome (ctrlptsw_setter value) s = Err e →
        (e = IndexError ∨ e = ZeroDivisionError) ∧
        exec (ctrlptsw_setter value) s = s).
Proof.
  unfold outcome, exec.
  destruct (ctrlptsw_setter_run value s) as [[Hall ->]|(Hall & e & -> & He)];
    simpl.
  - split_and!; done.
  - split_and!; try done. intros e' [= <-]. done.
Qed.

Lemma ctrlptsw_setter_Ok (value : list (list (list Qc))) (s : Surface) :
  outcome (ctrlptsw_setter value) s = Ok tt →
  exec (ctrlptsw_setter value) s = with_split_rows value s.
Proof.
  unfold outcome, exec.
  by destruct (ctrlptsw_setter_run value s) as [[Hall ->]|(Hall & e & -> & He)].
Qed.

(** X6.  Reading back what was assigned does not work: after the [ctrlptsw]
    setter has stored a non-empty argument, the [ctrlptsw] getter raises.
    Its first pair is the first row of points with the first row of
    weights, so [c[0] * w] multiplies a list by a list ([TypeError]), or
    [c[0]] does not exist when the first row is empty ([IndexError]). *)
Theorem ctrlptsw_set_then_get (value : list (list (list Qc))) (s : Surface) :
  outcome (ctrlptsw_setter value) s = Ok tt →
  ctrlptsw (exec (ctrlptsw_setter value) s) =
  match value with
  | [] => Ok []
  | [] :: _ => Err IndexError
  | (_ :: _) :: _ => Err TypeError
  end.
Proof.
  intros Hok. rewrite (ctrlptsw_setter_Ok value s Hok).
  unfold ctrlptsw, with_split_rows. simpl.
  destruct value as [|[|c udir] value]; done.
Qed.

(** X6 at work: one row of one weighted point assigned to the sampled
    bilinear patch. *)
Lemma ctrlptsw_set_then_get_witness :
  ctrlptsw (exec (ctrlptsw_setter one_weighted_point) sampled_patch)
    = Err TypeError.
Proof.
  apply (ctrlptsw_set_then_get one_weighted_point sampled_patch).
  vm_compute. reflexivity.
Defined.

Lemma weights_setter_run (value : list Qc) (s : Surface) :
  weights_setter value s =
  if decide (len value ≠ _mCtrlPts_sizeU s * _mCtrlPts_sizeV s)
  then (Err (ValueError msg_weights), s)
  else (Ok tt, with_Weights (PFloat <$> value) (with_SurfPts [] s)).
Proof.
  unfold weights_setter. rewrite bind_run. simpl.
  case_decide; [done|]. by rewrite bind_run, reset_surface_run.
Qed.

(** The first weighted control point [evaluate_rational] computes from the
    nested rows raises. *)
Lemma weighted_point_split_rows (value : list (list (list Qc))) (s : Surface) :
  ∃ e, weighted_point (with_split_rows value s) 0 = Err e ∧
       (e = IndexError ∨ e = TypeError).
Proof.
  destruct value as [|[|c udir] value]; eexists; (split; [reflexivity|auto]).
Qed.

Section after_ctrlptsw.
Context {U : Utilities}.

(** X7.  The [ctrlptsw] setter makes the rational evaluation unusable.  On
    an object with control points in both directions, after the setter has
    returned, [evaluate_rational] never returns normally: it raises the
    precondition error, or it raises while it weights the first control
    point, where [self._mCtrlPts[0]] is now a row of points and
    [self._mWeights[0]] a row of weights ([TypeError], or [IndexError] for
    an empty row). *)
Theorem ctrlptsw_setter_breaks_evaluate_rational
    (value : list (list (list Qc))) (s : Surface) :
  outcome (ctrlptsw_setter value) s = Ok tt →
  0 < _mCtrlPts_sizeU s → 0 < _mCtrlPts_sizeV s →
  ∃ e, outcome evaluate_rational (exec (ctrlptsw_setter value) s) = Err e ∧
       (e = PreconditionNotMet ∨ e = IndexError ∨ e = TypeError).
Proof.
  intros Hok HU HV. rewrite (ctrlptsw_setter_Ok value s Hok).
  unfold outcome. rewrite evaluate_rational_run.
  destruct (check_variables_spec (with_split_rows value s))
    as [[_ ->]|[_ ->]]; [eexists; split; [done|auto]|].
  unfold weighted_ctrlpts, range.
  change (_mCtrlPts_sizeU (with_split_rows value s)) with (_mCtrlPts_sizeU s).
  rewrite seqZ_cons by lia. cbn [for_loop].
  unfold weighted_rows_step at 1, range.
  change (_mCtrlPts_sizeV (with_split_rows value s)) with (_mCtrlPts_sizeV s).
  rewrite seqZ_cons by lia. cbn [for_loop].
  unfold weighted_row_step at 1.
  destruct (weighted_point_split_rows value s) as (e & -> & He).
  exists e. split; [done|]. destruct He; auto.
Qed.

(** What [evaluate] reads of the object: the degrees, the knot vectors, the
    sizes, the 2D list and the delta, and of the flat list only whether it
    is empty. *)
Lemma evaluate_frame (s s' : Surface) :
  _mDegreeU s' = _mDegreeU s → _mDegreeV s' = _mDegreeV s →
  _mKnotVectorU s' = _mKnotVectorU s → _mKnotVectorV s' = _mKnotVectorV s →
  _mCtrlPts2D s' = _mCtrlPts2D s →
  _mCtrlPts_sizeU s' = _mCtrlPts_sizeU s →
  _mCtrlPts_sizeV s' = _mCtrlPts_sizeV s →
  _mDelta s' = _mDelta s →
  (_mCtrlPts s' = [] ↔ _mCtrlPts s = []) →
  _check_variables s' = _check_variables s ∧
  evaluate_samples s' = evaluate_samples s.
Proof.
  intros HdU HdV HkU HkV H2d HsU HsV Hdelta Hpts. split.
  - unfold _check_variables. rewrite HdU, HdV, HkU, HkV.
    destruct (_mCtrlPts s') as [|p' l'], (_mCtrlPts s) as [|p l]; try done.
    + by destruct Hpts as [Hpts _]; specialize (Hpts eq_refl).
    + by destruct Hpts as [_ Hpts]; specialize (Hpts eq_refl).
  - unfold evaluate_samples.
    by rewrite HdU, HdV, HkU, HkV, H2d, HsU, HsV, Hdelta.
Qed.

Lemma evaluate_frame_run (s s' : Surface) :
  _check_variables s' = _check_variables s →
  evaluate_samples s' = evaluate_samples s →
  outcome evaluate s' = outcome evaluate s ∧
  (¬ not_configured s →
   _mSurfPts (exec evaluate s') = _mSurfPts (exec evaluate s)).
Proof.
  intros Hc Hs. unfold outcome, exec. rewrite !evaluate_run, Hc, Hs.
  destruct (check_variables_spec s) as [[Hn ->]|[Hn ->]]; simpl; done.
Qed.

(** X8.  [evaluate] takes its control points from the 2D list and never
    looks at the weights.  So an assignment of weights does not change what
    [evaluate] computes, and neither does an assignment through the
    [ctrlptsw] setter, which replaces the flat list but does not rebuild
    the 2D list: [evaluate] ends the same way and caches the same points as
    it would have before the assignment. *)
Theorem evaluate_ignores_weights_and_ctrlptsw (s : Surface) :
  (∀ value, outcome (weights_setter value) s = Ok tt →
     outcome evaluate (exec (weights_setter value) s) = outcome evaluate s ∧
     (¬ not_configured s →
      _mSurfPts (exec evaluate (exec (weights_setter value) s))
        = _mSurfPts (exec evaluate s))) ∧
  (∀ value, outcome (ctrlptsw_setter value) s = Ok tt →
     (value = [] ↔ _mCtrlPts s = []) →
     outcome evaluate (exec (ctrlptsw_setter value) s) = outcome evaluate s ∧
     (¬ not_configured s →
      _mSurfPts (exec evaluate (exec (ctrlptsw_setter value) s))
        = _mSurfPts (exec evaluate s))).
Proof.
  split; intros value Hok.
  - assert (Hs' : exec (weights_setter value) s
                  = with_Weights (PFloat <$> value) (with_SurfPts [] s)).
    { revert Hok. unfold outcome, exec. rewrite weights_setter_run.
      by case_decide. }
    rewrite Hs'.
    apply evaluate_frame_run; by apply evaluate_frame.
  - intros Hempty. rewrite (ctrlptsw_setter_Ok value s Hok).
    assert (Hpts : _mCtrlPts (with_split_rows value s) = []
                   ↔ _mCtrlPts s = []).
    { unfold with_split_rows. simpl. rewrite <-Hempty. by destruct value. }
    apply evaluate_frame_run; by apply evaluate_frame.
Qed.

End after_ctrlptsw.

(** X7 at work: one weighted point assigned to the bilinear patch. *)
Lemma ctrlptsw_setter_breaks_evaluate_rational_witness :
  ∃ e, outcome (@evaluate_rational spec_utilities)
         (exec (ctrlptsw_setter one_weighted_point)
            (@bilinear_patch spec_utilities)) = Err e ∧
       (e = PreconditionNotMet ∨ e = IndexError ∨ e = TypeError).
Proof.
  apply (@ctrlptsw_setter_breaks_evaluate_rational spec_utilities
           one_weighted_point (@bilinear_patch spec_utilities)).
  - vm_compute. reflexivity.
  - vm_compute. reflexivity.
  - vm_compute. reflexivity.
Defined.

(** ** What the [ctrlptsw] getter returns *)

Lemma itertools_product_fmap {A B C D} (f : A → C) (g : B → D)
    (xs : list A) (ys : list B) :
  itertools_product (f <$> xs) (g <$> ys)
    = prod_map f g <$> itertools_product xs ys.
Proof.
  unfold itertools_product. induction xs as [|x xs IH]; [done|].
  rewrite fmap_cons, !bind_cons, fmap_app, IH. f_equal.
  clear IH. induction ys as [|y ys IHy]; [done|].
  rewrite fmap_cons, !bind_cons, fmap_app, IHy. done.
Qed.

(** A loop that appends one entry per round and never raises. *)
Lemma for_loop_appends {E A B C} (h : A → C) (g : A → B) (xs : list A)
    (body : C → list B → result E (list B)) (acc : list B) :
  (∀ x acc, body (h x) acc = Ok (acc ++ [g x])) →
  for_loop (h <$> xs) body acc = Ok (acc ++ (g <$> xs)).
Proof.
  intros Hb. revert acc. induction xs as [|x xs IH]; intros acc.
  - simpl. by rewrite app_nil_r.
  - rewrite fmap_cons. cbn [for_loop]. rewrite Hb, IH.
    by rewrite fmap_cons, <-app_assoc.
Qed.

(** X9.  What the [ctrlptsw] getter returns on an object that holds 3D
    points and float weights: for every control point, in order, one entry
    per weight of the whole weight list, in order: [(x*w, y*w, z*w, w)] for
    every pair of [itertools.product], never an error. *)
Theorem ctrlptsw_getter_product (s : Surface) (pts : list vec3)
    (ws : list Qc) :
  _mCtrlPts s = point3 <$> pts → _mWeights s = PFloat <$> ws →
  ctrlptsw s = Ok (weighted_entry <$> itertools_product pts ws).
Proof.
  intros Hpts Hws. unfold ctrlptsw.
  rewrite Hpts, Hws, itertools_product_fmap.
  apply (for_loop_appends (prod_map point3 PFloat) weighted_entry).
  intros [[[x y] z] w] acc. reflexivity.
Qed.

(** X9 at work: the bilinear patch with the weights 1, 2, 3, 4. *)
Lemma ctrlptsw_getter_product_witness :
  ctrlptsw weighted_patch
    = Ok (weighted_entry <$>
            itertools_product (concat bilinear_points)
              [1; 2; Qc_of_Z 3; Qc_of_Z 4]%Qc).
Proof.
  apply (ctrlptsw_getter_product weighted_patch (concat bilinear_points)
           [1; 2; Qc_of_Z 3; Qc_of_Z 4]%Qc).
  - vm_compute. reflexivity.
  - vm_compute. reflexivity.
Defined.

(** ** The points [evaluate] caches, and their order *)

Lemma collect_prefix {A} (xs : list A) (f : A → res vec3) :
  (Ok <$> (collect xs f).2) `prefix_of` (f <$> xs) ∧
  (∀ u, (collect xs f).1 = Ok u → Ok <$> (collect xs f).2 = f <$> xs).
Proof.
  induction xs as [|x xs IH]; simpl; [done|].
  destruct (f x) as [p|e]; simpl.
  - destruct (collect xs f) as [r ps]. simpl in *. destruct IH as [Hpre Hall].
    split.
    + apply prefix_cons. exact Hpre.
    + intros u Hr. f_equal. exact (Hall u Hr).
  - split; [apply prefix_nil | done].
Qed.

Lemma collect_rows_prefix {A} (vs : list A) (row : A → res unit * list vec3)
    (g : A → list (res vec3)) :
  (∀ v, (Ok <$> (row v).2) `prefix_of` g v ∧
        (∀ u, (row v).1 = Ok u → Ok <$> (row v).2 = g v)) →
  (Ok <$> (collect_rows vs row).2) `prefix_of` (vs ≫= g) ∧
  (∀ u, (collect_rows vs row).1 = Ok u →
        Ok <$> (collect_rows vs row).2 = vs ≫= g).
Proof.
  intros Hrow. induction vs as [|v vs IH]; [done|].
  cbn [collect_rows]. rewrite bind_cons. destruct (Hrow v) as [Hpre Hall].
  destruct (row v) as [[[]|e] ps]; cbn [fst snd] in *.
  - destruct (collect_rows vs row) as [r ps']. cbn [fst snd] in *.
    destruct IH as [IHpre IHall]. rewrite fmap_app, (Hall () eq_refl).
    split.
    + by apply prefix_app.
    + intros u Hr. rewrite ?bind_cons. f_equal. by apply (IHall u).
  - split; [by apply prefix_app_r | done].
Qed.

Lemma itertools_product_bind {A B C} (f : A * B → C) (xs : list A)
    (ys : list B) :
  f <$> itertools_product xs ys = xs ≫= λ x, (λ y, f (x, y)) <$> ys.
Proof.
  unfold itertools_product. induction xs as [|x xs IH]; [done|].
  rewrite !bind_cons, fmap_app, IH. f_equal.
  clear IH. induction ys as [|y ys IHy]; [done|].
  rewrite bind_cons, fmap_app, IHy. done.
Qed.

Section evaluate_order.
Context {U : Utilities}.

(** X10.  The points [evaluate] caches, on an object that passes the
    precondition check.  With [ts] the parameters [frange(0, 1, delta)]
    yields, the cache lists the surface points of the pairs [(u, v)], [v]
    in the outer loop and [u] in the inner one: point number
    [i_v * len(ts) + i_u] is the point at [(ts[i_u], ts[i_v])].  When
    [evaluate] returns, the cache holds all [len(ts)] squared points; when
    it raises on the way, the cache holds the points computed until then,
    not the points cached before the call. *)
Theorem evaluate_points_in_order (s : Surface) :
  ¬ not_configured s →
  ((Ok <$> _mSurfPts (exec evaluate s)) `prefix_of`
     ((λ vu, surface_point s vu.2 vu.1) <$>
        itertools_product (frange 0%Qc 1%Qc (_mDelta s))
          (frange 0%Qc 1%Qc (_mDelta s)))) ∧
  (outcome evaluate s = Ok tt →
   Ok <$> _mSurfPts (exec evaluate s) =
     (λ vu, surface_point s vu.2 vu.1) <$>
        itertools_product (frange 0%Qc 1%Qc (_mDelta s))
          (frange 0%Qc 1%Qc (_mDelta s))).
Proof.
  intros Hcfg. unfold outcome, exec. rewrite evaluate_run.
  destruct (check_variables_spec s) as [[Hn _]|[_ ->]]; [done|].
  cbn [fst snd _mSurfPts with_SurfPts].
  rewrite evaluate_samples_surface_point, itertools_product_bind.
  set (ts := frange 0%Qc 1%Qc (_mDelta s)).
  match goal with
  | |- context [collect_rows ts ?row] =>
      destruct (collect_rows_prefix ts row
                  (λ v, (λ u, surface_point s u v) <$> ts)) as [Hpre Hall]
  end.
  - intros v.
    destruct (call (find_span _ _ _ v)) as [span_v|e];
      [|split; [apply prefix_nil | done]].
    destruct (call (basis_functions _ _ span_v v)) as [basis_v|e];
      [|split; [apply prefix_nil | done]].
    apply collect_prefix.
  - split; [exact Hpre | apply Hall].
Qed.

End evaluate_order.

(** X10 at work: the bilinear patch sampled with step 1/2, with the helpers
    of the specification. *)
Lemma evaluate_points_in_order_witness :
  Ok <$> _mSurfPts (exec (@evaluate spec_utilities) coarse_patch) =
    (λ vu, @surface_point spec_utilities coarse_patch vu.2 vu.1) <$>
       itertools_product (spec_frange 0%Qc 1%Qc (_mDelta coarse_patch))
         (spec_frange 0%Qc 1%Qc (_mDelta coarse_patch)).
Proof.
  apply (@evaluate_points_in_order spec_utilities coarse_patch).
  - destruct (check_variables_spec coarse_patch) as [[_ H]|[H _]]; [|done].
    vm_compute in H. discriminate H.
  - vm_compute. reflexivity.
Defined.

(** ** The table [derivatives] returns *)

Lemma py_setitem_insert {A} (l l' : list A) (i : Z) (x : A) :
  py_setitem l i x = Ok l' →
  ∃ j, l' = <[j := x]> l ∧ (j < length l)%nat.
Proof.
  unfold py_setitem, len. cbv zeta. case_decide; [|done].
  intros [= <-]. eexists. split; [done | lia].
Qed.

Lemma py_index_elem_of {A} (l : list A) (i : Z) (x : A) :
  py_index l i = Ok x → x ∈ l.
Proof.
  unfold py_index. cbv zeta. case_decide; [done|].
  destruct (l !! _) eqn:E; [|done]. intros [= <-].
  by eapply list_elem_of_lookup_2.
Qed.

Lemma setitem2_shape {A} (n m : nat) (t t' : list (list A)) (k l : Z) (x : A) :
  table_shape n m t → setitem2 t k l x = Ok t' → table_shape n m t'.
Proof.
  intros [Hn Hm]. unfold setitem2. intros H.
  apply bind_Ok in H as (row & Hrow & H).
  apply bind_Ok in H as (row' & Hrow' & H).
  apply py_index_elem_of in Hrow.
  apply py_setitem_insert in Hrow' as (j & -> & Hj).
  apply py_setitem_insert in H as (i & -> & Hi).
  split; [by rewrite length_insert|].
  apply Forall_insert; [done|]. rewrite length_insert.
  rewrite Forall_forall in Hm. by apply Hm.
Qed.

Lemma ders_skl_step_shape (n m : nat) bfunsders_v temp (k l s_ : Z)
    (SKL SKL' : list (list vec3)) :
  table_shape n m SKL →
  ders_skl_step bfunsders_v temp k l s_ SKL = Ok SKL' →
  table_shape n m SKL'.
Proof.
  assert (Hstep : ∀ c S S', table_shape n m S →
            ders_v_step bfunsders_v temp k l s_ c S = Ok S' →
            table_shape n m S').
  { intros c S S' HS. unfold ders_v_step. intros H.
    apply bind_Ok in H as (row & _ & H). apply bind_Ok in H as (e & _ & H).
    apply bind_Ok in H as (bl & _ & H). apply bind_Ok in H as (b & _ & H).
    apply bind_Ok in H as (t & _ & H). by eapply setitem2_shape. }
  intros HS. unfold ders_skl_step. intros H.
  apply bind_Ok in H as (S1 & H1 & H). apply bind_Ok in H as (S2 & H2 & H).
  eauto.
Qed.

Lemma ders_k_step_shape (n m : nat) ctrl2d bfunsders_u bfunsders_v
    (degU degV span_u span_v order dv k : Z) (SKL SKL' : list (list vec3)) :
  table_shape n m SKL →
  ders_k_step ctrl2d bfunsders_u bfunsders_v degU degV span_u span_v order dv
    k SKL = Ok SKL' →
  table_shape n m SKL'.
Proof.
  intros HS. unfold ders_k_step. cbv zeta. intros H.
  apply bind_Ok in H as (temp & _ & H).
  eapply (for_loop_invariant (table_shape n m)); [|exact HS|exact H].
  intros l S S' _ HS1 Hl.
  eapply (for_loop_invariant (table_shape n m)); [|exact HS1|exact Hl].
  intros s_ S1 S2 _ HS2 Hs. by eapply ders_skl_step_shape.
Qed.

Section derivatives_table.
Context {U : Utilities}.

Lemma derivatives_keeps_shape (s : Surface) (u v : Qc) (order : Z)
    (skl : list (list vec3)) :
  derivatives s u v order = Ok skl →
  table_shape (Z.to_nat (Z.min (_mDegreeU s) order + 1))
    (Z.to_nat (Z.min (_mDegreeV s) order + 1)) skl.
Proof.
  unfold derivatives. cbv zeta. intros H.
  apply bind_Ok in H as ([] & _ & H). apply bind_Ok in H as ([] & _ & H).
  apply bind_Ok in H as (span_u & _ & H). apply bind_Ok in H as (bdu & _ & H).
  apply bind_Ok in H as (span_v & _ & H). apply bind_Ok in H as (bdv & _ & H).
  eapply (for_loop_invariant (table_shape _ _)); [| |exact H].
  - intros k S S' _ HS Hk. by eapply ders_k_step_shape.
  - split; [by rewrite length_replicate|].
    apply Forall_replicate. by rewrite length_replicate.
Qed.

(** X11.  The table [derivatives(u, v, order)] returns has
    [min(degree_u, order) + 1] rows of [min(degree_v, order) + 1] entries
    each (no row where the first number is not positive, empty rows where
    the second is not): every entry [skl[i][j]] with [i] and [j] in these
    ranges exists, and no other. *)
Theorem derivatives_table_shape (s : Surface) (u v : Qc) (order : Z)
    (skl : list (list vec3)) :
  derivatives s u v order = Ok skl →
  table_shape (Z.to_nat (Z.min (_mDegreeU s) order + 1))
    (Z.to_nat (Z.min (_mDegreeV s) order + 1)) skl ∧
  ∀ i j : nat,
    is_Some (entry skl i j) ↔
    Z.of_nat i ≤ Z.min (_mDegreeU s) order ∧
    Z.of_nat j ≤ Z.min (_mDegreeV s) order.
Proof.
  intros H. pose proof (derivatives_keeps_shape s u v order skl H) as Hs.
  split; [done|]. destruct Hs as [Hn Hm]. intros i j. unfold entry. split.
  - intros [x Hx]. destruct (skl !! i) as [row|] eqn:Hrow; [|done].
    simpl in Hx. apply lookup_lt_Some in Hx.
    pose proof (lookup_lt_Some _ _ _ Hrow) as Hi.
    rewrite Forall_forall in Hm.
    rewrite (Hm row) in Hx by (by eapply list_elem_of_lookup_2). lia.
  - intros [Hi Hj].
    destruct (lookup_lt_is_Some_2 skl i) as [row Hrow]; [lia|].
    rewrite Hrow. simpl. apply lookup_lt_is_Some_2.
    rewrite Forall_forall in Hm.
    rewrite (Hm row) by (by eapply list_elem_of_lookup_2). lia.
Qed.

End derivatives_table.

(** X11 at work: the first derivatives of the bilinear patch at
    (1/4, 3/4), a table of 2 rows of 2 entries. *)
Lemma derivatives_table_shape_witness :
  table_shape 2 2 bilinear_skl ∧
  ∀ i j : nat, is_Some (entry bilinear_skl i j) ↔
               Z.of_nat i ≤ 1 ∧ Z.of_nat j ≤ 1.
Proof.
  apply (@derivatives_table_shape spec_utilities
           (@bilinear_patch spec_utilities) q14 q34 1 bilinear_skl).
  compute_done.
Defined.

Lemma setitem2_entry_frame {A} (t t' : list (list A)) (k l : Z) (x : A)
    (i j : nat) :
  0 ≤ k → 0 ≤ l → (i ≠ Z.to_nat k ∨ j ≠ Z.to_nat l) →
  setitem2 t k l x = Ok t' → entry t' i j = entry t i j.
Proof.
  intros Hk Hl Hij H.
  apply setitem2_nonneg in H as (row & Hrow & Hlen & ->); [|done..].
  unfold entry. destruct (decide (i = Z.to_nat k)) as [->|Hi].
  - rewrite list_lookup_insert_eq by (by eapply lookup_lt_Some).
    rewrite Hrow. simpl. rewrite list_lookup_insert_ne; [done|].
    destruct Hij; [done | lia].
  - rewrite list_lookup_insert_ne; [done | lia].
Qed.

Lemma ders_skl_step_zero_above (order : Z) bfunsders_v temp (k l s_ : Z)
    (SKL SKL' : list (list vec3)) :
  0 ≤ k → 0 ≤ l → k + l ≤ order →
  zero_above order SKL →
  ders_skl_step bfunsders_v temp k l s_ SKL = Ok SKL' →
  zero_above order SKL'.
Proof.
  intros Hk Hl Hkl.
  assert (Hstep : ∀ c S S', zero_above order S →
            ders_v_step bfunsders_v temp k l s_ c S = Ok S' →
            zero_above order S').
  { intros c S S' HS. unfold ders_v_step. intros H.
    apply bind_Ok in H as (row & _ & H). apply bind_Ok in H as (e & _ & H).
    apply bind_Ok in H as (bl & _ & H). apply bind_Ok in H as (b & _ & H).
    apply bind_Ok in H as (t & _ & H).
    intros i j x Hij Hx. apply (HS i j x Hij).
    rewrite <-Hx. symmetry.
    eapply (setitem2_entry_frame S S' k l); [done|done| |exact H].
    destruct (decide (i = Z.to_nat k)); [right|left]; lia. }
  intros HS. unfold ders_skl_step. intros H.
  apply bind_Ok in H as (S1 & H1 & H). apply bind_Ok in H as (S2 & H2 & H).
  eauto.
Qed.

Lemma ders_k_step_zero_above ctrl2d bfunsders_u bfunsders_v
    (degU degV span_u span_v order dv k : Z) (SKL SKL' : list (list vec3)) :
  0 ≤ k → zero_above order SKL →
  ders_k_step ctrl2d bfunsders_u bfunsders_v degU degV span_u span_v order dv
    k SKL = Ok SKL' →
  zero_above order SKL'.
Proof.
  intros Hk HS. unfold ders_k_step. cbv zeta. intros H.
  apply bind_Ok in H as (temp & _ & H).
  eapply (for_loop_invariant (zero_above order)); [|exact HS|exact H].
  intros l S S' Hl%elem_of_seqZ HS1 Hloop.
  eapply (for_loop_invariant (zero_above order)); [|exact HS1|exact Hloop].
  intros s_ S1 S2 _ HS2 Hs.
  eapply ders_skl_step_zero_above; [exact Hk| | |exact HS2|exact Hs]; lia.
Qed.

Lemma py_index_in_range {A} (l : list A) (i : nat) :
  (i < length l)%nat → ∃ x, py_index l (Z.of_nat i) = Ok x ∧ l !! i = Some x.
Proof.
  intros Hi. destruct (lookup_lt_is_Some_2 l i Hi) as [x Hx].
  exists x. split; [|done]. apply py_index_nonneg; [lia|].
  by rewrite Nat2Z.id.
Qed.

Section derivatives_entries.
Context {U : Utilities}.

(** X12.  [derivatives] computes the derivatives of total order up to
    [order] only: in the table it returns, every entry [skl[i][j]] with
    [i + j > order] is still the [[0.0, 0.0, 0.0]] the table was filled
    with. *)
Theorem derivatives_zero_above_order (s : Surface) (u v : Qc) (order : Z)
    (skl : list (list vec3)) (i j : nat) (x : vec3) :
  derivatives s u v order = Ok skl →
  order < Z.of_nat i + Z.of_nat j →
  entry skl i j = Some x → x = zero3.
Proof.
  unfold derivatives. cbv zeta. intros H.
  apply bind_Ok in H as ([] & _ & H). apply bind_Ok in H as ([] & _ & H).
  apply bind_Ok in H as (span_u & _ & H). apply bind_Ok in H as (bdu & _ & H).
  apply bind_Ok in H as (span_v & _ & H). apply bind_Ok in H as (bdv & _ & H).
  revert i j x. change (zero_above order skl).
  eapply (for_loop_invariant (zero_above order)); [| |exact H].
  - intros k S S' Hk%elem_of_seqZ HS Hstep.
    eapply ders_k_step_zero_above; [|exact HS|exact Hstep]. lia.
  - intros i j x _. unfold entry. intros Hx.
    destruct (replicate _ _ !! i) as [row|] eqn:Hrow; [|done].
    apply lookup_replicate in Hrow as [-> _]. simpl in Hx.
    by apply lookup_replicate in Hx as [-> _].
Qed.

(** X13.  [tangent] adds no failure of its own.  For degrees that are not
    negative, whenever [derivatives(u, v, 1)] returns a table, [tangent]
    returns the point and the two first derivatives, which are the entries
    [[0][0]], [[1][0]] and [[0][1]] of that table; and when the call of
    [derivatives] raises, [tangent] raises the same exception. *)
Theorem tangent_returns_with_derivatives (s : Surface) (u v : Qc) :
  0 ≤ _mDegreeU s → 0 ≤ _mDegreeV s →
  match derivatives s u v 1 with
  | Ok skl =>
      ∃ point der_u der_v,
        tangent s u v = Ok (point, der_u, der_v) ∧
        entry skl 0 0 = Some point ∧ entry skl 1 0 = Some der_u ∧
        entry skl 0 1 = Some der_v
  | Err e => tangent s u v = Err e
  end.
Proof.
  intros HdU HdV. unfold tangent.
  destruct (derivatives s u v 1) as [skl|e] eqn:Hd; [|done].
  pose proof (derivatives_keeps_shape s u v 1 skl Hd) as [Hn Hm].
  assert (Hcfg : _mDegreeU s ≠ 0 ∧ _mDegreeV s ≠ 0).
  { unfold derivatives in Hd. apply bind_Ok in Hd as ([] & Hc & _).
    destruct (check_variables_spec s) as [[_ Hbad]|[Hn' _]]; [congruence|].
    unfold not_configured in Hn'. tauto. }
  replace (Z.to_nat (Z.min (_mDegreeU s) 1 + 1)) with 2%nat in Hn by lia.
  replace (Z.to_nat (Z.min (_mDegreeV s) 1 + 1)) with 2%nat in Hm by lia.
  rewrite Forall_forall in Hm.
  destruct (py_index_in_range skl 0) as (row0 & Hr0 & Hl0); [lia|].
  destruct (py_index_in_range skl 1) as (row1 & Hr1 & Hl1); [lia|].
  pose proof (Hm row0 (list_elem_of_lookup_2 _ _ _ Hl0)) as H0.
  pose proof (Hm row1 (list_elem_of_lookup_2 _ _ _ Hl1)) as H1.
  destruct (py_index_in_range row0 0) as (p & Hp & Hlp); [lia|].
  destruct (py_index_in_range row1 0) as (du & Hdu & Hldu); [lia|].
  destruct (py_index_in_range row0 1) as (dv & Hdv & Hldv); [lia|].
  exists p, du, dv. unfold entry. rewrite Hl0, Hl1. simpl.
  split_and!; try done.
  change (Z.of_nat 0) with 0 in *. change (Z.of_nat 1) with 1 in *.
  unfold mbind, res_bind. cbv beta iota.
  rewrite Hr0, Hp, Hr1, Hdu, Hdv. done.
Qed.

End derivatives_entries.

(** X12 at work: the bilinear patch at (1/4, 3/4) with [order = 1]; the
    entry [[1][1]] has not been computed. *)
Lemma derivatives_zero_above_order_witness :
  entry bilinear_skl 1 1 = Some zero3 ∧ zero3 = zero3.
Proof.
  split; [reflexivity|].
  apply (@derivatives_zero_above_order spec_utilities
           (@bilinear_patch spec_utilities) q14 q34 1 bilinear_skl 1 1 zero3).
  - compute_done.
  - lia.
  - reflexivity.
Defined.

(** X13 at work: the tangent of the bilinear patch at (1/4, 3/4). *)
Lemma tangent_returns_with_derivatives_witness :
  match @derivatives spec_utilities (@bilinear_patch spec_utilities) q14 q34 1
  with
  | Ok skl =>
      ∃ point der_u der_v,
        @tangent spec_utilities (@bilinear_patch spec_utilities) q14 q34
          = Ok (point, der_u, der_v) ∧
        entry skl 0 0 = Some point ∧ entry skl 1 0 = Some der_u ∧
        entry skl 0 1 = Some der_v
  | Err e =>
      @tangent spec_utilities (@bilinear_patch spec_utilities) q14 q34 = Err e
  end.
Proof.
  apply (@tangent_returns_with_derivatives spec_utilities
           (@bilinear_patch spec_utilities) q14 q34).
  - vm_compute. by intros [=].
  - vm_compute. by intros [=].
Defined.

(** ** Reading control points from a file *)

Lemma MF_bind_run {A B} (m : MF A) (f : A → MF B) (s : Surface) :
  (m ≫= f) s =
  match m s with
  | (Ok a, s') => f a s'
  | (Err e, s') => (Err e, s')
  end.
Proof. reflexivity. Qed.

Lemma read_state_eta (s : Surface) :
  read_state (_mCtrlPts s) (_mCtrlPts_sizeU s) (_mCtrlPts_sizeV s) s = s.
Proof. by destruct s. Qed.

Lemma with_CtrlPts2D_eta (s : Surface) : with_CtrlPts2D (_mCtrlPts2D s) s = s.
Proof. by destruct s. Qed.

Lemma py_strip_blank (s : string) : blank s = true → py_strip s = EmptyString.
Proof.
  intros Hs. unfold py_strip.
  assert (Hl : lstrip s = EmptyString).
  { induction s as [|c s IH]; [done|]. simpl in *.
    apply andb_true_iff in Hs as [Hc Hs]. rewrite Hc. by apply IH. }
  by rewrite Hl.
Qed.

Section reading_runs.
Context {B : Builtins}.

Lemma read_row_run (cprs : list string) (l : list pyval) (u v : Z)
    (s0 : Surface) :
  read_row cprs (read_state l u v s0) =
  ((read_points cprs).1,
   read_state (l ++ (point_val <$> (read_points cprs).2)) u
     (v + len (read_points cprs).2) s0).
Proof.
  unfold read_row. revert l v. induction cprs as [|cpr cprs IH]; intros l v.
  - simpl. unfold mret, M_ret, len. simpl. by rewrite app_nil_r, Z.add_0_r.
  - cbn [for_each read_points]. rewrite !bind_run. unfold lift at 1.
    destruct (read_point cpr) as [pt|e].
    + cbv beta iota. rewrite bind_run. unfold modify at 1. cbv beta iota.
      unfold modify at 1.
      lazymatch goal with
      | |- for_each _ _ ?st = _ =>
          change st with (read_state (l ++ [point_val pt]) u (v + 1) s0)
      end.
      rewrite IH. destruct (read_points cprs) as [r pts]. simpl.
      rewrite <-app_assoc. simpl. do 2 f_equal. unfold len. simpl. lia.
    + simpl. unfold len. simpl. by rewrite app_nil_r, Z.add_0_r.
Qed.

Lemma read_rows_run (fp : list string) (l : list pyval) (u v : Z)
    (s0 : Surface) :
  read_rows fp (read_state l u v s0) =
  ((read_file fp v).1.1.1,
   read_state (l ++ (point_val <$> (read_file fp v).1.1.2))
     (u + (read_file fp v).1.2) (read_file fp v).2 s0).
Proof.
  unfold read_rows. revert l u v. induction fp as [|line fp IH]; intros l u v.
  - simpl. unfold mret, M_ret. by rewrite app_nil_r, Z.add_0_r.
  - cbn [for_each read_file]. cbv zeta. rewrite !bind_run.
    unfold modify at 1. cbv beta iota. rewrite bind_run.
    lazymatch goal with
    | |- context [read_row _ ?st] =>
        change st with (read_state l u 0 s0)
    end.
    fold (line_entries line). rewrite read_row_run.
    destruct (read_points (line_entries line)) as [[[]|e] pts].
    + cbn [fst snd]. unfold modify at 1. cbv beta iota. rewrite Z.add_0_l.
      lazymatch goal with
      | |- for_each _ _ ?st = _ =>
          change st with (read_state (l ++ (point_val <$> pts)) (u + 1)
                            (len pts) s0)
      end.
      rewrite IH.
      destruct (read_file fp (len pts)) as [[[r pts'] n] v']. simpl.
      rewrite fmap_app, app_assoc. do 2 f_equal. lia.
    + simpl. by rewrite Z.add_0_r, Z.add_0_l.
Qed.

(** What [read_ctrlpts] does before and around the loops: both resets, then
    the attempt to open the file. *)
Lemma read_ctrlpts_run (filename : string) (s : Surface) :
  read_ctrlpts filename s =
  match py_open filename with
  | Some fp =>
      from_M (read_rows fp;;
              build_ctrlpts2d;;
              modify (λ s, with_Weights
                (py_repeat (py_repeat [PFloat 1%Qc] (_mCtrlPts_sizeU s))
                   (_mCtrlPts_sizeV s)) s))
        (with_SurfPts [] (cleared_ctrlpts s))
  | None =>
      (Err (SystemExit (msg_cannot_open +:+ filename) 1),
       with_SurfPts [] (cleared_ctrlpts s))
  end.
Proof.
  unfold read_ctrlpts. rewrite MF_bind_run. unfold from_M at 1.
  rewrite reset_ctrlpts_run. cbv beta iota.
  rewrite MF_bind_run. unfold from_M at 1. rewrite reset_surface_run.
  cbv beta iota. unfold with_open_file. by destruct (py_open filename).
Qed.

Lemma read_ctrlptsw_run (filename : string) (s : Surface) :
  read_ctrlptsw filename s =
  match py_open filename with
  | Some fp =>
      from_M (read_rowsw fp;; build_ctrlpts2d)
        (with_SurfPts [] (cleared_ctrlpts s))
  | None =>
      (Err (SystemExit (msg_cannot_open +:+ filename) 1),
       with_SurfPts [] (cleared_ctrlpts s))
  end.
Proof.
  unfold read_ctrlptsw. rewrite MF_bind_run. unfold from_M at 1.
  rewrite reset_ctrlpts_run. cbv beta iota.
  rewrite MF_bind_run. unfold from_M at 1. rewrite reset_surface_run.
  cbv beta iota. unfold with_open_file. by destruct (py_open filename).
Qed.

(** X14.  A file that cannot be opened ends the program: [read_ctrlpts] and
    [read_ctrlptsw] print the message with the file name and leave through
    [sys.exit(1)], after they have already discarded the control points
    (with the 2D list, the weights and the sizes) and the cached surface
    points of the object. *)
Theorem read_missing_file_exits (filename : string) (s : Surface) :
  py_open filename = None →
  read_ctrlpts filename s =
    (Err (SystemExit ("ERROR: Cannot open file " +:+ filename) 1),
     with_SurfPts [] (cleared_ctrlpts s)) ∧
  read_ctrlptsw filename s =
    (Err (SystemExit ("ERROR: Cannot open file " +:+ filename) 1),
     with_SurfPts [] (cleared_ctrlpts s)).
Proof.
  intros Hopen. by rewrite read_ctrlpts_run, read_ctrlptsw_run, Hopen.
Qed.

(** The loops on a file of which every line can be read. *)
Lemma read_file_grid (fp : list string) (grid : list (list vec3)) (v : Z) :
  Forall2 (λ line row,
    read_points (line_entries line) = (Ok tt, coords3 <$> row)) fp grid →
  read_file fp v =
    (Ok tt, coords3 <$> concat grid, len grid,
     default v (len <$> last grid)).
Proof.
  intros Hfp. revert v. induction Hfp as [|line row fp grid Hline Hfp IH];
    intros v; [done|].
  cbn [read_file]. rewrite Hline, IH. rewrite concat_cons, fmap_app.
  f_equal; [f_equal; unfold len; simpl; lia|].
  unfold len. rewrite length_fmap.
  destruct grid as [|row' grid]; [reflexivity|]. rewrite last_cons_cons.
  destruct (last (row' :: grid)) eqn:El; [done|]. by apply last_None in El.
Qed.

(** X15.  [read_ctrlpts] on a file of which every line holds the same
    number of entries, each of which can be read as a point: the object
    holds the grid of the file.  [_mCtrlPts_sizeU] is the number of lines,
    [_mCtrlPts_sizeV] the number of points on a line, the flat list holds
    the lines one after the other, [ctrlpts2d[i][j]] is point [j] of line
    [i], and there is one weight 1.0 per point; the degrees are not
    consulted.  (The sizes and the 2D list must not be left over from an
    earlier assignment while the flat list is empty, a state only the
    [ctrlptsw] setter can produce.) *)
Theorem read_ctrlpts_grid (filename : string) (fp : list string)
    (grid : list (list vec3)) (C : Z) (s : Surface) :
  py_open filename = Some fp →
  Forall2 (λ line row,
    read_points (line_entries line) = (Ok tt, coords3 <$> row)) fp grid →
  grid ≠ [] → Forall (λ row, len row = C) grid →
  (_mCtrlPts s = [] → _mCtrlPts_sizeU s = 0 ∧ _mCtrlPts2D s = []) →
  read_ctrlpts filename s =
    (Ok tt,
     with_Weights (replicate (Z.to_nat (len grid * C)) (PFloat 1%Qc))
       (with_CtrlPts2D (fmap (M:=list) point3 <$> grid)
          (read_state (point3 <$> concat grid) (len grid) C
             (with_SurfPts [] (cleared_ctrlpts s))))).
Proof.
  intros Hopen Hfp Hne Hrows Hstale. rewrite read_ctrlpts_run, Hopen.
  set (s0 := with_SurfPts [] (cleared_ctrlpts s)).
  assert (Hs0 : _mCtrlPts s0 = [] ∧ _mCtrlPts_sizeU s0 = 0 ∧
                _mCtrlPts2D s0 = []).
  { subst s0. unfold cleared_ctrlpts.
    destruct (_mCtrlPts s) eqn:E; simpl; [|done].
    rewrite E. by destruct (Hstale eq_refl). }
  destruct Hs0 as (Hl0 & Hu0 & H2d0).
  assert (HC : 0 ≤ C).
  { destruct grid as [|row grid]; [done|].
    apply Forall_cons in Hrows as [<- _]. unfold len. lia. }
  assert (Hlast : default (_mCtrlPts_sizeV s0) (len <$> last grid) = C).
  { destruct (last grid) as [row|] eqn:El.
    - simpl. rewrite Forall_forall in Hrows. apply Hrows.
      apply last_Some in El as [l' ->]. apply elem_of_app. right. constructor.
    - apply last_None in El. done. }
  unfold from_M. rewrite bind_run.
  rewrite <-(read_state_eta s0) at 1. rewrite read_rows_run, Hl0, Hu0.
  rewrite (read_file_grid fp grid _ Hfp), Hlast. cbn [fst snd].
  rewrite app_nil_l, Z.add_0_l, <-list_fmap_compose.
  change (point_val ∘ coords3) with point3.
  set (flat := point3 <$> concat grid).
  set (st := read_state flat (len grid) C s0).
  assert (Hlen : len flat = len grid * C).
  { subst flat. unfold len. rewrite length_fmap.
    clear -Hrows. induction Hrows as [|row grid Hrow Hrows IH]; [done|].
    simpl. rewrite length_app. unfold len in *. lia. }
  assert (Hbuild : build_ctrlpts2d st
            = (Ok tt, with_CtrlPts2D (fmap (M:=list) point3 <$> grid) st)).
  { assert (Hst : st = with_CtrlPts2D [] st).
    { rewrite <-(with_CtrlPts2D_eta st) at 1. f_equal. exact H2d0. }
    unfold build_ctrlpts2d. rewrite bind_run. unfold get at 1. cbv beta iota.
    change (_mCtrlPts_sizeU st) with (len grid). unfold range.
    replace (len grid - 0) with (Z.of_nat (length grid)) by (unfold len; lia).
    rewrite Hst at 1. rewrite build_rows_ok;
      [|done|done|change (_mCtrlPts_sizeV st) with C;
                   change (_mCtrlPts st) with flat; unfold len in *; lia].
    f_equal. f_equal.
    change (_mCtrlPts_sizeV st) with C. change (_mCtrlPts st) with flat.
    rewrite app_nil_l. rewrite <-(chunks_concat grid C Hrows) at 2.
    unfold chunks. rewrite <-list_fmap_compose.
    apply list_fmap_ext. intros _ i _. simpl.
    subst flat. by rewrite fmap_take, fmap_drop. }
  rewrite bind_run, Hbuild. cbv beta iota. unfold modify. do 2 f_equal.
  simpl. rewrite py_repeat_singleton, py_repeat_replicate. f_equal.
  unfold len. lia.
Qed.

(** The loops on a file with a line of whitespace after lines that can be
    read. *)
Lemma read_file_blank (pre post : list string) (line : string)
    (grid : list (list vec3)) (m : string) (v : Z) :
  Forall2 (λ line row,
    read_points (line_entries line) = (Ok tt, coords3 <$> row)) pre grid →
  blank line = true → py_float EmptyString = Err m →
  read_file (pre ++ line :: post) v =
    (Err (ValueError m), coords3 <$> concat grid, len grid, 0).
Proof.
  intros Hpre Hblank Hfloat. revert v.
  induction Hpre as [|l row pre grid Hline Hpre IH]; intros v.
  - cbn [app read_file]. unfold line_entries. rewrite py_strip_blank by done.
    cbn [py_split read_points]. unfold read_point. cbn [py_split].
    change (py_index [EmptyString] 0) with (@Ok exn _ EmptyString).
    unfold mbind at 1, res_bind at 1. cbv beta iota.
    unfold float. rewrite Hfloat. done.
  - rewrite <-app_comm_cons. cbn [read_file]. rewrite Hline, IH.
    rewrite concat_cons, fmap_app. f_equal. f_equal.
    unfold len. simpl. lia.
Qed.

(** X16.  A line of whitespace in the file, for instance an empty last
    line, makes [read_ctrlpts] raise the [ValueError] of [float('')]: the
    line splits into one empty entry with one empty field.  The exception
    is not caught (only [IOError] is), and the object is left half
    assigned: the flat list holds the points of the lines before,
    [_mCtrlPts_sizeU] has counted these lines, [_mCtrlPts_sizeV] is 0, and
    neither the 2D list nor the weights have been generated. *)
Theorem read_ctrlpts_blank_line (filename : string) (pre post : list string)
    (line : string) (grid : list (list vec3)) (m : string) (s : Surface) :
  py_open filename = Some (pre ++ line :: post) →
  Forall2 (λ line row,
    read_points (line_entries line) = (Ok tt, coords3 <$> row)) pre grid →
  blank line = true → py_float EmptyString = Err m →
  read_ctrlpts filename s =
    (Err (Uncaught (ValueError m)),
     read_state (point3 <$> concat grid)
       (_mCtrlPts_sizeU (cleared_ctrlpts s) + len grid) 0
       (with_SurfPts [] (cleared_ctrlpts s))).
Proof.
  intros Hopen Hpre Hblank Hfloat. rewrite read_ctrlpts_run, Hopen.
  set (s0 := with_SurfPts [] (cleared_ctrlpts s)).
  assert (Hl0 : _mCtrlPts s0 = []).
  { subst s0. simpl. apply cleared_ctrlpts_empty. }
  unfold from_M. rewrite bind_run.
  rewrite <-(read_state_eta s0) at 1. rewrite read_rows_run, Hl0.
  rewrite (read_file_blank pre post line grid m _ Hpre Hblank Hfloat).
  cbn [fst snd]. rewrite app_nil_l, <-list_fmap_compose.
  change (point_val ∘ coords3) with point3. done.
Qed.

End reading_runs.

(** X14 at work: a file the example file system does not hold. *)
Lemma read_missing_file_exits_witness :
  @read_ctrlpts example_builtins "missing.txt" sampled_patch =
    (Err (SystemExit "ERROR: Cannot open file missing.txt" 1),
     with_SurfPts [] (cleared_ctrlpts sampled_patch)) ∧
  @read_ctrlptsw example_builtins "missing.txt" sampled_patch =
    (Err (SystemExit "ERROR: Cannot open file missing.txt" 1),
     with_SurfPts [] (cleared_ctrlpts sampled_patch)).
Proof.
  apply (@read_missing_file_exits example_builtins "missing.txt"
           sampled_patch).
  reflexivity.
Defined.

(** X15 at work: the file of 2 lines of 3 points read into a new object. *)
Lemma read_ctrlpts_grid_witness :
  @read_ctrlpts example_builtins "grid.txt" init =
    (Ok tt,
     with_Weights (replicate 6 (PFloat 1%Qc))
       (with_CtrlPts2D (fmap (M:=list) point3 <$> example_grid)
          (read_state (point3 <$> concat example_grid) 2 3
             (with_SurfPts [] (cleared_ctrlpts init))))).
Proof.
  apply (@read_ctrlpts_grid example_builtins "grid.txt"
           ["0,0,0;1,0,0;2,0,0" +:+ newline; "0,1,0;1,1,0;2,1,0" +:+ newline]
           example_grid 3 init).
  - reflexivity.
  - repeat constructor; compute_done.
  - discriminate.
  - repeat constructor.
  - intros _. split; reflexivity.
Defined.

(** X16 at work: the same file with an empty line at its end. *)
Lemma read_ctrlpts_blank_line_witness :
  @read_ctrlpts example_builtins "blank.txt" init =
    (Err (Uncaught (ValueError "could not convert string to float: ''")),
     read_state (point3 <$> concat example_grid) 2 0
       (with_SurfPts [] (cleared_ctrlpts init))).
Proof.
  apply (@read_ctrlpts_blank_line example_builtins "blank.txt"
           ["0,0,0;1,0,0;2,0,0" +:+ newline; "0,1,0;1,1,0;2,1,0" +:+ newline]
           [] newline example_grid
           "could not convert string to float: ''" init).
  - reflexivity.
  - repeat constructor; compute_done.
  - reflexivity.
  - reflexivity.
Defined.

(** ** Bounds that hold after every sequence of calls *)

Ltac bounds_auto :=
  keeps_auto; unfold in_bounds in *; simpl in *; intuition lia.

Lemma in_bounds_reset_surface : keeps in_bounds _reset_surface.
Proof. bounds_auto. Qed.

Lemma in_bounds_reset_ctrlpts : keeps in_bounds _reset_ctrlpts.
Proof. unfold _reset_ctrlpts. bounds_auto. Qed.

Lemma in_bounds_build_ctrlpts2d : keeps in_bounds build_ctrlpts2d.
Proof.
  unfold build_ctrlpts2d, build_rows_step, build_row_step. bounds_auto.
Qed.

Lemma in_bounds_ctrlpts_setter value : keeps in_bounds (ctrlpts_setter value).
Proof.
  unfold ctrlpts_setter.
  apply keeps_bind; [apply in_bounds_reset_surface | intros _].
  apply keeps_bind; [apply in_bounds_reset_ctrlpts | intros _].
  apply keeps_bind; [apply keeps_get | intros s0].
  case_decide; [apply keeps_raise|].
  intros s Hs. rewrite bind_run.
  pose proof (append_rows_outcome value 0 s) as Hk.
  assert (Hrows : in_bounds (append_rows value 0 s).2).
  { revert s Hs Hk. unfold append_rows, append_coords. intros s Hs _.
    revert s Hs. change (keeps in_bounds
      (for_fold value (λ u_coords u_cnt, s ← get;
         if decide (len u_coords < _mDegreeU s + 1)
         then raise (ValueError msg_ctrlpts_u)
         else let u_cnt0 := u_cnt + 1 in
              for_each u_coords (λ coord,
                if decide (len coord < 0 ∨ len coord > 3)
                then raise (ValueError msg_3d)
                else let coord_float := point_val coord in
                     modify (λ s, with_CtrlPts (_mCtrlPts s ++ [coord_float]) s));;
              mret u_cnt0) 0)).
    cbv zeta. bounds_auto. }
  destruct (append_rows value 0 s) as [[k|e] s2]; [|done].
  simpl in Hk, Hrows. destruct Hk as [_ ->].
  revert s2 Hrows.
  lazymatch goal with
  | |- ∀ s2, in_bounds s2 → in_bounds (?m s2).2 => change (keeps in_bounds m)
  end.
  apply keeps_bind; [|intros _].
  { apply keeps_modify. intros s2 Hs2. unfold in_bounds in *. simpl.
    unfold len. intuition lia. }
  apply keeps_bind; [|intros _].
  { apply keeps_modify. intros s2 Hs2. unfold in_bounds in *. simpl.
    unfold len. intuition lia. }
  apply keeps_bind; [apply in_bounds_build_ctrlpts2d | intros _].
  bounds_auto.
Qed.

Section bounds.
Context {U : Utilities} {B : Builtins}.

Lemma in_bounds_read_rows fp : keeps in_bounds (read_rows fp).
Proof. unfold read_rows, read_row. cbv zeta. bounds_auto. Qed.

Lemma in_bounds_read_rowsw fp : keeps in_bounds (read_rowsw fp).
Proof. unfold read_rowsw, read_roww. cbv zeta. bounds_auto. Qed.

Lemma from_M_state {A} (m : M A) (s : Surface) : (from_M m s).2 = (m s).2.
Proof. unfold from_M. by destruct (m s) as [[a|e] s']. Qed.

Lemma in_bounds_cleared (s : Surface) :
  in_bounds s → in_bounds (with_SurfPts [] (cleared_ctrlpts s)).
Proof.
  intros Hs. unfold cleared_ctrlpts, in_bounds in *.
  destruct (_mCtrlPts s); simpl; intuition lia.
Qed.

Lemma in_bounds_after_call (s : Surface) (c : method_call) :
  in_bounds s → in_bounds (after_call s c).
Proof.
  intros Hs. destruct c as [v|v|v|v|v|v|v|v|f|f| |]; unfold after_call, exec.
  - revert s Hs. change (keeps in_bounds (degree_u_setter v)).
    unfold degree_u_setter. bounds_auto.
  - revert s Hs. change (keeps in_bounds (degree_v_setter v)).
    unfold degree_v_setter. bounds_auto.
  - by apply in_bounds_ctrlpts_setter.
  - revert s Hs. change (keeps in_bounds (weights_setter v)).
    unfold weights_setter. bounds_auto.
  - revert s Hs. change (keeps in_bounds (knotvector_u_setter v)).
    unfold knotvector_u_setter. bounds_auto.
  - revert s Hs. change (keeps in_bounds (knotvector_v_setter v)).
    unfold knotvector_v_setter. bounds_auto.
  - rewrite delta_setter_run. case_decide as Hv; [done|].
    unfold in_bounds in *. simpl.
    assert (0 < v)%Qc by (apply Qcnot_le_lt; tauto).
    assert (v < 1)%Qc by (apply Qcnot_le_lt; tauto).
    intuition lia.
  - revert s Hs. change (keeps in_bounds (ctrlptsw_setter v)).
    unfold ctrlptsw_setter. bounds_auto.
  - rewrite read_ctrlpts_run. apply in_bounds_cleared in Hs.
    destruct (py_open f) as [fp|]; [|done]. rewrite from_M_state.
    revert Hs. generalize (with_SurfPts [] (cleared_ctrlpts s)).
    lazymatch goal with
    | |- ∀ s2, in_bounds s2 → in_bounds (?m s2).2 => change (keeps in_bounds m)
    end.
    apply keeps_bind; [apply in_bounds_read_rows | intros _].
    apply keeps_bind; [apply in_bounds_build_ctrlpts2d | intros _].
    bounds_auto.
  - rewrite read_ctrlptsw_run. apply in_bounds_cleared in Hs.
    destruct (py_open f) as [fp|]; [|done]. rewrite from_M_state.
    revert Hs. generalize (with_SurfPts [] (cleared_ctrlpts s)).
    lazymatch goal with
    | |- ∀ s2, in_bounds s2 → in_bounds (?m s2).2 => change (keeps in_bounds m)
    end.
    apply keeps_bind; [apply in_bounds_read_rowsw | intros _].
    apply in_bounds_build_ctrlpts2d.
  - rewrite evaluate_run. destruct (_check_variables s); [|done].
    unfold in_bounds in *. simpl. intuition lia.
  - rewrite evaluate_rational_run. destruct (_check_variables s); [|done].
    destruct (weighted_ctrlpts s); unfold in_bounds in *; simpl;
      intuition lia.
Qed.

(** X17.  Bounds no sequence of calls with numbers as arguments can break
    (integers for the degrees, real numbers for the delta, the coordinates,
    the weights and the knots; a NaN, which passes the tests of the setters,
    is no such argument).  Whatever public methods are called on a new
    object with such arguments, and whether the calls return or raise: the
    degrees are not negative, the delta lies strictly between 0 and 1 (so
    the sampling loops are finite), and the two stored sizes are not
    negative. *)
Theorem bounds_hold_after_calls (cs : list method_call) :
  0 ≤ _mDegreeU (after_calls cs) ∧ 0 ≤ _mDegreeV (after_calls cs) ∧
  (0 < _mDelta (after_calls cs))%Qc ∧ (_mDelta (after_calls cs) < 1)%Qc ∧
  0 ≤ _mCtrlPts_sizeU (after_calls cs) ∧ 0 ≤ _mCtrlPts_sizeV (after_calls cs).
Proof.
  change (in_bounds (after_calls cs)). unfold after_calls.
  assert (Hinit : in_bounds init) by (unfold in_bounds; simpl; done).
  revert Hinit. generalize init.
  induction cs as [|c cs IH]; intros s Hs; [done|].
  simpl. apply IH. by apply in_bounds_after_call.
Qed.

End bounds.

(** ** Reading weighted control points from a file *)

Lemma concat_fmap_fmap {A B} (f : A → B) (ll : list (list A)) :
  concat (fmap (M:=list) f <$> ll) = f <$> concat ll.
Proof.
  induction ll as [|l ll IH]; [done|].
  by rewrite fmap_cons, !concat_cons, fmap_app, IH.
Qed.

Lemma elem_of_concat {A} (x : A) (ll : list (list A)) :
  x ∈ concat ll → ∃ l, x ∈ l ∧ l ∈ ll.
Proof.
  induction ll as [|l ll IH]; simpl; [by intros ?%elem_of_nil|].
  intros [Hx|Hx]%elem_of_app.
  - exists l. split; [done | constructor].
  - destruct (IH Hx) as (l' & Hl' & Hin). exists l'. split; [done|].
    by constructor.
Qed.

Lemma Qc_div_mul (a w : Qc) : w ≠ 0%Qc → (a / w * w = a)%Qc.
Proof. intros Hw. by field. Qed.

Section readingw_runs.
Context {B : Builtins}.

Lemma read_roww_run (cprs : list string) (l ws : list pyval) (u v : Z)
    (s0 : Surface) :
  read_roww cprs (read_statew l ws u v s0) =
  ((read_pointsw cprs).1,
   read_statew (l ++ ((λ pw, point_val pw.1) <$> (read_pointsw cprs).2))
     (ws ++ ((λ pw, PFloat pw.2) <$> (read_pointsw cprs).2)) u
     (v + len (read_pointsw cprs).2) s0).
Proof.
  unfold read_roww. revert l ws v.
  induction cprs as [|cpr cprs IH]; intros l ws v.
  - simpl. unfold mret, M_ret, len. simpl. by rewrite !app_nil_r, Z.add_0_r.
  - cbn [for_each read_pointsw]. rewrite !bind_run. unfold lift at 1.
    destruct (read_pointw cpr) as [[pt w]|e].
    + cbv beta iota. rewrite bind_run. unfold modify at 1. cbv beta iota.
      rewrite bind_run. unfold modify at 1. cbv beta iota.
      unfold modify at 1.
      lazymatch goal with
      | |- for_each _ _ ?st = _ =>
          change st with (read_statew (l ++ [point_val pt]) (ws ++ [PFloat w])
                            u (v + 1) s0)
      end.
      rewrite IH. destruct (read_pointsw cprs) as [r pws]. simpl.
      rewrite <-!app_assoc. simpl. do 2 f_equal. unfold len. simpl. lia.
    + simpl. unfold len. simpl. by rewrite !app_nil_r, Z.add_0_r.
Qed.

Lemma read_rowsw_run (fp : list string) (l ws : list pyval) (u v : Z)
    (s0 : Surface) :
  read_rowsw fp (read_statew l ws u v s0) =
  ((read_filew fp v).1.1.1,
   read_statew (l ++ ((λ pw, point_val pw.1) <$> (read_filew fp v).1.1.2))
     (ws ++ ((λ pw, PFloat pw.2) <$> (read_filew fp v).1.1.2))
     (u + (read_filew fp v).1.2) (read_filew fp v).2 s0).
Proof.
  unfold read_rowsw. revert l ws u v.
  induction fp as [|line fp IH]; intros l ws u v.
  - simpl. unfold mret, M_ret. by rewrite !app_nil_r, Z.add_0_r.
  - cbn [for_each read_filew]. cbv zeta. rewrite !bind_run.
    unfold modify at 1. cbv beta iota. rewrite bind_run.
    lazymatch goal with
    | |- context [read_roww _ ?st] =>
        change st with (read_statew l ws u 0 s0)
    end.
    fold (line_entries line). rewrite read_roww_run.
    destruct (read_pointsw (line_entries line)) as [[[]|e] pws].
    + cbn [fst snd]. unfold modify at 1. cbv beta iota. rewrite Z.add_0_l.
      lazymatch goal with
      | |- for_each _ _ ?st = _ =>
          change st with
            (read_statew (l ++ ((λ pw, point_val pw.1) <$> pws))
               (ws ++ ((λ pw, PFloat pw.2) <$> pws)) (u + 1) (len pws) s0)
      end.
      rewrite IH.
      destruct (read_filew fp (len pws)) as [[[r pws'] n] v']. simpl.
      rewrite !fmap_app, !app_assoc. do 2 f_equal. lia.
    + simpl. by rewrite Z.add_0_r, Z.add_0_l.
Qed.

(** An entry of four floats, the fourth not 0, is read as the point divided
    by the weight, and the weight. *)
Lemma read_pointw_hentry (cpr : string) (h : vec4) :
  hentry cpr = Ok h → get4 3 h ≠ 0%Qc → read_pointw cpr = Ok (unweighted h).
Proof.
  unfold hentry, read_pointw. cbv zeta. intros H Hw.
  apply bind_Ok in H as (c0 & Hc0 & H). apply bind_Ok in H as (a & Ha & H).
  apply bind_Ok in H as (c1 & Hc1 & H). apply bind_Ok in H as (b & Hb & H).
  apply bind_Ok in H as (c2 & Hc2 & H). apply bind_Ok in H as (c & Hc & H).
  apply bind_Ok in H as (c3 & Hc3 & H). apply bind_Ok in H as (w & Hw' & H).
  injection H as <-. simpl in Hw.
  rewrite Hc0, Hc1, Hc2, Hc3. unfold mbind, res_bind. cbv beta iota.
  rewrite Ha, Hb, Hc, Hw'. cbv beta iota. unfold py_div.
  destruct (decide (w = 0%Qc)); [done|]. reflexivity.
Qed.

Lemma read_pointsw_hentries (cprs : list string) (row : list vec4) :
  Forall2 (λ cpr h, hentry cpr = Ok h) cprs row →
  Forall (λ h, get4 3 h ≠ 0%Qc) row →
  read_pointsw cprs = (Ok tt, unweighted <$> row).
Proof.
  intros Hrow. induction Hrow as [|cpr h cprs row Hh Hrow IH]; [done|].
  intros Hw. apply Forall_cons in Hw as [Hw Hws].
  cbn [read_pointsw]. rewrite (read_pointw_hentry cpr h Hh Hw).
  by rewrite (IH Hws).
Qed.

Lemma read_filew_grid (fp : list string) (grid : list (list vec4)) (v : Z) :
  Forall2 (λ line row,
    Forall2 (λ cpr h, hentry cpr = Ok h) (line_entries line) row) fp grid →
  Forall (Forall (λ h, get4 3 h ≠ 0%Qc)) grid →
  read_filew fp v =
    (Ok tt, unweighted <$> concat grid, len grid,
     default v (len <$> last grid)).
Proof.
  intros Hfp. revert v. induction Hfp as [|line row fp grid Hline Hfp IH];
    intros v Hw; [done|].
  apply Forall_cons in Hw as [Hw Hws].
  cbn [read_filew]. rewrite (read_pointsw_hentries _ _ Hline Hw).
  rewrite (IH _ Hws). rewrite concat_cons, fmap_app.
  f_equal; [f_equal; unfold len; simpl; lia|].
  unfold len. rewrite length_fmap.
  destruct grid as [|row' grid]; [reflexivity|]. rewrite last_cons_cons.
  destruct (last (row' :: grid)) eqn:El; [done|]. by apply last_None in El.
Qed.

(** X18.  [read_ctrlptsw] on a file of which every line holds the same
    number of entries of four floats [x*w, y*w, z*w, w] with [w] not 0.  It
    returns; [_mCtrlPts_sizeU] is the number of lines and [_mCtrlPts_sizeV]
    the number of entries on a line; entry by entry, the flat list holds
    [[x*w/w, y*w/w, z*w/w]] and the weights hold [w]; [ctrlpts2d[i][j]] is
    the point of entry [j] of line [i].  The weighted control point
    [evaluate_rational] makes of a stored point and its weight is the entry
    of the file again. *)
Theorem read_ctrlptsw_grid (filename : string) (fp : list string)
    (grid : list (list vec4)) (C : Z) (s : Surface) :
  py_open filename = Some fp →
  Forall2 (λ line row,
    Forall2 (λ cpr h, hentry cpr = Ok h) (line_entries line) row) fp grid →
  Forall (Forall (λ h, get4 3 h ≠ 0%Qc)) grid →
  grid ≠ [] → Forall (λ row, len row = C) grid →
  (_mCtrlPts s = [] →
   _mCtrlPts_sizeU s = 0 ∧ _mCtrlPts2D s = [] ∧ _mWeights s = []) →
  read_ctrlptsw filename s =
    (Ok tt,
     with_CtrlPts2D
       (fmap (M:=list) (λ h, point_val (unweighted h).1) <$> grid)
       (read_statew ((λ h, point_val (unweighted h).1) <$> concat grid)
          ((λ h, PFloat (get4 3 h)) <$> concat grid) (len grid) C
          (with_SurfPts [] (cleared_ctrlpts s)))) ∧
  ∀ (cnt : nat) (h : vec4),
    concat grid !! cnt = Some h →
    weighted_point (read_ctrlptsw filename s).2 (Z.of_nat cnt)
      = Ok (get4 0 h, get4 1 h, get4 2 h, PFloat (get4 3 h)).
Proof.
  intros Hopen Hfp Hw Hne Hrows Hstale.
  set (g := λ h : vec4, point_val (unweighted h).1).
  set (s0 := with_SurfPts [] (cleared_ctrlpts s)).
  assert (Hs0 : _mCtrlPts s0 = [] ∧ _mCtrlPts_sizeU s0 = 0 ∧
                _mCtrlPts2D s0 = [] ∧ _mWeights s0 = []).
  { subst s0. unfold cleared_ctrlpts.
    destruct (_mCtrlPts s) eqn:E; simpl; [|done].
    rewrite E. by destruct (Hstale eq_refl) as (? & ? & ?). }
  destruct Hs0 as (Hl0 & Hu0 & H2d0 & Hw0).
  assert (HC : 0 ≤ C).
  { destruct grid as [|row grid]; [done|].
    apply Forall_cons in Hrows as [<- _]. unfold len. lia. }
  assert (Hlast : default (_mCtrlPts_sizeV s0) (len <$> last grid) = C).
  { destruct (last grid) as [row|] eqn:El.
    - simpl. rewrite Forall_forall in Hrows. apply Hrows.
      apply last_Some in El as [l' ->]. apply elem_of_app. right. constructor.
    - apply last_None in El. done. }
  assert (Hrun : read_ctrlptsw filename s =
    (Ok tt,
     with_CtrlPts2D (fmap (M:=list) g <$> grid)
       (read_statew (g <$> concat grid)
          ((λ h, PFloat (get4 3 h)) <$> concat grid) (len grid) C s0))).
  { rewrite read_ctrlptsw_run, Hopen. fold s0.
    unfold from_M. rewrite bind_run.
    assert (Heta : s0 = read_statew (_mCtrlPts s0) (_mWeights s0)
                          (_mCtrlPts_sizeU s0) (_mCtrlPts_sizeV s0) s0)
      by (by destruct s0).
    rewrite Heta at 1. rewrite read_rowsw_run, Hl0, Hu0, Hw0.
    rewrite (read_filew_grid fp grid _ Hfp Hw), Hlast. cbn [fst snd].
    rewrite !app_nil_l, Z.add_0_l, <-!list_fmap_compose.
    change ((λ pw : list Qc * Qc, point_val pw.1) ∘ unweighted) with g.
    change ((λ pw : list Qc * Qc, PFloat pw.2) ∘ unweighted)
      with (λ h : vec4, PFloat (get4 3 h)).
    set (flat := g <$> concat grid).
    set (st := read_statew flat _ (len grid) C s0).
    assert (Hlen : len flat = len grid * C).
    { subst flat. unfold len. rewrite length_fmap.
      clear -Hrows. induction Hrows as [|row grid Hrow Hrows IH]; [done|].
      simpl. rewrite length_app. unfold len in *. lia. }
    assert (Hst : st = with_CtrlPts2D [] st).
    { rewrite <-(with_CtrlPts2D_eta st) at 1. f_equal. exact H2d0. }
    unfold build_ctrlpts2d. rewrite bind_run. unfold get at 1. cbv beta iota.
    change (_mCtrlPts_sizeU st) with (len grid). unfold range.
    replace (len grid - 0) with (Z.of_nat (length grid)) by (unfold len; lia).
    rewrite Hst at 1. rewrite build_rows_ok;
      [|done|done|change (_mCtrlPts_sizeV st) with C;
                   change (_mCtrlPts st) with flat; unfold len in *; lia].
    do 2 f_equal.
    change (_mCtrlPts_sizeV st) with C. change (_mCtrlPts st) with flat.
    rewrite app_nil_l. subst flat. rewrite <-concat_fmap_fmap.
    assert (Hlg : Z.of_nat (length grid)
                  = len (fmap (M:=list) g <$> grid))
      by (unfold len; by rewrite length_fmap).
    rewrite Hlg.
    etrans;
      [|apply (chunks_concat_from (fmap (M:=list) g <$> grid) (Z.to_nat C)
                 0 []); [done|done|]].
    - apply list_fmap_ext. intros _ i _. simpl.
      by replace (Z.of_nat (Z.to_nat C)) with C by lia.
    - apply Forall_fmap. eapply Forall_impl; [exact Hrows|].
      intros row Hr. simpl. rewrite length_fmap. unfold len in Hr. lia. }
  split; [exact Hrun|]. rewrite Hrun. cbn [snd].
  intros cnt h Hh. unfold weighted_point.
  cbn [_mCtrlPts _mWeights with_CtrlPts2D read_statew with_sizeV with_sizeU
       with_CtrlPts with_Weights].
  rewrite !py_index_fmap.
  assert (Hi : py_index (concat grid) (Z.of_nat cnt) = Ok h).
  { apply py_index_nonneg; [lia|]. by rewrite Nat2Z.id. }
  rewrite Hi. unfold mbind, res_bind. cbv beta iota.
  assert (Hh3 : get4 3 h ≠ 0%Qc).
  { assert (Hin : h ∈ concat grid) by (by eapply list_elem_of_lookup_2).
    apply elem_of_concat in Hin as (row & Hin & Hrow).
    rewrite Forall_forall in Hw. specialize (Hw row Hrow).
    rewrite Forall_forall in Hw. by apply Hw. }
  destruct h as [[[a b] c] w]. simpl in Hh3. subst g. simpl.
  by rewrite !Qc_div_mul.
Qed.

End readingw_runs.

(** X18 at work: the file of 2 lines of 2 weighted points read into a new
    object. *)
Lemma read_ctrlptsw_grid_witness :
  @read_ctrlptsw example_builtins "gridw.txt" init =
    (Ok tt,
     with_CtrlPts2D
       (fmap (M:=list) (λ h, point_val (unweighted h).1) <$> example_gridw)
       (read_statew
          ((λ h, point_val (unweighted h).1) <$> concat example_gridw)
          ((λ h, PFloat (get4 3 h)) <$> concat example_gridw) 2 2
          (with_SurfPts [] (cleared_ctrlpts init)))) ∧
  ∀ (cnt : nat) (h : vec4),
    concat example_gridw !! cnt = Some h →
    weighted_point (@read_ctrlptsw example_builtins "gridw.txt" init).2
      (Z.of_nat cnt)
      = Ok (get4 0 h, get4 1 h, get4 2 h, PFloat (get4 3 h)).
Proof.
  apply (@read_ctrlptsw_grid example_builtins "gridw.txt"
           ["0,0,0,1;2,0,0,2" +:+ newline; "0,3,0,3;4,4,0,4" +:+ newline]
           example_gridw 2 init).
  - reflexivity.
  - repeat constructor; compute_done.
  - repeat constructor; compute_done.
  - discriminate.
  - repeat constructor.
  - intros _. split_and!; reflexivity.
Defined.

(** ** Affine invariance of [evaluate] *)

Lemma cell_fmap {A B} (f : A → B) (ch : list (list A)) (i j : Z) :
  cell (fmap (M:=list) f <$> ch) i j =
  match cell ch i j with
  | Ok p => Ok (f p)
  | Err e => Err e
  end.
Proof.
  unfold cell. rewrite py_index_fmap.
  destruct (py_index ch i) as [row|e]; [|done].
  unfold mbind, res_bind. cbv beta iota. by rewrite py_index_fmap.
Qed.

Lemma vec3_eq (a b c a' b' c' : Qc) :
  a = a' → b = b' → c = c' → (a, b, c) = (a', b', c').
Proof. by intros -> -> ->. Qed.

Lemma affine_acc_zero (f : affine_map) : affine_acc f 0 zero3 = zero3.
Proof.
  destruct f as [[[a0 a1] a2] [[b0 b1] b2] [[c0 c1] c2] [[t0 t1] t2]].
  unfold affine_acc, dot3, zero3. simpl. apply vec3_eq; ring.
Qed.

Lemma affine_acc_one (f : affine_map) (p : vec3) :
  affine_acc f 1 p = apply_affine f p.
Proof.
  destruct f as [[[a0 a1] a2] [[b0 b1] b2] [[c0 c1] c2] [[t0 t1] t2]].
  destruct p as [[x y] z].
  unfold affine_acc, apply_affine, dot3. simpl. apply vec3_eq; ring.
Qed.

Section affine.
Variables (f : affine_map) (ch : list (list vec3)).

Local Abbreviation P := (fmap (M:=list) point3 <$> ch).
Local Abbreviation P' :=
  (fmap (M:=list) point3 <$> (fmap (M:=list) (apply_affine f) <$> ch)).

Lemma temp_loop_affine (bu : list Qc) (iu iv : Z) (ks : list Z) (t : vec3)
    (B : Qc) :
  (∀ k, k ∈ ks → 0 ≤ k) →
  for_loop ks (temp_step P' bu iu iv) (affine_acc f B t) =
  match for_loop ks (temp_step P bu iu iv) t with
  | Ok t1 => Ok (affine_acc f (B + idx_sum bu ks) t1)
  | Err e => Err e
  end.
Proof.
  revert t B. induction ks as [|k ks IH]; intros t B Hks; simpl.
  - by rewrite Qcplus_0_r.
  - rewrite !temp_step_chunks.
    destruct (py_index bu k) as [b|e] eqn:Hb; [|done].
    rewrite cell_fmap. destruct (cell ch (iu + k) iv) as [p|e]; [|done].
    rewrite (py_index_default bu k b); [|apply Hks; constructor|done].
    lazymatch goal with
    | |- for_loop ks _ ?acc = match for_loop ks _ ?acc0 with _ => _ end =>
        replace acc with (affine_acc f (B + b) acc0)
    end.
    + rewrite IH by (intros; apply Hks; by constructor).
      destruct (for_loop ks _ _) as [t1|e]; [|done].
      by rewrite Qcplus_assoc.
    + destruct f as [[[a0 a1] a2] [[b0 b1] b2] [[c0 c1] c2] [[t0 t1] t2]].
      destruct p as [[x y] z], t as [[tx ty] tz].
      unfold affine_acc, apply_affine, dot3. simpl. apply vec3_eq; ring.
Qed.

Lemma surfpt_loop_affine (degU degV : Z) (bu bv : list Qc) (su sv : Z)
    (ls : list Z) (e : vec3) (B : Qc) :
  (∀ l, l ∈ ls → 0 ≤ l) →
  for_loop ls (surfpt_step P' degU degV bu bv su sv) (affine_acc f B e) =
  match for_loop ls (surfpt_step P degU degV bu bv su sv) e with
  | Ok e1 =>
      Ok (affine_acc f
            (B + idx_sum bv ls * idx_sum bu (range 0 (degU + 1))) e1)
  | Err err => Err err
  end.
Proof.
  revert e B. induction ls as [|l ls IH]; intros e B Hls; simpl.
  - f_equal. f_equal. ring.
  - unfold surfpt_step at 1 3, temp_sum. cbv zeta.
    rewrite <-(affine_acc_zero f) at 1.
    rewrite temp_loop_affine
      by (intros k Hk; unfold range in Hk; apply elem_of_seqZ in Hk; lia).
    destruct (for_loop _ (temp_step _ _ _ _) zero3) as [t|err]; [|done].
    unfold mbind, res_bind. cbv beta iota.
    destruct (py_index bv l) as [b|err] eqn:Hb; [|done].
    rewrite (py_index_default bv l b); [|apply Hls; constructor|done].
    unfold mret, res_ret. cbv beta iota.
    lazymatch goal with
    | |- for_loop ls _ ?acc = match for_loop ls _ ?acc0 with _ => _ end =>
        replace acc with
          (affine_acc f (B + b * idx_sum bu (range 0 (degU + 1))) acc0)
    end.
    + rewrite IH by (intros; apply Hls; by constructor).
      destruct (for_loop ls _ _) as [e1|err]; [|done].
      f_equal. f_equal. ring.
    + destruct f as [[[a0 a1] a2] [[b0 b1] b2] [[c0 c1] c2] [[t0 t1] t2]].
      destruct e as [[ex ey] ez], t as [[tx ty] tz].
      unfold affine_acc, dot3. simpl. apply vec3_eq; ring.
Qed.

(** With basis functions that sum to 1 in both directions, the point
    computed from the mapped control points is the image of the point
    computed from the control points. *)
Lemma surface_point_sum_affine (degU degV : Z) (bu bv : list Qc) (su sv : Z) :
  length bu = Z.to_nat (degU + 1) → sum_list bu = 1%Qc →
  length bv = Z.to_nat (degV + 1) → sum_list bv = 1%Qc →
  surface_point_sum P' degU degV bu bv su sv =
  match surface_point_sum P degU degV bu bv su sv with
  | Ok p => Ok (apply_affine f p)
  | Err e => Err e
  end.
Proof.
  intros Hlu Hsu Hlv Hsv. unfold surface_point_sum.
  rewrite <-(affine_acc_zero f) at 1.
  rewrite surfpt_loop_affine
    by (intros l Hl; unfold range in Hl; apply elem_of_seqZ in Hl; lia).
  destruct (for_loop _ (surfpt_step _ _ _ _ _ _ _) zero3) as [p|e]; [|done].
  rewrite !idx_sum_unity by done.
  replace (0 + 1 * 1)%Qc with 1%Qc by ring.
  by rewrite affine_acc_one.
Qed.

End affine.

Lemma collect_fmap {A} (xs : list A) (g h : A → res vec3) (f : vec3 → vec3) :
  (∀ x, x ∈ xs →
        g x = match h x with Ok p => Ok (f p) | Err e => Err e end) →
  collect xs g = ((collect xs h).1, f <$> (collect xs h).2).
Proof.
  induction xs as [|x xs IH]; intros Hg; [done|].
  cbn [collect]. rewrite (Hg x) by constructor.
  destruct (h x) as [p|e]; [|done].
  rewrite IH by (intros; apply Hg; by constructor).
  by destruct (collect xs h) as [r ps].
Qed.

Lemma collect_rows_fmap {A} (vs : list A) (row' row : A → res unit * list vec3)
    (f : vec3 → vec3) :
  (∀ v, v ∈ vs → row' v = ((row v).1, f <$> (row v).2)) →
  collect_rows vs row' =
    ((collect_rows vs row).1, f <$> (collect_rows vs row).2).
Proof.
  induction vs as [|v vs IH]; intros Hrow; [done|].
  cbn [collect_rows]. rewrite (Hrow v) by constructor.
  destruct (row v) as [[[]|e] ps]; cbn [fst snd]; [|done].
  rewrite IH by (intros; apply Hrow; by constructor).
  destruct (collect_rows vs row) as [r ps']. cbn [fst snd].
  by rewrite fmap_app.
Qed.

Section affine_invariance.
Context {U : Utilities}.

(** X19.  [evaluate] is invariant under affine maps of the control net, in
    exact arithmetic and under the contract that the basis functions sum to
    1 at the sampled parameters.  On an object that passes the precondition
    check and whose 2D list holds 3D points: when every control point is
    replaced by its image under an affine map (a matrix and a translation),
    [evaluate] ends the same way, and the points it caches are the images
    of the points it cached for the original control net. *)
Theorem evaluate_affine_invariance (s : Surface) (ch : list (list vec3))
    (f : affine_map) :
  _mCtrlPts2D s = fmap (M:=list) point3 <$> ch →
  unity_at_samples s → ¬ not_configured s →
  outcome evaluate
    (with_CtrlPts2D
       (fmap (M:=list) point3 <$> (fmap (M:=list) (apply_affine f) <$> ch)) s)
    = outcome evaluate s ∧
  _mSurfPts (exec evaluate
    (with_CtrlPts2D
       (fmap (M:=list) point3 <$> (fmap (M:=list) (apply_affine f) <$> ch)) s))
    = apply_affine f <$> _mSurfPts (exec evaluate s).
Proof.
  intros H2d Hunity Hcfg.
  set (s' := with_CtrlPts2D _ s).
  unfold outcome, exec. rewrite !evaluate_run.
  change (_check_variables s') with (_check_variables s).
  destruct (check_variables_spec s) as [[Hn _]|[_ ->]]; [done|].
  cbn [fst snd _mSurfPts with_SurfPts].
  assert (Hs : evaluate_samples s' =
            ((evaluate_samples s).1, apply_affine f <$> (evaluate_samples s).2)).
  { unfold evaluate_samples.
    change (_mDelta s') with (_mDelta s).
    apply collect_rows_fmap. intros v Hv.
    change (_mDegreeV s') with (_mDegreeV s).
    change (_mKnotVectorV s') with (_mKnotVectorV s).
    change (_mCtrlPts_sizeV s') with (_mCtrlPts_sizeV s).
    destruct (find_span _ _ _ v) as [span_v|e] eqn:Hsv; [|done]. simpl.
    destruct (basis_functions _ _ span_v v) as [basis_v|e] eqn:Hbv; [|done].
    simpl. destruct (proj2 (Hunity v Hv) _ _ Hsv Hbv) as [Hlv Hsumv].
    apply collect_fmap. intros u Hu.
    destruct (find_span _ _ _ u) as [span_u|e] eqn:Hsu; [|done]. simpl.
    destruct (basis_functions _ _ span_u u) as [basis_u|e] eqn:Hbu; [|done].
    simpl. destruct (proj1 (Hunity u Hu) _ _ Hsu Hbu) as [Hlu Hsumu].
    rewrite H2d. by apply surface_point_sum_affine. }
  by rewrite Hs.
Qed.

End affine_invariance.

(** X19 at work: the bilinear patch sampled with step 1/2, turned and
    shifted, with the helpers of the specification. *)
Lemma evaluate_affine_invariance_witness :
  outcome (@evaluate spec_utilities)
    (with_CtrlPts2D
       (fmap (M:=list) point3
          <$> (fmap (M:=list) (apply_affine turn_and_shift)
                 <$> bilinear_points)) coarse_patch)
    = outcome (@evaluate spec_utilities) coarse_patch ∧
  _mSurfPts (exec (@evaluate spec_utilities)
    (with_CtrlPts2D
       (fmap (M:=list) point3
          <$> (fmap (M:=list) (apply_affine turn_and_shift)
                 <$> bilinear_points)) coarse_patch))
    = apply_affine turn_and_shift
        <$> _mSurfPts (exec (@evaluate spec_utilities) coarse_patch).
Proof.
  apply (@evaluate_affine_invariance spec_utilities coarse_patch
           bilinear_points turn_and_shift).
  - compute_done.
  - apply spec_unity_at_samples.
  - destruct (check_variables_spec coarse_patch) as [[_ H]|[H _]]; [|done].
    vm_compute in H. discriminate H.
Defined.

(** ** Scaling all weights by a common factor *)

Section scaled_weights.
Variables (s : Surface) (ws : list Qc) (c : Qc).
Hypothesis Hws : _mWeights s = PFloat <$> ws.
Hypothesis Hc : c ≠ 0%Qc.

Local Abbreviation s' := (with_Weights (PFloat <$> (Qcmult c <$> ws)) s).

Lemma py_mul_scaled (p : pyval) (w : Qc) :
  py_mul p (PFloat (c * w)%Qc) =
  match py_mul p (PFloat w) with
  | Ok x => Ok (c * x)%Qc
  | Err e => Err e
  end.
Proof. destruct p as [x|l]; simpl; [|done]. f_equal. ring. Qed.

Lemma weighted_point_scaled (cnt : Z) :
  weighted_point s' cnt =
  match weighted_point s cnt with
  | Ok h => Ok (scale_h c h)
  | Err e => Err e
  end.
Proof.
  unfold weighted_point.
  cbn [_mCtrlPts _mWeights with_Weights]. rewrite Hws.
  rewrite <-list_fmap_compose, !py_index_fmap.
  destruct (py_index (_mCtrlPts s) cnt) as [p|e]; [|done].
  unfold mbind, res_bind. cbv beta iota.
  destruct (py_getitem p 0) as [p0|e]; [|done].
  destruct (py_index ws cnt) as [w|e]; [|done]. cbv beta iota.
  unfold compose. rewrite (py_mul_scaled p0 w).
  destruct (py_mul p0 (PFloat w)) as [x|e]; [|done].
  destruct (py_getitem p 1) as [p1|e]; [|done].
  rewrite (py_mul_scaled p1 w).
  destruct (py_mul p1 (PFloat w)) as [y|e]; [|done].
  destruct (py_getitem p 2) as [p2|e]; [|done].
  rewrite (py_mul_scaled p2 w).
  destruct (py_mul p2 (PFloat w)) as [z|e]; [|done].
  reflexivity.
Qed.

Lemma weighted_row_loop_scaled (xs : list Z) (acc : list hpoint) (cnt : Z) :
  for_loop xs (weighted_row_step s') (scale_h c <$> acc, cnt) =
  match for_loop xs (weighted_row_step s) (acc, cnt) with
  | Ok (acc1, cnt1) => Ok (scale_h c <$> acc1, cnt1)
  | Err e => Err e
  end.
Proof.
  revert acc cnt. induction xs as [|x xs IH]; intros acc cnt; [done|].
  cbn [for_loop]. unfold weighted_row_step at 1 3.
  rewrite weighted_point_scaled.
  destruct (weighted_point s cnt) as [h|e]; [|done].
  unfold mbind, res_bind, mret, res_ret. cbv beta iota.
  replace ((scale_h c <$> acc) ++ [scale_h c h])
    with (scale_h c <$> (acc ++ [h])) by (by rewrite fmap_app).
  apply IH.
Qed.

Lemma weighted_rows_loop_scaled (xs : list Z) (acc : list (list hpoint))
    (cnt : Z) :
  for_loop xs (weighted_rows_step s')
    (fmap (M:=list) (scale_h c) <$> acc, cnt) =
  match for_loop xs (weighted_rows_step s) (acc, cnt) with
  | Ok (acc1, cnt1) => Ok (fmap (M:=list) (scale_h c) <$> acc1, cnt1)
  | Err e => Err e
  end.
Proof.
  revert acc cnt. induction xs as [|x xs IH]; intros acc cnt; [done|].
  cbn [for_loop]. unfold weighted_rows_step at 1 3.
  change (_mCtrlPts_sizeV s') with (_mCtrlPts_sizeV s).
  pose proof (weighted_row_loop_scaled (range 0 (_mCtrlPts_sizeV s)) [] cnt)
    as Hrow.
  rewrite fmap_nil in Hrow. rewrite Hrow.
  destruct (for_loop _ (weighted_row_step s) _) as [[row cnt1]|e]; [|done].
  unfold mbind, res_bind, mret, res_ret. cbv beta iota.
  replace ((fmap (M:=list) (scale_h c) <$> acc) ++ [scale_h c <$> row])
    with (fmap (M:=list) (scale_h c) <$> (acc ++ [row]))
    by (by rewrite fmap_app).
  apply IH.
Qed.

Lemma weighted_ctrlpts_scaled :
  weighted_ctrlpts s' =
  match weighted_ctrlpts s with
  | Ok W => Ok (fmap (M:=list) (scale_h c) <$> W)
  | Err e => Err e
  end.
Proof.
  unfold weighted_ctrlpts.
  change (_mCtrlPts_sizeU s') with (_mCtrlPts_sizeU s).
  pose proof (weighted_rows_loop_scaled (range 0 (_mCtrlPts_sizeU s)) [] 0)
    as Hrows.
  rewrite fmap_nil in Hrows. rewrite Hrows.
  by destruct (for_loop _ (weighted_rows_step s) _) as [[W cnt]|e].
Qed.

Lemma ctrlw_term_scaled (W : list (list hpoint)) (b : Qc) (i j : Z)
    (comp : nat) :
  ctrlw_term (fmap (M:=list) (scale_h c) <$> W) b i j comp =
  match ctrlw_term W b i j comp with
  | Ok x => Ok (c * x)%Qc
  | Err e => Err e
  end.
Proof.
  unfold ctrlw_term. rewrite py_index_fmap.
  destruct (py_index W i) as [row|e]; [|done].
  unfold mbind, res_bind. cbv beta iota. rewrite py_index_fmap.
  unfold hpoint in *.
  destruct (py_index row j) as [[[[x y] z] w]|e]; [|reflexivity].
  cbv beta iota. unfold scale_h.
  destruct comp as [|[|[|comp]]]; try (f_equal; ring).
  destruct w as [w|l]; simpl; [|done]. f_equal. ring.
Qed.

Lemma tempw_loop_scaled (W : list (list hpoint)) (bu : list Qc) (iu iv : Z)
    (ks : list Z) (t : vec4) :
  for_loop ks (tempw_step (fmap (M:=list) (scale_h c) <$> W) bu iu iv)
    (scale4 c t) =
  match for_loop ks (tempw_step W bu iu iv) t with
  | Ok t1 => Ok (scale4 c t1)
  | Err e => Err e
  end.
Proof.
  revert t. induction ks as [|k ks IH]; intros t; [done|].
  cbn [for_loop]. unfold tempw_step at 1 3.
  destruct (py_index bu k) as [b|e]; [|done].
  unfold mbind, res_bind. cbv beta iota zeta.
  rewrite !ctrlw_term_scaled.
  destruct (ctrlw_term W b (iu + k) iv 0) as [x0|e]; [|done].
  destruct (ctrlw_term W b (iu + k) iv 1) as [x1|e]; [|done].
  destruct (ctrlw_term W b (iu + k) iv 2) as [x2|e]; [|done].
  destruct (ctrlw_term W b (iu + k) iv 3) as [x3|e]; [|done].
  unfold mret, res_ret. cbv beta iota.
  lazymatch goal with
  | |- for_loop ks _ ?acc = match for_loop ks _ ?acc0 with _ => _ end =>
      replace acc with (scale4 c acc0)
  end.
  - apply IH.
  - destruct t as [[[t0 t1] t2] t3]. unfold scale4. simpl.
    f_equal; [f_equal; [f_equal|]|]; ring.
Qed.

Lemma scale4_zero : scale4 c zero4 = zero4.
Proof. unfold scale4, zero4. simpl. f_equal; [f_equal; [f_equal|]|]; ring. Qed.

Lemma surfptw_loop_scaled (W : list (list hpoint)) (degU degV : Z)
    (bu bv : list Qc) (su sv : Z) (ls : list Z) (e : vec4) :
  for_loop ls
    (surfptw_step (fmap (M:=list) (scale_h c) <$> W) degU degV bu bv su sv)
    (scale4 c e) =
  match for_loop ls (surfptw_step W degU degV bu bv su sv) e with
  | Ok e1 => Ok (scale4 c e1)
  | Err err => Err err
  end.
Proof.
  revert e. induction ls as [|l ls IH]; intros e; [done|].
  cbn [for_loop]. unfold surfptw_step at 1 3, tempw_sum. cbv zeta.
  rewrite <-scale4_zero at 1. rewrite tempw_loop_scaled.
  destruct (for_loop _ (tempw_step W _ _ _) zero4) as [t|err]; [|done].
  unfold mbind, res_bind. cbv beta iota.
  destruct (py_index bv l) as [b|err]; [|done].
  unfold mret, res_ret. cbv beta iota.
  lazymatch goal with
  | |- for_loop ls _ ?acc = match for_loop ls _ ?acc0 with _ => _ end =>
      replace acc with (scale4 c acc0)
  end.
  - apply IH.
  - destruct e as [[[e0 e1] e2] e3], t as [[[t0 t1] t2] t3].
    unfold scale4. simpl. f_equal; [f_equal; [f_equal|]|]; ring.
Qed.

(** The perspective division cancels the common factor. *)
Lemma project_scaled (w : vec4) : project (scale4 c w) = project w.
Proof.
  destruct w as [[[x y] z] w]. unfold project, scale4. cbn [get4].
  unfold py_div.
  destruct (decide (w = 0%Qc)) as [Hw|Hw].
  - destruct (decide ((c * w)%Qc = 0%Qc)) as [_|Hcw]; [reflexivity|].
    exfalso. apply Hcw. rewrite Hw. ring.
  - destruct (decide ((c * w)%Qc = 0%Qc)) as [Hcw|_].
    { by apply Qcmult_integral in Hcw as [?|?]. }
    unfold mbind, res_bind, mret, res_ret. f_equal.
    by apply vec3_eq; field.
Qed.

Lemma rational_point_scaled (W : list (list hpoint)) (degU degV : Z)
    (bu bv : list Qc) (su sv : Z) :
  (surfptw ← surface_pointw_sum (fmap (M:=list) (scale_h c) <$> W) degU degV
               bu bv su sv;
   project surfptw) =
  (surfptw ← surface_pointw_sum W degU degV bu bv su sv; project surfptw).
Proof.
  unfold surface_pointw_sum. rewrite <-scale4_zero at 1.
  rewrite surfptw_loop_scaled.
  destruct (for_loop _ (surfptw_step W _ _ _ _ _ _) zero4) as [w|e]; [|done].
  unfold mbind, res_bind. cbv beta iota. apply project_scaled.
Qed.

End scaled_weights.

Section weight_scaling.
Context {U : Utilities}.

Lemma rational_samples_scaled (s : Surface) (c : Qc) (wl : list pyval)
    (W : list (list hpoint)) :
  c ≠ 0%Qc →
  rational_samples (with_Weights wl s) (fmap (M:=list) (scale_h c) <$> W)
    = rational_samples s W.
Proof.
  intros Hc. unfold rational_samples.
  change (_mDelta (with_Weights wl s)) with (_mDelta s).
  apply collect_rows_ext. intros v _.
  change (_mDegreeV (with_Weights wl s)) with (_mDegreeV s).
  change (_mKnotVectorV (with_Weights wl s)) with (_mKnotVectorV s).
  change (_mCtrlPts_sizeV (with_Weights wl s)) with (_mCtrlPts_sizeV s).
  destruct (call (find_span _ _ _ v)) as [span_v|e]; [|done].
  destruct (call (basis_functions _ _ span_v v)) as [basis_v|e]; [|done].
  apply collect_ext. intros u _.
  change (_mDegreeU (with_Weights wl s)) with (_mDegreeU s).
  change (_mKnotVectorU (with_Weights wl s)) with (_mKnotVectorU s).
  change (_mCtrlPts_sizeU (with_Weights wl s)) with (_mCtrlPts_sizeU s).
  destruct (find_span _ _ _ u) as [span_u|e]; [|done]. simpl.
  destruct (basis_functions _ _ span_u u) as [basis_u|e]; [|done]. simpl.
  by apply rational_point_scaled.
Qed.

(** X20.  Only the ratios of the weights matter to [evaluate_rational], in
    exact arithmetic.  If the weights assigned through the [weights] setter
    are all multiplied by one factor that is not 0, [evaluate_rational]
    ends the same way and caches the same points: the factor cancels in the
    division by the accumulated weight. *)
Theorem evaluate_rational_weight_scaling (s : Surface) (ws : list Qc)
    (c : Qc) :
  outcome (weights_setter ws) s = Ok tt → c ≠ 0%Qc →
  outcome (weights_setter (Qcmult c <$> ws)) s = Ok tt ∧
  outcome evaluate_rational (exec (weights_setter (Qcmult c <$> ws)) s)
    = outcome evaluate_rational (exec (weights_setter ws) s) ∧
  _mSurfPts (exec evaluate_rational
               (exec (weights_setter (Qcmult c <$> ws)) s))
    = _mSurfPts (exec evaluate_rational (exec (weights_setter ws) s)).
Proof.
  intros Hok Hc. revert Hok. unfold outcome, exec.
  rewrite !weights_setter_run. unfold len. rewrite length_fmap.
  case_decide; [done|]. intros _. cbn [fst snd].
  split; [done|].
  set (s1 := with_Weights (PFloat <$> ws) (with_SurfPts [] s)).
  change (with_Weights (PFloat <$> (Qcmult c <$> ws)) (with_SurfPts [] s))
    with (with_Weights (PFloat <$> (Qcmult c <$> ws)) s1).
  rewrite !evaluate_rational_run.
  change (_check_variables (with_Weights (PFloat <$> (Qcmult c <$> ws)) s1))
    with (_check_variables s1).
  destruct (_check_variables s1) as [[]|e]; [|done].
  rewrite (weighted_ctrlpts_scaled s1 ws c eq_refl).
  destruct (weighted_ctrlpts s1) as [W|e]; [|done].
  by rewrite rational_samples_scaled.
Qed.

End weight_scaling.

(** X20 at work: the weights 1, 2, 3, 4 of the bilinear patch, sampled with
    step 1/2, multiplied by 5, with the helpers of the specification. *)
Lemma evaluate_rational_weight_scaling_witness :
  outcome (weights_setter (Qcmult (Qc_of_Z 5)
                             <$> [1; 2; Qc_of_Z 3; Qc_of_Z 4]%Qc))
    coarse_patch = Ok tt ∧
  outcome (@evaluate_rational spec_utilities)
    (exec (weights_setter (Qcmult (Qc_of_Z 5)
                             <$> [1; 2; Qc_of_Z 3; Qc_of_Z 4]%Qc))
       coarse_patch)
    = outcome (@evaluate_rational spec_utilities)
        (exec (weights_setter [1; 2; Qc_of_Z 3; Qc_of_Z 4]%Qc) coarse_patch) ∧
  _mSurfPts (exec (@evaluate_rational spec_utilities)
    (exec (weights_setter (Qcmult (Qc_of_Z 5)
                             <$> [1; 2; Qc_of_Z 3; Qc_of_Z 4]%Qc))
       coarse_patch))
    = _mSurfPts (exec (@evaluate_rational spec_utilities)
        (exec (weights_setter [1; 2; Qc_of_Z 3; Qc_of_Z 4]%Qc) coarse_patch)).
Proof.
  apply (@evaluate_rational_weight_scaling spec_utilities coarse_patch
           [1; 2; Qc_of_Z 3; Qc_of_Z 4]%Qc (Qc_of_Z 5)).
  - vm_compute. reflexivity.
  - compute_done.
Defined.

(** ** Affine invariance of [evaluate_rational] *)

Lemma vec4_eq (a b c d a' b' c' d' : Qc) :
  a = a' → b = b' → c = c' → d = d' → (a, b, c, d) = (a', b', c', d').
Proof. by intros -> -> -> ->. Qed.

(** The weighted control point number [cnt] of an object that holds 3D
    points and float weights. *)
Lemma weighted_point_floats (s : Surface) (pts : list vec3) (ws : list Qc)
    (cnt : Z) :
  _mCtrlPts s = point3 <$> pts → _mWeights s = PFloat <$> ws →
  weighted_point s cnt =
  match py_index pts cnt with
  | Err e => Err e
  | Ok p =>
      match py_index ws cnt with
      | Err e => Err e
      | Ok w => Ok (weighted_entry (p, w))
      end
  end.
Proof.
  intros Hpts Hws. unfold weighted_point. rewrite Hpts, Hws.
  rewrite !py_index_fmap.
  destruct (py_index pts cnt) as [p|e]; [|done].
  unfold mbind, res_bind. cbv beta iota.
  assert (H0 : py_getitem (point3 p) 0 = Ok (PFloat (get3 0 p)))
    by (apply (py_getitem_point3 p 0); lia).
  assert (H1 : py_getitem (point3 p) 1 = Ok (PFloat (get3 1 p)))
    by (apply (py_getitem_point3 p 1); lia).
  assert (H2 : py_getitem (point3 p) 2 = Ok (PFloat (get3 2 p)))
    by (apply (py_getitem_point3 p 2); lia).
  rewrite H0, H1, H2.
  by destruct (py_index ws cnt) as [w|e].
Qed.

(** The loops that weight the control points commute with a map of the
    weighted points, when the weighting of each point does. *)
Lemma weighted_ctrlpts_map (s s' : Surface) (g : hpoint → hpoint) :
  _mCtrlPts_sizeU s' = _mCtrlPts_sizeU s →
  _mCtrlPts_sizeV s' = _mCtrlPts_sizeV s →
  (∀ cnt, weighted_point s' cnt =
          match weighted_point s cnt with
          | Ok h => Ok (g h)
          | Err e => Err e
          end) →
  weighted_ctrlpts s' =
  match weighted_ctrlpts s with
  | Ok W => Ok (fmap (M:=list) g <$> W)
  | Err e => Err e
  end.
Proof.
  intros HU HV Hpt.
  assert (Hrow : ∀ xs acc cnt,
    for_loop xs (weighted_row_step s') (g <$> acc, cnt) =
    match for_loop xs (weighted_row_step s) (acc, cnt) with
    | Ok (acc1, cnt1) => Ok (g <$> acc1, cnt1)
    | Err e => Err e
    end).
  { induction xs as [|x xs IH]; intros acc cnt; [done|].
    cbn [for_loop]. unfold weighted_row_step at 1 3. rewrite Hpt.
    destruct (weighted_point s cnt) as [h|e]; [|done].
    unfold mbind, res_bind, mret, res_ret. cbv beta iota.
    replace ((g <$> acc) ++ [g h]) with (g <$> (acc ++ [h]))
      by (by rewrite fmap_app).
    apply IH. }
  assert (Hrows : ∀ xs acc cnt,
    for_loop xs (weighted_rows_step s') (fmap (M:=list) g <$> acc, cnt) =
    match for_loop xs (weighted_rows_step s) (acc, cnt) with
    | Ok (acc1, cnt1) => Ok (fmap (M:=list) g <$> acc1, cnt1)
    | Err e => Err e
    end).
  { induction xs as [|x xs IH]; intros acc cnt; [done|].
    cbn [for_loop]. unfold weighted_rows_step at 1 3. rewrite HV.
    pose proof (Hrow (range 0 (_mCtrlPts_sizeV s)) [] cnt) as Hr.
    rewrite fmap_nil in Hr. rewrite Hr.
    destruct (for_loop _ (weighted_row_step s) _) as [[row cnt1]|e]; [|done].
    unfold mbind, res_bind, mret, res_ret. cbv beta iota.
    replace ((fmap (M:=list) g <$> acc) ++ [g <$> row])
      with (fmap (M:=list) g <$> (acc ++ [row])) by (by rewrite fmap_app).
    apply IH. }
  unfold weighted_ctrlpts. rewrite HU.
  pose proof (Hrows (range 0 (_mCtrlPts_sizeU s)) [] 0) as Hr.
  rewrite fmap_nil in Hr. rewrite Hr.
  by destruct (for_loop _ (weighted_rows_step s) _) as [[W cnt]|e].
Qed.

Section rational_affine.
Variable f : affine_map.

Lemma weighted_entry_affine (p : vec3) (w : Qc) :
  weighted_entry (apply_affine f p, w) = affine_h f (weighted_entry (p, w)).
Proof.
  destruct f as [[[a0 a1] a2] [[b0 b1] b2] [[c0 c1] c2] [[t0 t1] t2]].
  destruct p as [[x y] z].
  unfold weighted_entry, affine_h, affine_acc, apply_affine, dot3. simpl.
  f_equal. apply vec3_eq; ring.
Qed.

Lemma affine4_zero : affine4 f zero4 = zero4.
Proof.
  destruct f as [[[a0 a1] a2] [[b0 b1] b2] [[c0 c1] c2] [[t0 t1] t2]].
  unfold affine4, affine_acc, dot3, zero4. simpl. apply vec4_eq; ring.
Qed.

Lemma tempw_step_affine (W : list (list hpoint)) (bu : list Qc) (iu iv k : Z)
    (t : vec4) :
  tempw_step (fmap (M:=list) (affine_h f) <$> W) bu iu iv k (affine4 f t) =
  match tempw_step W bu iu iv k t with
  | Ok t1 => Ok (affine4 f t1)
  | Err e => Err e
  end.
Proof.
  unfold tempw_step.
  destruct (py_index bu k) as [b|e]; [|done].
  unfold mbind, res_bind. cbv beta iota zeta.
  unfold ctrlw_term. rewrite !py_index_fmap.
  destruct (py_index W (iu + k)) as [row|e]; [|done].
  unfold mbind, res_bind. cbv beta iota. rewrite !py_index_fmap.
  unfold hpoint in *.
  destruct (py_index row iv) as [[[[x y] z] w]|e]; [|reflexivity].
  cbv beta iota.
  destruct w as [w|l]; [|reflexivity].
  unfold affine_h, affine_acc, py_mul, mret, res_ret. cbv beta iota.
  f_equal.
  destruct f as [[[a0 a1] a2] [[b0 b1] b2] [[c0 c1] c2] [[t0 t1] t2]].
  destruct t as [[[tx ty] tz] tw].
  unfold affine4, affine_acc, dot3. simpl. apply vec4_eq; ring.
Qed.

Lemma tempw_loop_affine (W : list (list hpoint)) (bu : list Qc) (iu iv : Z)
    (ks : list Z) (t : vec4) :
  for_loop ks (tempw_step (fmap (M:=list) (affine_h f) <$> W) bu iu iv)
    (affine4 f t) =
  match for_loop ks (tempw_step W bu iu iv) t with
  | Ok t1 => Ok (affine4 f t1)
  | Err e => Err e
  end.
Proof.
  revert t. induction ks as [|k ks IH]; intros t; [done|].
  cbn [for_loop]. rewrite tempw_step_affine.
  destruct (tempw_step W bu iu iv k t) as [t1|e]; [|done].
  apply IH.
Qed.

Lemma surfptw_loop_affine (W : list (list hpoint)) (degU degV : Z)
    (bu bv : list Qc) (su sv : Z) (ls : list Z) (e : vec4) :
  for_loop ls
    (surfptw_step (fmap (M:=list) (affine_h f) <$> W) degU degV bu bv su sv)
    (affine4 f e) =
  match for_loop ls (surfptw_step W degU degV bu bv su sv) e with
  | Ok e1 => Ok (affine4 f e1)
  | Err err => Err err
  end.
Proof.
  revert e. induction ls as [|l ls IH]; intros e; [done|].
  cbn [for_loop]. unfold surfptw_step at 1 3, tempw_sum. cbv zeta.
  rewrite <-affine4_zero at 1. rewrite tempw_loop_affine.
  destruct (for_loop _ (tempw_step W _ _ _) zero4) as [t|err]; [|done].
  unfold mbind, res_bind. cbv beta iota.
  destruct (py_index bv l) as [b|err]; [|done].
  unfold mret, res_ret. cbv beta iota.
  lazymatch goal with
  | |- for_loop ls _ ?acc = match for_loop ls _ ?acc0 with _ => _ end =>
      replace acc with (affine4 f acc0)
  end.
  - apply IH.
  - destruct f as [[[a0 a1] a2] [[b0 b1] b2] [[c0 c1] c2] [[t0 t1] t2]].
    destruct e as [[[ex ey] ez] ew], t as [[[tx ty] tz] tw].
    unfold affine4, affine_acc, dot3. simpl. apply vec4_eq; ring.
Qed.

(** The perspective division of the image is the image of the perspective
    division. *)
Lemma project_affine (w : vec4) :
  project (affine4 f w) =
  match project w with
  | Ok p => Ok (apply_affine f p)
  | Err e => Err e
  end.
Proof.
  destruct f as [[[a0 a1] a2] [[b0 b1] b2] [[c0 c1] c2] [[t0 t1] t2]].
  destruct w as [[[x y] z] w].
  unfold project, affine4, affine_acc, apply_affine, dot3. cbn [get4 get3].
  cbn [am_row0 am_row1 am_row2 am_shift]. unfold py_div.
  destruct (decide (w = 0%Qc)) as [Hw|Hw]; [reflexivity|].
  unfold mbind, res_bind, mret, res_ret. f_equal. simpl.
  by apply vec3_eq; field.
Qed.

Lemma rational_point_affine (W : list (list hpoint)) (degU degV : Z)
    (bu bv : list Qc) (su sv : Z) :
  (surfptw ← surface_pointw_sum (fmap (M:=list) (affine_h f) <$> W) degU degV
               bu bv su sv;
   project surfptw) =
  match (surfptw ← surface_pointw_sum W degU degV bu bv su sv;
         project surfptw) with
  | Ok p => Ok (apply_affine f p)
  | Err e => Err e
  end.
Proof.
  unfold surface_pointw_sum. rewrite <-affine4_zero at 1.
  rewrite surfptw_loop_affine.
  destruct (for_loop _ (surfptw_step W _ _ _ _ _ _) zero4) as [w|e]; [|done].
  unfold mbind, res_bind. cbv beta iota. apply project_affine.
Qed.

End rational_affine.

Section rational_affine_invariance.
Context {U : Utilities}.

(** X21.  [evaluate_rational] is invariant under affine maps of the control
    points, in exact arithmetic, whatever the basis functions sum to: the
    division by the accumulated weight normalises the sum.  On an object
    that passes the precondition check and holds 3D points and float
    weights: when every point of the flat list is replaced by its image
    under an affine map, [evaluate_rational] ends the same way, and the
    points it caches are the images of the points it cached before. *)
Theorem evaluate_rational_affine_invariance (s : Surface) (pts : list vec3)
    (ws : list Qc) (f : affine_map) :
  _mCtrlPts s = point3 <$> pts → _mWeights s = PFloat <$> ws →
  ¬ not_configured s →
  outcome evaluate_rational
    (with_CtrlPts (point3 <$> (apply_affine f <$> pts)) s)
    = outcome evaluate_rational s ∧
  _mSurfPts (exec evaluate_rational
    (with_CtrlPts (point3 <$> (apply_affine f <$> pts)) s))
    = apply_affine f <$> _mSurfPts (exec evaluate_rational s).
Proof.
  intros Hpts Hws Hcfg.
  set (s' := with_CtrlPts (point3 <$> (apply_affine f <$> pts)) s).
  assert (Hcheck : _check_variables s' = Ok tt ∧ _check_variables s = Ok tt).
  { destruct (check_variables_spec s) as [[Hn _]|[_ Hc]]; [done|].
    split; [|done].
    destruct (check_variables_spec s') as [[Hn' _]|[_ Hc']]; [|done].
    exfalso. apply Hcfg. unfold not_configured in *. subst s'. simpl in Hn'.
    rewrite Hpts. destruct pts; [tauto|]. simpl in Hn'.
    destruct Hn' as [?|[?|[?|?]]]; auto; done. }
  destruct Hcheck as [Hc' Hc].
  assert (HW : weighted_ctrlpts s' =
    match weighted_ctrlpts s with
    | Ok W => Ok (fmap (M:=list) (affine_h f) <$> W)
    | Err e => Err e
    end).
  { apply weighted_ctrlpts_map; [done|done|]. intros cnt.
    rewrite (weighted_point_floats s' (apply_affine f <$> pts) ws cnt eq_refl Hws).
    rewrite (weighted_point_floats s pts ws cnt Hpts Hws).
    rewrite py_index_fmap. destruct (py_index pts cnt) as [p|e]; [|done].
    destruct (py_index ws cnt) as [w|e]; [|done].
    by rewrite weighted_entry_affine. }
  unfold outcome, exec. rewrite !evaluate_rational_run, Hc', Hc, HW.
  destruct (weighted_ctrlpts s) as [W|e]; [|done].
  assert (Hs : rational_samples s' (fmap (M:=list) (affine_h f) <$> W) =
            ((rational_samples s W).1,
             apply_affine f <$> (rational_samples s W).2)).
  { unfold rational_samples.
    change (_mDelta s') with (_mDelta s).
    apply collect_rows_fmap. intros v _.
    change (_mDegreeV s') with (_mDegreeV s).
    change (_mKnotVectorV s') with (_mKnotVectorV s).
    change (_mCtrlPts_sizeV s') with (_mCtrlPts_sizeV s).
    destruct (call (find_span _ _ _ v)) as [span_v|e]; [|done].
    destruct (call (basis_functions _ _ span_v v)) as [basis_v|e]; [|done].
    apply collect_fmap. intros u _.
    change (_mDegreeU s') with (_mDegreeU s).
    change (_mKnotVectorU s') with (_mKnotVectorU s).
    change (_mCtrlPts_sizeU s') with (_mCtrlPts_sizeU s).
    destruct (find_span _ _ _ u) as [span_u|e]; [|done]. simpl.
    destruct (basis_functions _ _ span_u u) as [basis_u|e]; [|done]. simpl.
    by apply rational_point_affine. }
  by rewrite Hs.
Qed.

End rational_affine_invariance.

(** X21 at work: the bilinear patch with the weights 1, 2, 3, 4, sampled
    with step 1/2, turned and shifted, with the helpers of the
    specification. *)
Lemma evaluate_rational_affine_invariance_witness :
  outcome (@evaluate_rational spec_utilities)
    (with_CtrlPts
       (point3 <$> (apply_affine turn_and_shift <$> concat bilinear_points))
       (exec (weights_setter [1; 2; Qc_of_Z 3; Qc_of_Z 4]%Qc) coarse_patch))
    = outcome (@evaluate_rational spec_utilities)
        (exec (weights_setter [1; 2; Qc_of_Z 3; Qc_of_Z 4]%Qc) coarse_patch) ∧
  _mSurfPts (exec (@evaluate_rational spec_utilities)
    (with_CtrlPts
       (point3 <$> (apply_affine turn_and_shift <$> concat bilinear_points))
       (exec (weights_setter [1; 2; Qc_of_Z 3; Qc_of_Z 4]%Qc) coarse_patch)))
    = apply_affine turn_and_shift
        <$> _mSurfPts (exec (@evaluate_rational spec_utilities)
              (exec (weights_setter [1; 2; Qc_of_Z 3; Qc_of_Z 4]%Qc)
                 coarse_patch)).
Proof.
  apply (@evaluate_rational_affine_invariance spec_utilities
           (exec (weights_setter [1; 2; Qc_of_Z 3; Qc_of_Z 4]%Qc) coarse_patch)
           (concat bilinear_points) [1; 2; Qc_of_Z 3; Qc_of_Z 4]%Qc
           turn_and_shift).
  - compute_done.
  - compute_done.
  - destruct (check_variables_spec
                (exec (weights_setter [1; 2; Qc_of_Z 3; Qc_of_Z 4]%Qc)
                   coarse_patch)) as [[_ H]|[H _]]; [|done].
    vm_compute in H. discriminate H.
Defined.

(** ** Reading the control points back *)

(** X22.  Set-then-get of the control points, for coordinates that are
    real numbers (on which [float()] returns).  When the [ctrlpts] setter
    returns, and also when it raises an [IndexError] while it builds the 2D
    list, the flat list that the [ctrlpts] getter returns holds the
    coordinates of the rows of the argument, one row after the other. *)
Theorem ctrlpts_set_then_get (value : list (list (list Qc))) (s : Surface) :
  outcome (ctrlpts_setter value) s = Ok tt ∨
  outcome (ctrlpts_setter value) s = Err IndexError →
  ctrlpts (exec (ctrlpts_setter value) s) = point_val <$> concat value.
Proof.
  intros Hout.
  assert (Hnve : not_ValueError (outcome (ctrlpts_setter value) s))
    by (by destruct Hout as [-> | ->]).
  clear Hout. revert Hnve.
  unfold outcome, exec, ctrlpts.
  destruct (ctrlpts_setter value s) as [r s'] eqn:Hrun. simpl. intros Hnve.
  revert Hrun. unfold ctrlpts_setter.
  rewrite bind_run, reset_surface_run. cbv beta iota.
  rewrite bind_run, reset_ctrlpts_run. cbv beta iota.
  set (s1 := cleared_ctrlpts (with_SurfPts [] s)).
  assert (Hs1 : s1 = with_CtrlPts [] s1).
  { pose proof (cleared_ctrlpts_empty (with_SurfPts [] s)) as He.
    fold s1 in He. destruct s1; simpl in He; by subst. }
  rewrite bind_run. unfold get at 1. cbv beta iota.
  destruct (decide (len value < _mDegreeV s1 + 1)) as [Hv|Hv].
  { intros [= <- _]. done. }
  rewrite bind_run.
  destruct (append_rows_run value 0 [] s1)
    as (pre & suf & r0 & Hc & Hr & [ (k & -> & -> ) | (m' & -> ) ]).
  - rewrite Hs1 at 1. rewrite Hr. cbv beta iota. intros Hrest.
    rewrite app_nil_r in Hc. rewrite Hc.
    replace s' with (snd (r, s')) by done. rewrite <-Hrest.
    lazymatch goal with
    | |- _mCtrlPts (?rest ?st).2 = ?L =>
        cut (keeps (λ s2, _mCtrlPts s2 = L) rest);
          [intros Hk; by apply Hk|]
    end.
    unfold build_ctrlpts2d, build_rows_step, build_row_step. keeps_auto.
  - rewrite Hs1 at 1. rewrite Hr. cbv beta iota. intros [= <- _]. done.
Qed.

(** X22 at work: the grid of 3 rows of 2 points, on which the setter raises
    an [IndexError]. *)
Lemma ctrlpts_set_then_get_witness :
  outcome (ctrlpts_setter tall_grid) degree12 = Err IndexError ∧
  ctrlpts (exec (ctrlpts_setter tall_grid) degree12)
    = point_val <$> concat tall_grid.
Proof.
  split; [compute_done|].
  apply (ctrlpts_set_then_get tall_grid degree12).
  right. compute_done.
Defined.
